(** * ESP-NOW link & peer manager and test orchestration engine

    A shallow embedding of [esp_now_manager.cpp], [test_framework.cpp],
    [performance_tests.cpp] and of the peer clean-up task of the application,
    followed by the properties of the specification that were checked
    against it.

    Conventions.
    - Fixed-width unsigned integers are [Z] with the wrap-around written
      out ([wrap32], [wrap64]); bytes are [Z] in [0, 256).
    - [float] is IEEE-754 binary32, given by the Standard Library's
      [SpecFloat] at precision 24 and maximal exponent 128.
    - Every operation is a state transformer on [System]: the manager
      object together with the clock, the callbacks that were invoked, and
      the agenda of the other FreeRTOS tasks.  Operations run atomically;
      the other tasks run only while the running task is blocked
      ([vTaskDelay], a full queue).
    - ESP-IDF functions that are not part of the repository
      ([esp_crc32_le], the return codes of the driver) are parameters. *)

From Stdlib Require Import ZArith Lia Floats.SpecFloat.
From stdpp Require Import base tactics option list numbers strings.

#[local] Open Scope Z_scope.

(** ** Machine integers and bytes *)

Definition wrap8 (z : Z) : Z := z mod 2 ^ 8.
Definition wrap16 (z : Z) : Z := z mod 2 ^ 16.
Definition wrap32 (z : Z) : Z := z mod 2 ^ 32.
Definition wrap64 (z : Z) : Z := z mod 2 ^ 64.

(** [le_bytes n v]: the [n] low-order bytes of [v], least significant
    first (the target is little-endian). *)
Fixpoint le_bytes (n : nat) (v : Z) : list Z :=
  match n with
  | O => []
  | S n' => Z.land v 255 :: le_bytes n' (Z.shiftr v 8)
  end.

Fixpoint le_value (bs : list Z) : Z :=
  match bs with
  | [] => 0
  | b :: bs' => Z.lor (Z.land b 255) (Z.shiftl (le_value bs') 8)
  end.

(** [slice off n l]: the [n] bytes of [l] that start at offset [off]. *)
Definition slice {A} (off n : nat) (l : list A) : list A := take n (drop off l).

(** ** binary32 floating point *)

Module F32.
Definition prec : Z := 24.
Definition emax : Z := 128.
Definition float : Type := spec_float.

Definition of_Z (z : Z) : float := binary_normalize prec emax z 0 false.
Definition zero : float := S754_zero false.
Definition add : float → float → float := SFadd prec emax.
Definition sub : float → float → float := SFsub prec emax.
Definition mul : float → float → float := SFmul prec emax.
Definition div : float → float → float := SFdiv prec emax.
Definition sqrt : float → float := SFsqrt prec emax.
Definition ltb : float → float → bool := SFltb.
Definition leb : float → float → bool := SFleb.
Definition abs : float → float := SFabs.

(** [(uint32_t) f] for the non-negative values met in the code: truncation
    towards zero. *)
Definition to_Z (f : float) : Z :=
  match f with
  | S754_finite s m e =>
      let v := if (0 <=? e)%Z then Z.pos m * 2 ^ e else Z.pos m / 2 ^ (- e) in
      if s then - v else v
  | _ => 0
  end.

(** [std::accumulate(first, last, 0.0f)] *)
Definition sum (l : list float) : float := foldl add zero l.

(** [std::minmax_element] on a non-empty range with [operator<], as the
    C++ library of the toolchain (libstdc++) computes it: after the
    first two elements the rest is taken two at a time; the smaller of
    a pair is compared with the minimum so far and the larger with the
    maximum so far, a single last element with both.  Of equal elements
    the first is the minimum and the last the maximum.  [minmax mn mx l]
    goes on through [l] from the pair found so far. *)
Fixpoint minmax (mn mx : float) (l : list float) : float * float :=
  match l with
  | [] => (mn, mx)
  | [x] =>
      if ltb x mn then (x, mx)
      else if negb (ltb x mx) then (mn, x) else (mn, mx)
  | x :: y :: rest =>
      if ltb y x
      then minmax (if ltb y mn then y else mn)
                  (if negb (ltb x mx) then x else mx) rest
      else minmax (if ltb x mn then x else mn)
                  (if negb (ltb y mx) then y else mx) rest
  end.

(** The range is [x :: l]. *)
Definition minmax_element (x : float) (l : list float) : float * float :=
  match l with
  | [] => (x, x)
  | y :: rest => if ltb y x then minmax y x rest else minmax x y rest
  end.

(** [*minmax.first] and [*minmax.second]. *)
Definition min_of (x : float) (l : list float) : float :=
  fst (minmax_element x l).
Definition max_of (x : float) (l : list float) : float :=
  snd (minmax_element x l).
End F32.

Abbreviation float := F32.float.

(** ** Error codes ([esp_err_t]) *)

Inductive esp_err_t : Type :=
  | ESP_OK
  | ESP_FAIL
  | ESP_ERR_NO_MEM
  | ESP_ERR_INVALID_STATE
  | ESP_ERR_INVALID_SIZE
  | ESP_ERR_NOT_FOUND
  | ESP_ERR_TIMEOUT
  | ESP_ERR_ESPNOW_EXIST
  | ESP_ERR_OTHER (code : Z).

#[global] Instance esp_err_eq_dec : EqDecision esp_err_t.
Proof. solve_decision. Defined.

Definition is_ok (e : esp_err_t) : bool := bool_decide (e = ESP_OK).

(** ** A small state monad

    Every operation of the code is a state transformer; the C++ [return]
    value is the first component. *)

Definition ST (S A : Type) : Type := S → A * S.

Definition ret {S A} (a : A) : ST S A := λ s, (a, s).
Definition bind {S A B} (m : ST S A) (k : A → ST S B) : ST S B :=
  λ s, k (m s).1 (m s).2.
Definition gets {S A} (f : S → A) : ST S A := λ s, (f s, s).
Definition modify {S} (f : S → S) : ST S unit := λ s, (tt, f s).
Definition when {S} (b : bool) (m : ST S unit) : ST S unit :=
  if b then m else ret tt.

Declare Scope st_scope.
Delimit Scope st_scope with st.
Notation "x <- m ;; k" := (bind m (λ x, k))
  (at level 100, m at next level, right associativity) : st_scope.
Notation "m ;;; k" := (bind m (λ _, k))
  (at level 100, right associativity) : st_scope.
#[local] Open Scope st_scope.

(** [while (cond) acc = body(acc);], cut off after [fuel] turns. *)
Fixpoint while_loop {S A} (fuel : nat) (cond : ST S bool) (body : A → ST S A)
    (acc : A) : ST S A :=
  match fuel with
  | O => ret acc
  | S fuel' =>
      c <- cond ;;
      if c then acc' <- body acc ;; while_loop fuel' cond body acc'
      else ret acc
  end.

(** [for (uint32_t i = 0; i < n; i++) acc = body(i, acc);] *)
Fixpoint for_loop {S A} (n : nat) (i : Z) (body : Z → A → ST S A) (acc : A)
  : ST S A :=
  match n with
  | O => ret acc
  | S n' => acc' <- body i acc ;; for_loop n' (i + 1) body acc'
  end.

(** ** Wire format ([esp_now_manager.hpp]) *)

Record mac_t : Type := Mac { o0 : Z; o1 : Z; o2 : Z; o3 : Z; o4 : Z; o5 : Z }.

#[global] Instance mac_eq_dec : EqDecision mac_t.
Proof. solve_decision. Defined.

Definition mac_bytes (a : mac_t) : list Z := [o0 a; o1 a; o2 a; o3 a; o4 a; o5 a].

Definition ESP_NOW_MAX_PEERS : Z := 20.
Definition ESP_NOW_BROADCAST_ADDR : mac_t := Mac 255 255 255 255 255 255.
Definition ESP_NOW_CHANNEL_5GHZ : Z := 36.
Definition ESP_NOW_MAX_DATA_LEN : Z := 250.

Definition ESP_NOW_MSG_TYPE_DISCOVERY_REQUEST : Z := 0x01.
Definition ESP_NOW_MSG_TYPE_DISCOVERY_RESPONSE : Z := 0x02.
Definition ESP_NOW_MSG_TYPE_PING : Z := 0x10.
Definition ESP_NOW_MSG_TYPE_PONG : Z := 0x11.
Definition ESP_NOW_MSG_TYPE_DATA : Z := 0x20.
Definition ESP_NOW_MSG_TYPE_TEST_START : Z := 0x30.
Definition ESP_NOW_MSG_TYPE_TEST_STOP : Z := 0x31.
Definition ESP_NOW_MSG_TYPE_TEST_DATA : Z := 0x32.

(** [esp_now_message_t], a packed struct: the fields lie in this order with
    no padding, so [crc32] sits between the header and the payload. *)
Record esp_now_message_t : Type := Message {
  msg_type : Z;           (* uint8_t  @ 0  *)
  sequence_number : Z;    (* uint32_t @ 1  *)
  timestamp_us : Z;       (* uint64_t @ 5  *)
  payload_length : Z;     (* uint16_t @ 13 *)
  crc32 : Z;              (* uint32_t @ 15 *)
  payload : list Z        (* uint8_t [ESP_NOW_MAX_DATA_LEN - 16] @ 19 *)
}.

(** [sizeof(((esp_now_message_t* )0)->payload)] *)
Definition PAYLOAD_CAPACITY : Z := ESP_NOW_MAX_DATA_LEN - 16.
(** [sizeof(esp_now_message_t)] *)
Definition MESSAGE_SIZE : Z := 1 + 4 + 8 + 2 + 4 + PAYLOAD_CAPACITY.

(** The object representation of a message: what [(uint8_t* )&msg] reads. *)
Definition frame_bytes (m : esp_now_message_t) : list Z :=
  wrap8 (msg_type m) :: le_bytes 4 (sequence_number m)
    ++ le_bytes 8 (timestamp_us m) ++ le_bytes 2 (payload_length m)
    ++ le_bytes 4 (crc32 m) ++ payload m.

(** [(esp_now_message_t* )data]: the fields read through the cast. *)
Definition frame_of_bytes (data : list Z) : esp_now_message_t :=
  {| msg_type := le_value (slice 0 1 data);
     sequence_number := le_value (slice 1 4 data);
     timestamp_us := le_value (slice 5 8 data);
     payload_length := le_value (slice 13 2 data);
     crc32 := le_value (slice 15 4 data);
     payload := slice 19 (Z.to_nat PAYLOAD_CAPACITY) data |}.

Definition set_crc32 (c : Z) (m : esp_now_message_t) : esp_now_message_t :=
  {| msg_type := msg_type m; sequence_number := sequence_number m;
     timestamp_us := timestamp_us m; payload_length := payload_length m;
     crc32 := c; payload := payload m |}.

(** Functions of ESP-IDF the manager relies on. [esp_crc32_le crc buf] is
    the ROM routine [esp_crc32_le(crc, buf, len)] with [len = length buf]. *)
Class EspIdf : Type := { esp_crc32_le : Z → list Z → Z }.

Record esp_now_peer_info_t : Type := PeerInfo {
  mac_addr : mac_t;
  rssi : Z;
  last_seen_us : Z;
  packets_sent : Z;
  packets_received : Z;
  packets_lost : Z;
  is_active : bool
}.

Record esp_now_statistics_t : Type := Statistics {
  total_packets_sent : Z;
  total_packets_received : Z;
  total_packets_lost : Z;
  discovery_requests_sent : Z;
  discovery_responses_received : Z;
  total_bytes_sent : Z;
  total_bytes_received : Z;
  session_start_time_us : Z
}.

(** [queued_message_t], the element type of both queues. *)
Record queued_message_t : Type := Queued { q_mac_addr : mac_t; q_msg : esp_now_message_t }.

(** Both queues are created with [xQueueCreate(20, ...)]. *)
Definition QUEUE_LENGTH : Z := 20.

(** ** The manager object and its environment *)

Record ESPNowManager : Type := Manager {
  initialized_ : bool;
  discovery_active_ : bool;
  local_mac_ : mac_t;
  sequence_counter_ : Z;
  peers_ : list esp_now_peer_info_t;
  statistics_ : esp_now_statistics_t;
  receive_queue_ : list queued_message_t;   (* oldest first *)
  send_queue_ : list queued_message_t;      (* oldest first *)
  peers_mutex_ : bool;                      (* true: held *)
  receive_task_handle_ : bool;              (* true: not null *)
  send_task_handle_ : bool;
  discovery_task_handle_ : bool;
  receive_callback_ : bool;                 (* true: a callback is set *)
  send_callback_ : bool;
  peer_discovered_callback_ : bool
}.

(** What the manager does to the world outside it: driver calls and the
    callbacks it invokes, oldest first. *)
Inductive io_event : Type :=
  | IoAddPeer (a : mac_t)                              (* esp_now_add_peer *)
  | IoDelPeer (a : mac_t)                              (* esp_now_del_peer *)
  | IoTransmit (dst : mac_t) (frame : list Z)          (* esp_now_send *)
  | IoReceiveCallback (src : mac_t) (msg : esp_now_message_t)
  | IoSendCallback (dst : mac_t) (ok : bool)
  | IoPeerDiscovered (p : esp_now_peer_info_t).

(** What the other tasks and the radio do while the running task is
    blocked. *)
Inductive bg_event : Type :=
  | EvRecv (src : mac_t) (data : list Z)   (* the radio delivers a frame *)
  | EvSendDone (dst : mac_t) (ok : bool)   (* the radio reports a send *)
  | EvReceiveTask                          (* receive_task handles one item *)
  | EvSendTask                             (* send_task handles one item *)
  | EvDiscoveryTask                        (* discovery_task, one round *)
  | EvCleanupTask                          (* peer_cleanup_task, one sweep *)
  | EvTick (us : Z).                       (* time passes *)

Record System : Type := Sys {
  mgr : ESPNowManager;
  esp_timer : Z;                      (* esp_timer_get_time(), microseconds *)
  trace : list io_event;
  agenda : list (list bg_event);      (* one entry per blocking call to come *)
  add_peer_rets : list esp_err_t;     (* results of esp_now_add_peer to come *)
  send_rets : list esp_err_t;         (* results of esp_now_send to come *)
  random_words : list Z;              (* results of esp_random to come *)
  stack_residue : esp_now_message_t   (* indeterminate content of a local frame *)
}.

(** Field updates. *)
Definition upd_last_seen_us (v : Z) (p : esp_now_peer_info_t) :=
  PeerInfo (mac_addr p) (rssi p) v (packets_sent p) (packets_received p)
    (packets_lost p) (is_active p).
Definition upd_packets_sent (v : Z) (p : esp_now_peer_info_t) :=
  PeerInfo (mac_addr p) (rssi p) (last_seen_us p) v (packets_received p)
    (packets_lost p) (is_active p).
Definition upd_packets_received (v : Z) (p : esp_now_peer_info_t) :=
  PeerInfo (mac_addr p) (rssi p) (last_seen_us p) (packets_sent p) v
    (packets_lost p) (is_active p).
Definition upd_packets_lost (v : Z) (p : esp_now_peer_info_t) :=
  PeerInfo (mac_addr p) (rssi p) (last_seen_us p) (packets_sent p)
    (packets_received p) v (is_active p).
Definition upd_is_active (v : bool) (p : esp_now_peer_info_t) :=
  PeerInfo (mac_addr p) (rssi p) (last_seen_us p) (packets_sent p)
    (packets_received p) (packets_lost p) v.

Definition upd_initialized (v : bool) (m : ESPNowManager) :=
  Manager v (discovery_active_ m) (local_mac_ m) (sequence_counter_ m)
    (peers_ m) (statistics_ m) (receive_queue_ m) (send_queue_ m)
    (peers_mutex_ m) (receive_task_handle_ m) (send_task_handle_ m)
    (discovery_task_handle_ m) (receive_callback_ m) (send_callback_ m)
    (peer_discovered_callback_ m).
Definition upd_discovery_active (v : bool) (m : ESPNowManager) :=
  Manager (initialized_ m) v (local_mac_ m) (sequence_counter_ m)
    (peers_ m) (statistics_ m) (receive_queue_ m) (send_queue_ m)
    (peers_mutex_ m) (receive_task_handle_ m) (send_task_handle_ m)
    (discovery_task_handle_ m) (receive_callback_ m) (send_callback_ m)
    (peer_discovered_callback_ m).
Definition upd_local_mac (v : mac_t) (m : ESPNowManager) :=
  Manager (initialized_ m) (discovery_active_ m) v (sequence_counter_ m)
    (peers_ m) (statistics_ m) (receive_queue_ m) (send_queue_ m)
    (peers_mutex_ m) (receive_task_handle_ m) (send_task_handle_ m)
    (discovery_task_handle_ m) (receive_callback_ m) (send_callback_ m)
    (peer_discovered_callback_ m).
Definition upd_sequence_counter (v : Z) (m : ESPNowManager) :=
  Manager (initialized_ m) (discovery_active_ m) (local_mac_ m) v
    (peers_ m) (statistics_ m) (receive_queue_ m) (send_queue_ m)
    (peers_mutex_ m) (receive_task_handle_ m) (send_task_handle_ m)
    (discovery_task_handle_ m) (receive_callback_ m) (send_callback_ m)
    (peer_discovered_callback_ m).
Definition upd_peers (f : list esp_now_peer_info_t → list esp_now_peer_info_t)
    (m : ESPNowManager) :=
  Manager (initialized_ m) (discovery_active_ m) (local_mac_ m)
    (sequence_counter_ m) (f (peers_ m)) (statistics_ m) (receive_queue_ m)
    (send_queue_ m) (peers_mutex_ m) (receive_task_handle_ m)
    (send_task_handle_ m) (discovery_task_handle_ m) (receive_callback_ m)
    (send_callback_ m) (peer_discovered_callback_ m).
Definition upd_statistics (f : esp_now_statistics_t → esp_now_statistics_t)
    (m : ESPNowManager) :=
  Manager (initialized_ m) (discovery_active_ m) (local_mac_ m)
    (sequence_counter_ m) (peers_ m) (f (statistics_ m)) (receive_queue_ m)
    (send_queue_ m) (peers_mutex_ m) (receive_task_handle_ m)
    (send_task_handle_ m) (discovery_task_handle_ m) (receive_callback_ m)
    (send_callback_ m) (peer_discovered_callback_ m).
Definition upd_receive_queue (f : list queued_message_t → list queued_message_t)
    (m : ESPNowManager) :=
  Manager (initialized_ m) (discovery_active_ m) (local_mac_ m)
    (sequence_counter_ m) (peers_ m) (statistics_ m) (f (receive_queue_ m))
    (send_queue_ m) (peers_mutex_ m) (receive_task_handle_ m)
    (send_task_handle_ m) (discovery_task_handle_ m) (receive_callback_ m)
    (send_callback_ m) (peer_discovered_callback_ m).
Definition upd_send_queue (f : list queued_message_t → list queued_message_t)
    (m : ESPNowManager) :=
  Manager (initialized_ m) (discovery_active_ m) (local_mac_ m)
    (sequence_counter_ m) (peers_ m) (statistics_ m) (receive_queue_ m)
    (f (send_queue_ m)) (peers_mutex_ m) (receive_task_handle_ m)
    (send_task_handle_ m) (discovery_task_handle_ m) (receive_callback_ m)
    (send_callback_ m) (peer_discovered_callback_ m).
Definition upd_peers_mutex (v : bool) (m : ESPNowManager) :=
  Manager (initialized_ m) (discovery_active_ m) (local_mac_ m)
    (sequence_counter_ m) (peers_ m) (statistics_ m) (receive_queue_ m)
    (send_queue_ m) v (receive_task_handle_ m) (send_task_handle_ m)
    (discovery_task_handle_ m) (receive_callback_ m) (send_callback_ m)
    (peer_discovered_callback_ m).
Definition upd_task_handles (r s : bool) (m : ESPNowManager) :=
  Manager (initialized_ m) (discovery_active_ m) (local_mac_ m)
    (sequence_counter_ m) (peers_ m) (statistics_ m) (receive_queue_ m)
    (send_queue_ m) (peers_mutex_ m) r s (discovery_task_handle_ m)
    (receive_callback_ m) (send_callback_ m) (peer_discovered_callback_ m).
Definition upd_discovery_task_handle (v : bool) (m : ESPNowManager) :=
  Manager (initialized_ m) (discovery_active_ m) (local_mac_ m)
    (sequence_counter_ m) (peers_ m) (statistics_ m) (receive_queue_ m)
    (send_queue_ m) (peers_mutex_ m) (receive_task_handle_ m)
    (send_task_handle_ m) v (receive_callback_ m) (send_callback_ m)
    (peer_discovered_callback_ m).
Definition upd_callbacks (r s d : bool) (m : ESPNowManager) :=
  Manager (initialized_ m) (discovery_active_ m) (local_mac_ m)
    (sequence_counter_ m) (peers_ m) (statistics_ m) (receive_queue_ m)
    (send_queue_ m) (peers_mutex_ m) (receive_task_handle_ m)
    (send_task_handle_ m) (discovery_task_handle_ m) r s d.

Definition upd_mgr (f : ESPNowManager → ESPNowManager) (s : System) :=
  Sys (f (mgr s)) (esp_timer s) (trace s) (agenda s) (add_peer_rets s)
    (send_rets s) (random_words s) (stack_residue s).
Definition upd_esp_timer (v : Z) (s : System) :=
  Sys (mgr s) v (trace s) (agenda s) (add_peer_rets s) (send_rets s)
    (random_words s) (stack_residue s).
Definition upd_trace (f : list io_event → list io_event) (s : System) :=
  Sys (mgr s) (esp_timer s) (f (trace s)) (agenda s) (add_peer_rets s)
    (send_rets s) (random_words s) (stack_residue s).
Definition upd_agenda (v : list (list bg_event)) (s : System) :=
  Sys (mgr s) (esp_timer s) (trace s) v (add_peer_rets s) (send_rets s)
    (random_words s) (stack_residue s).
Definition upd_add_peer_rets (v : list esp_err_t) (s : System) :=
  Sys (mgr s) (esp_timer s) (trace s) (agenda s) v (send_rets s)
    (random_words s) (stack_residue s).
Definition upd_send_rets (v : list esp_err_t) (s : System) :=
  Sys (mgr s) (esp_timer s) (trace s) (agenda s) (add_peer_rets s) v
    (random_words s) (stack_residue s).
Definition upd_random_words (v : list Z) (s : System) :=
  Sys (mgr s) (esp_timer s) (trace s) (agenda s) (add_peer_rets s)
    (send_rets s) v (stack_residue s).

Definition zero_statistics : esp_now_statistics_t := Statistics 0 0 0 0 0 0 0 0.

(** [ESPNowManager::ESPNowManager()] *)
Definition new_manager : ESPNowManager :=
  {| initialized_ := false; discovery_active_ := false;
     local_mac_ := Mac 0 0 0 0 0 0; sequence_counter_ := 0; peers_ := [];
     statistics_ := zero_statistics; receive_queue_ := []; send_queue_ := [];
     peers_mutex_ := false; receive_task_handle_ := false;
     send_task_handle_ := false; discovery_task_handle_ := false;
     receive_callback_ := false; send_callback_ := false;
     peer_discovered_callback_ := false |}.

(** ** Platform primitives *)

Definition get_timestamp_us : ST System Z := gets esp_timer.

Definition advance (us : Z) : ST System unit :=
  modify (λ s, upd_esp_timer (wrap64 (esp_timer s + us)) s).

Definition emit (e : io_event) : ST System unit :=
  modify (upd_trace (λ t, t ++ [e])).

(** [xSemaphoreTake(peers_mutex_, pdMS_TO_TICKS(ms))]: fails after the
    timeout when another task holds the mutex throughout.  The handle is
    the one [initialize] creates: before [initialize] and after
    [deinitialize] [peers_mutex_] is a null pointer, FreeRTOS asserts on
    it and the call does not return, which this definition does not
    describe.  What is proved about the peer table is meant for a manager
    whose mutex exists. *)
Definition xSemaphoreTake (ms : Z) : ST System bool :=
  held <- gets (peers_mutex_ ∘ mgr) ;;
  if held then advance (ms * 1000) ;;; ret false
  else modify (upd_mgr (upd_peers_mutex true)) ;;; ret true.

Definition xSemaphoreGive : ST System unit :=
  modify (upd_mgr (upd_peers_mutex false)).

(** The next result the driver gives; [ESP_OK] once the list is used up. *)
Definition esp_now_add_peer (a : mac_t) : ST System esp_err_t :=
  emit (IoAddPeer a) ;;;
  rets <- gets add_peer_rets ;;
  modify (upd_add_peer_rets (tail rets)) ;;;
  ret (default ESP_OK (head rets)).

Definition esp_now_del_peer (a : mac_t) : ST System unit := emit (IoDelPeer a).

Definition esp_now_send (a : mac_t) (frame : list Z) : ST System esp_err_t :=
  emit (IoTransmit a frame) ;;;
  rets <- gets send_rets ;;
  modify (upd_send_rets (tail rets)) ;;;
  ret (default ESP_OK (head rets)).

Definition esp_random : ST System Z :=
  ws <- gets random_words ;;
  modify (upd_random_words (tail ws)) ;;;
  ret (wrap32 (default 0 (head ws))).

(** [xQueueSend(receive_queue_, &item, 0)] *)
Definition xQueueSend_receive_queue (item : queued_message_t) : ST System bool :=
  q <- gets (receive_queue_ ∘ mgr) ;;
  if QUEUE_LENGTH <=? Z.of_nat (length q) then ret false
  else modify (upd_mgr (upd_receive_queue (λ q, q ++ [item]))) ;;; ret true.

(** [xQueueSend(send_queue_, &item, pdMS_TO_TICKS(ms))]: when the queue is
    full the caller blocks and [others] run; it fails if the queue is still
    full afterwards. *)
Definition xQueueSend_send_queue (others : ST System unit)
    (item : queued_message_t) (ms : Z) : ST System bool :=
  q <- gets (send_queue_ ∘ mgr) ;;
  if Z.of_nat (length q) <? QUEUE_LENGTH
  then modify (upd_mgr (upd_send_queue (λ q, q ++ [item]))) ;;; ret true
  else
    others ;;;
    q' <- gets (send_queue_ ∘ mgr) ;;
    if Z.of_nat (length q') <? QUEUE_LENGTH
    then modify (upd_mgr (upd_send_queue (λ q, q ++ [item]))) ;;; ret true
    else advance (ms * 1000) ;;; ret false.

(** ** [ESPNowManager]: peer table *)

(** [find_peer]: the position of the first record whose six address bytes
    compare equal ([memcmp(...) == 0]); the C++ pointer is this position. *)
Definition find_peer (peers : list esp_now_peer_info_t) (mac : mac_t) : option nat :=
  fst <$> list_find (λ p, mac_addr p = mac) peers.

Definition add_peer_internal (mac : mac_t) : ST System esp_err_t :=
  taken <- xSemaphoreTake 1000 ;;
  if negb taken then ret ESP_ERR_TIMEOUT
  else
    peers <- gets (peers_ ∘ mgr) ;;
    match find_peer peers mac with
    | Some i =>
        now <- get_timestamp_us ;;
        modify (upd_mgr (upd_peers
          (alter (λ p, upd_is_active true (upd_last_seen_us now p)) i))) ;;;
        xSemaphoreGive ;;;
        ret ESP_OK
    | None =>
        (* peers_.size() >= ESP_NOW_MAX_PEERS only logs a warning *)
        now <- get_timestamp_us ;;
        let new_peer := PeerInfo mac 0 now 0 0 0 true in
        r <- esp_now_add_peer mac ;;
        if negb (is_ok r) && negb (bool_decide (r = ESP_ERR_ESPNOW_EXIST))
        then xSemaphoreGive ;;; ret r
        else
          modify (upd_mgr (upd_peers (λ ps, ps ++ [new_peer]))) ;;;
          xSemaphoreGive ;;;
          ret ESP_OK
    end.

Definition add_peer (mac : mac_t) : ST System esp_err_t := add_peer_internal mac.

Definition remove_peer (mac : mac_t) : ST System esp_err_t :=
  taken <- xSemaphoreTake 1000 ;;
  if negb taken then ret ESP_ERR_TIMEOUT
  else
    peers <- gets (peers_ ∘ mgr) ;;
    match list_find (λ p, mac_addr p = mac) peers with
    | Some (i, _) =>
        esp_now_del_peer mac ;;;
        modify (upd_mgr (upd_peers (delete i))) ;;;
        xSemaphoreGive ;;;
        ret ESP_OK
    | None => xSemaphoreGive ;;; ret ESP_ERR_NOT_FOUND
    end.

Definition is_peer_registered (mac : mac_t) : ST System bool :=
  taken <- xSemaphoreTake 1000 ;;
  if negb taken then ret false
  else
    peers <- gets (peers_ ∘ mgr) ;;
    xSemaphoreGive ;;;
    ret (bool_decide (is_Some (find_peer peers mac))).

Definition get_peers : ST System (list esp_now_peer_info_t) :=
  taken <- xSemaphoreTake 1000 ;;
  if negb taken then ret []
  else
    peers <- gets (peers_ ∘ mgr) ;;
    xSemaphoreGive ;;;
    ret peers.

Definition get_peer_count : ST System Z :=
  taken <- xSemaphoreTake 1000 ;;
  if negb taken then ret 0
  else
    peers <- gets (peers_ ∘ mgr) ;;
    xSemaphoreGive ;;;
    ret (Z.of_nat (length peers)).

Definition update_peer_stats (mac : mac_t) (is_received is_lost : bool)
  : ST System unit :=
  taken <- xSemaphoreTake 100 ;;
  if negb taken then ret tt
  else
    peers <- gets (peers_ ∘ mgr) ;;
    match find_peer peers mac with
    | Some i =>
        now <- get_timestamp_us ;;
        let count p :=
          if is_received
          then upd_packets_received (wrap32 (packets_received p + 1)) p
          else if is_lost
          then upd_packets_lost (wrap32 (packets_lost p + 1)) p
          else upd_packets_sent (wrap32 (packets_sent p + 1)) p in
        modify (upd_mgr (upd_peers
          (alter (λ p, upd_last_seen_us now (count p)) i)))
    | None => ret tt
    end ;;;
    xSemaphoreGive.

(** ** [ESPNowManager]: statistics and callbacks *)

Definition incr_total_packets_sent (st : esp_now_statistics_t) :=
  Statistics (wrap32 (total_packets_sent st + 1)) (total_packets_received st)
    (total_packets_lost st) (discovery_requests_sent st)
    (discovery_responses_received st) (total_bytes_sent st)
    (total_bytes_received st) (session_start_time_us st).
Definition incr_total_packets_received (st : esp_now_statistics_t) :=
  Statistics (total_packets_sent st) (wrap32 (total_packets_received st + 1))
    (total_packets_lost st) (discovery_requests_sent st)
    (discovery_responses_received st) (total_bytes_sent st)
    (total_bytes_received st) (session_start_time_us st).
Definition incr_total_packets_lost (st : esp_now_statistics_t) :=
  Statistics (total_packets_sent st) (total_packets_received st)
    (wrap32 (total_packets_lost st + 1)) (discovery_requests_sent st)
    (discovery_responses_received st) (total_bytes_sent st)
    (total_bytes_received st) (session_start_time_us st).
Definition incr_discovery_requests_sent (st : esp_now_statistics_t) :=
  Statistics (total_packets_sent st) (total_packets_received st)
    (total_packets_lost st) (wrap32 (discovery_requests_sent st + 1))
    (discovery_responses_received st) (total_bytes_sent st)
    (total_bytes_received st) (session_start_time_us st).
Definition incr_discovery_responses_received (st : esp_now_statistics_t) :=
  Statistics (total_packets_sent st) (total_packets_received st)
    (total_packets_lost st) (discovery_requests_sent st)
    (wrap32 (discovery_responses_received st + 1)) (total_bytes_sent st)
    (total_bytes_received st) (session_start_time_us st).
Definition add_total_bytes_sent (n : Z) (st : esp_now_statistics_t) :=
  Statistics (total_packets_sent st) (total_packets_received st)
    (total_packets_lost st) (discovery_requests_sent st)
    (discovery_responses_received st) (wrap64 (total_bytes_sent st + n))
    (total_bytes_received st) (session_start_time_us st).
Definition add_total_bytes_received (n : Z) (st : esp_now_statistics_t) :=
  Statistics (total_packets_sent st) (total_packets_received st)
    (total_packets_lost st) (discovery_requests_sent st)
    (discovery_responses_received st) (total_bytes_sent st)
    (wrap64 (total_bytes_received st + n)) (session_start_time_us st).
Definition upd_session_start_time_us (v : Z) (st : esp_now_statistics_t) :=
  Statistics (total_packets_sent st) (total_packets_received st)
    (total_packets_lost st) (discovery_requests_sent st)
    (discovery_responses_received st) (total_bytes_sent st)
    (total_bytes_received st) v.

Definition get_statistics : ST System esp_now_statistics_t :=
  gets (statistics_ ∘ mgr).

Definition reset_statistics : ST System unit :=
  now <- get_timestamp_us ;;
  modify (upd_mgr (upd_statistics (λ _, upd_session_start_time_us now zero_statistics))).

Definition get_local_mac : ST System mac_t := gets (local_mac_ ∘ mgr).

Definition set_receive_callback : ST System unit :=
  modify (upd_mgr (λ m,
    upd_callbacks true (send_callback_ m) (peer_discovered_callback_ m) m)).
Definition set_send_callback : ST System unit :=
  modify (upd_mgr (λ m,
    upd_callbacks (receive_callback_ m) true (peer_discovered_callback_ m) m)).
Definition set_peer_discovered_callback : ST System unit :=
  modify (upd_mgr (λ m,
    upd_callbacks (receive_callback_ m) (send_callback_ m) true m)).

(** ** [ESPNowManager]: sending, receiving, discovery *)

Section manager.
Context `{EspIdf}.
(** What happens while the calling task is blocked: nothing for an
    operation that runs inside another task's turn, the next agenda entry
    for the running task. *)
Variable others : ST System unit.

Definition vTaskDelay (ms : Z) : ST System unit :=
  advance (ms * 1000) ;;; others.

(** [data] is the buffer [data[0..len)], [len] its length; a null
    pointer comes with [len = 0] and is the empty buffer. *)
Definition send_message (mac : mac_t) (type : Z) (data : list Z)
  : ST System esp_err_t :=
  let len := Z.of_nat (length data) in
  init <- gets (initialized_ ∘ mgr) ;;
  if negb init then ret ESP_ERR_INVALID_STATE
  else if PAYLOAD_CAPACITY <? len then ret ESP_ERR_INVALID_SIZE
  else
    seq <- gets (sequence_counter_ ∘ mgr) ;;
    modify (upd_mgr (upd_sequence_counter (wrap32 (seq + 1)))) ;;;
    now <- get_timestamp_us ;;
    residue <- gets stack_residue ;;
    (* the local frame: fields assigned, [len] payload bytes copied, the
       rest as found; the checksum is taken before [crc32] is assigned *)
    let msg := {| msg_type := type; sequence_number := seq;
                  timestamp_us := now; payload_length := len;
                  crc32 := crc32 residue;
                  payload := data ++ drop (length data) (payload residue) |} in
    let crc := esp_crc32_le 0
                 (take (Z.to_nat (MESSAGE_SIZE - 4)) (frame_bytes msg)) in
    sent <- xQueueSend_send_queue others (Queued mac (set_crc32 crc msg)) 1000 ;;
    if sent then ret ESP_OK else ret ESP_ERR_TIMEOUT.

Definition send_broadcast (type : Z) (data : list Z) : ST System esp_err_t :=
  send_message ESP_NOW_BROADCAST_ADDR type data.

Definition send_ping (mac : mac_t) : ST System esp_err_t :=
  ping_id <- gets (sequence_counter_ ∘ mgr) ;;
  send_message mac ESP_NOW_MSG_TYPE_PING (le_bytes 4 ping_id).

Definition send_discovery_request : ST System esp_err_t :=
  init <- gets (initialized_ ∘ mgr) ;;
  if negb init then ret ESP_ERR_INVALID_STATE
  else
    local <- gets (local_mac_ ∘ mgr) ;;
    modify (upd_mgr (upd_statistics incr_discovery_requests_sent)) ;;;
    send_message ESP_NOW_BROADCAST_ADDR ESP_NOW_MSG_TYPE_DISCOVERY_REQUEST
      (mac_bytes local).

Definition stop_discovery : ST System esp_err_t :=
  active <- gets (discovery_active_ ∘ mgr) ;;
  if negb active then ret ESP_OK
  else
    modify (upd_mgr (upd_discovery_active false)) ;;;
    (* vTaskDelete(discovery_task_handle_) when it is not null *)
    modify (upd_mgr (upd_discovery_task_handle false)) ;;;
    ret ESP_OK.

Definition start_discovery (duration_ms : Z) : ST System esp_err_t :=
  init <- gets (initialized_ ∘ mgr) ;;
  if negb init then ret ESP_ERR_INVALID_STATE
  else
    active <- gets (discovery_active_ ∘ mgr) ;;
    if active then ret ESP_OK
    else
      r <- esp_now_add_peer ESP_NOW_BROADCAST_ADDR ;;
      if negb (is_ok r) && negb (bool_decide (r = ESP_ERR_ESPNOW_EXIST))
      then ret r
      else
        modify (upd_mgr (upd_discovery_active true)) ;;;
        modify (upd_mgr (upd_discovery_task_handle true)) ;;;
        when (0 <? duration_ms)
          (vTaskDelay duration_ms ;;; _ <- stop_discovery ;; ret tt) ;;;
        ret ESP_OK.

(** [esp_now_send_cb(mac_addr, status)], [ok] standing for
    [status == ESP_NOW_SEND_SUCCESS]. *)
Definition esp_now_send_cb (mac : mac_t) (ok : bool) : ST System unit :=
  cb <- gets (send_callback_ ∘ mgr) ;;
  when cb (emit (IoSendCallback mac ok)) ;;;
  if ok
  then modify (upd_mgr (upd_statistics incr_total_packets_sent)) ;;;
       update_peer_stats mac false false
  else modify (upd_mgr (upd_statistics incr_total_packets_lost)) ;;;
       update_peer_stats mac false true.

(** [esp_now_recv_cb(recv_info, data, len)] with [src = recv_info->src_addr]
    and [len = length data]. *)
Definition esp_now_recv_cb (src : mac_t) (data : list Z) : ST System unit :=
  let len := Z.of_nat (length data) in
  if len <? MESSAGE_SIZE then ret tt
  else
    let msg := frame_of_bytes data in
    let calculated_crc := wrap32 (esp_crc32_le 0 (take (Z.to_nat (len - 4)) data)) in
    if negb (calculated_crc =? crc32 msg) then ret tt
    else
      modify (upd_mgr (upd_statistics incr_total_packets_received)) ;;;
      modify (upd_mgr (upd_statistics (add_total_bytes_received len))) ;;;
      update_peer_stats src true false ;;;
      _ <- xQueueSend_receive_queue (Queued src msg) ;;
      ret tt.

(** The discovered-peer notification of [receive_task]: the record is
    looked up again, without the mutex. *)
Definition notify_peer_discovered (mac : mac_t) : ST System unit :=
  cb <- gets (peer_discovered_callback_ ∘ mgr) ;;
  if negb cb then ret tt
  else
    peers <- gets (peers_ ∘ mgr) ;;
    match list_find (λ p, mac_addr p = mac) peers with
    | Some (_, p) => emit (IoPeerDiscovered p)
    | None => ret tt
    end.

(** The body of the loop of [receive_task] for one dequeued item. *)
Definition receive_task_handle (received_msg : queued_message_t) : ST System unit :=
  let mac := q_mac_addr received_msg in
  let msg := q_msg received_msg in
  (if msg_type msg =? ESP_NOW_MSG_TYPE_DISCOVERY_REQUEST then
     _ <- add_peer_internal mac ;;
     local <- gets (local_mac_ ∘ mgr) ;;
     _ <- send_message mac ESP_NOW_MSG_TYPE_DISCOVERY_RESPONSE (mac_bytes local) ;;
     notify_peer_discovered mac
   else if msg_type msg =? ESP_NOW_MSG_TYPE_DISCOVERY_RESPONSE then
     _ <- add_peer_internal mac ;;
     modify (upd_mgr (upd_statistics incr_discovery_responses_received)) ;;;
     notify_peer_discovered mac
   else if msg_type msg =? ESP_NOW_MSG_TYPE_PING then
     _ <- send_message mac ESP_NOW_MSG_TYPE_PONG
            (le_bytes 4 (sequence_number msg)) ;;
     ret tt
   else ret tt) ;;;
  cb <- gets (receive_callback_ ∘ mgr) ;;
  when cb (emit (IoReceiveCallback mac msg)).

(** One turn of [receive_task]: [xQueueReceive] with [portMAX_DELAY]
    leaves the task blocked while the queue is empty. *)
Definition receive_task_step : ST System unit :=
  q <- gets (receive_queue_ ∘ mgr) ;;
  match q with
  | [] => ret tt
  | received_msg :: _ =>
      modify (upd_mgr (upd_receive_queue tail)) ;;;
      receive_task_handle received_msg
  end.

(** One turn of [send_task]. *)
Definition send_task_step : ST System unit :=
  q <- gets (send_queue_ ∘ mgr) ;;
  match q with
  | [] => ret tt
  | send_msg :: _ =>
      modify (upd_mgr (upd_send_queue tail)) ;;;
      result <- esp_now_send (q_mac_addr send_msg) (frame_bytes (q_msg send_msg)) ;;
      if is_ok result
      then modify (upd_mgr (upd_statistics (add_total_bytes_sent MESSAGE_SIZE)))
      else ret tt
  end.

(** One round of [discovery_task]; the task deletes itself once
    [discovery_active_] is cleared. *)
Definition discovery_task_step : ST System unit :=
  active <- gets (discovery_active_ ∘ mgr) ;;
  if active then _ <- send_discovery_request ;; ret tt
  else modify (upd_mgr (upd_discovery_task_handle false)).
End manager.

(** ** [ESPNowManager::initialize] and [deinitialize] *)

(** The results of the ESP-IDF calls made by [initialize]. *)
Record init_results : Type := InitResults {
  r_esp_netif_init : esp_err_t;
  r_esp_event_loop_create_default : esp_err_t;
  r_esp_wifi_init : esp_err_t;
  r_esp_wifi_set_storage : esp_err_t;
  r_esp_wifi_set_mode : esp_err_t;
  r_esp_wifi_start : esp_err_t;
  r_esp_wifi_set_channel : esp_err_t;
  r_esp_now_init : esp_err_t;
  r_esp_now_register_send_cb : esp_err_t;
  r_esp_now_register_recv_cb : esp_err_t;
  r_esp_wifi_get_mac : esp_err_t;
  station_mac : mac_t;
  queues_and_mutex_created : bool
}.

(** [esp_try r k]: [if (r != ESP_OK) return r;] then [k]. *)
Definition esp_try {S} (r : esp_err_t) (k : ST S esp_err_t) : ST S esp_err_t :=
  if is_ok r then k else ret r.

Definition initialize (env : init_results) (channel : Z) : ST System esp_err_t :=
  init <- gets (initialized_ ∘ mgr) ;;
  if init then ret ESP_OK
  else
    esp_try (r_esp_netif_init env) (
    (if negb (is_ok (r_esp_event_loop_create_default env))
        && negb (bool_decide (r_esp_event_loop_create_default env = ESP_ERR_INVALID_STATE))
     then ret (r_esp_event_loop_create_default env)
     else
    esp_try (r_esp_wifi_init env) (
    esp_try (r_esp_wifi_set_storage env) (
    esp_try (r_esp_wifi_set_mode env) (
    esp_try (r_esp_wifi_start env) (
    esp_try (r_esp_wifi_set_channel env) (
    esp_try (r_esp_now_init env) (
    esp_try (r_esp_now_register_send_cb env) (
    esp_try (r_esp_now_register_recv_cb env) (
    esp_try (r_esp_wifi_get_mac env) (
      modify (upd_mgr (upd_local_mac (station_mac env))) ;;;
      modify (upd_mgr (upd_receive_queue (λ _, []))) ;;;
      modify (upd_mgr (upd_send_queue (λ _, []))) ;;;
      modify (upd_mgr (upd_peers_mutex false)) ;;;
      if negb (queues_and_mutex_created env) then ret ESP_ERR_NO_MEM
      else
        modify (upd_mgr (upd_task_handles true true)) ;;;
        now <- get_timestamp_us ;;
        modify (upd_mgr (upd_statistics (upd_session_start_time_us now))) ;;;
        modify (upd_mgr (upd_initialized true)) ;;;
        ret ESP_OK))))))))))).

Definition deinitialize : ST System esp_err_t :=
  init <- gets (initialized_ ∘ mgr) ;;
  if negb init then ret ESP_OK
  else
    _ <- stop_discovery ;;
    modify (upd_mgr (upd_task_handles false false)) ;;;
    modify (upd_mgr (upd_receive_queue (λ _, []))) ;;;
    modify (upd_mgr (upd_send_queue (λ _, []))) ;;;
    modify (upd_mgr (upd_peers_mutex false)) ;;;
    modify (upd_mgr (upd_peers (λ _, []))) ;;;
    modify (upd_mgr (upd_initialized false)) ;;;
    ret ESP_OK.

(** ** The peer clean-up task of the application *)

Fixpoint for_each {S A} (l : list A) (body : A → ST S unit) : ST S unit :=
  match l with
  | [] => ret tt
  | x :: l' => body x ;;; for_each l' body
  end.

Definition CLEANUP_INTERVAL_MS : Z := 30000.
Definition PEER_TIMEOUT_US : Z := 60000000.

(** [(current_time_us - peer.last_seen_us) > PEER_TIMEOUT_US], in
    [uint64_t] arithmetic. *)
Definition stale (current_time_us : Z) (peer : esp_now_peer_info_t) : bool :=
  PEER_TIMEOUT_US <? wrap64 (current_time_us - last_seen_us peer).

(** One turn of the loop of [peer_cleanup_task], after its delay: the sweep
    works on the copy returned by [get_peers]. *)
Definition peer_cleanup_sweep : ST System unit :=
  peers <- get_peers ;;
  current_time_us <- gets esp_timer ;;
  for_each peers (λ peer,
    if stale current_time_us peer
    then _ <- remove_peer (mac_addr peer) ;; ret tt
    else ret tt).

(** ** The other tasks *)

Section scheduling.
Context `{EspIdf}.

(** Inside another task's turn nobody else runs: a wait only times out. *)
Definition nobody : ST System unit := ret tt.

Definition run_event (e : bg_event) : ST System unit :=
  match e with
  | EvRecv src data =>
      init <- gets (initialized_ ∘ mgr) ;;
      when init (esp_now_recv_cb src data)
  | EvSendDone dst ok =>
      init <- gets (initialized_ ∘ mgr) ;;
      when init (esp_now_send_cb dst ok)
  | EvReceiveTask =>
      h <- gets (receive_task_handle_ ∘ mgr) ;;
      when h (receive_task_step nobody)
  | EvSendTask =>
      h <- gets (send_task_handle_ ∘ mgr) ;;
      when h send_task_step
  | EvDiscoveryTask =>
      h <- gets (discovery_task_handle_ ∘ mgr) ;;
      when h (discovery_task_step nobody)
  | EvCleanupTask =>
      init <- gets (initialized_ ∘ mgr) ;;
      when init peer_cleanup_sweep
  | EvTick us => advance us
  end.

Definition run_events (es : list bg_event) : ST System unit :=
  for_each es run_event.

(** The running task blocks: the next agenda entry happens. *)
Definition yield : ST System unit :=
  a <- gets agenda ;;
  match a with
  | [] => ret tt
  | es :: rest => modify (upd_agenda rest) ;;; run_events es
  end.
End scheduling.

(** ** [TestFramework] ([test_framework.cpp]) *)

Inductive test_role_t : Type :=
  TEST_ROLE_COORDINATOR | TEST_ROLE_PEER | TEST_ROLE_OBSERVER.

Inductive test_status_t : Type :=
  TEST_STATUS_PENDING | TEST_STATUS_RUNNING | TEST_STATUS_COMPLETED | TEST_STATUS_FAILED.

#[global] Instance test_role_eq_dec : EqDecision test_role_t.
Proof. solve_decision. Defined.
#[global] Instance test_status_eq_dec : EqDecision test_status_t.
Proof. solve_decision. Defined.

Record test_result_t : Type := TestResult {
  test_name : string;
  status : test_status_t;
  start_time_us : Z;
  end_time_us : Z;
  iterations_completed : Z;
  iterations_total : Z;
  error_message : string;
  latency_measurements : list float;
  throughput_measurements : list Z;
  packet_loss_rates : list float;
  rssi_measurements : list Z;
  avg_latency_ms : float;
  min_latency_ms : float;
  max_latency_ms : float;
  stddev_latency_ms : float;
  avg_throughput_bps : Z;
  avg_packet_loss_percent : float;
  avg_rssi_dbm : Z;
  discovery_time_ms : Z;
  devices_discovered : Z;
  max_range_meters : Z;
  reliability_passed : bool
}.

(** [test_result_t result = {};] followed by the four assignments every
    scenario starts with. *)
Definition started (name : string) (now total : Z) : test_result_t :=
  {| test_name := name; status := TEST_STATUS_RUNNING; start_time_us := now;
     end_time_us := 0; iterations_completed := 0; iterations_total := total;
     error_message := ""; latency_measurements := [];
     throughput_measurements := []; packet_loss_rates := [];
     rssi_measurements := []; avg_latency_ms := F32.zero;
     min_latency_ms := F32.zero; max_latency_ms := F32.zero;
     stddev_latency_ms := F32.zero; avg_throughput_bps := 0;
     avg_packet_loss_percent := F32.zero; avg_rssi_dbm := 0;
     discovery_time_ms := 0; devices_discovered := 0; max_range_meters := 0;
     reliability_passed := false |}.

Module TestFramework.

(** The callbacks the framework invokes, oldest first. *)
Inductive callback_event : Type :=
  | TestCompleted (result : test_result_t)
  | TestProgress (name : string) (current total : Z).

Record t : Type := Framework {
  sys : System;                          (* esp_now_manager_ and its world *)
  initialized_ : bool;
  role_ : test_role_t;
  test_results_ : list test_result_t;
  results_mutex_ : bool;                 (* true: held *)
  coordination_task_handle_ : bool;
  test_completed_callback_ : bool;       (* true: a callback is set *)
  test_progress_callback_ : bool;
  callbacks : list callback_event
}.

Definition upd_sys (v : System) (f : t) :=
  Framework v (initialized_ f) (role_ f) (test_results_ f) (results_mutex_ f)
    (coordination_task_handle_ f) (test_completed_callback_ f)
    (test_progress_callback_ f) (callbacks f).
Definition upd_test_results (g : list test_result_t → list test_result_t) (f : t) :=
  Framework (sys f) (initialized_ f) (role_ f) (g (test_results_ f))
    (results_mutex_ f) (coordination_task_handle_ f)
    (test_completed_callback_ f) (test_progress_callback_ f) (callbacks f).
Definition upd_callbacks (g : list callback_event → list callback_event) (f : t) :=
  Framework (sys f) (initialized_ f) (role_ f) (test_results_ f)
    (results_mutex_ f) (coordination_task_handle_ f)
    (test_completed_callback_ f) (test_progress_callback_ f) (g (callbacks f)).

(** An operation of the manager, run on the framework's manager. *)
Definition lift {A} (m : ST System A) : ST t A :=
  λ f, ((m (sys f)).1, upd_sys (m (sys f)).2 f).

Section framework.
Context `{EspIdf}.

Definition get_timestamp_us : ST t Z := lift get_timestamp_us.
Definition delay (ms : Z) : ST t unit := lift (vTaskDelay yield ms).

(** [if (xSemaphoreTake(results_mutex_, 1000 ms) == pdTRUE)
      { test_results_.push_back(result); xSemaphoreGive(results_mutex_); }] *)
Definition store_result (result : test_result_t) : ST t unit :=
  held <- gets results_mutex_ ;;
  if held then lift (advance (1000 * 1000))
  else modify (upd_test_results (λ rs, rs ++ [result])).

Definition notify_completed (result : test_result_t) : ST t unit :=
  cb <- gets test_completed_callback_ ;;
  when cb (modify (upd_callbacks (λ l, l ++ [TestCompleted result]))).

Definition notify_progress (name : string) (current total : Z) : ST t unit :=
  cb <- gets test_progress_callback_ ;;
  when cb (modify (upd_callbacks (λ l, l ++ [TestProgress name current total]))).

(** *** Statistics helpers *)

Definition calculate_packet_loss_rate (sent received : Z) : float :=
  if sent =? 0 then F32.zero
  else F32.mul (F32.div (F32.of_Z (wrap32 (sent - received))) (F32.of_Z sent))
               (F32.of_Z 100).

(** [(packet_loss_rate < 1.0f)]: "Pass if < 1% loss". *)
Definition reliability_passes (packet_loss_rate : float) : bool :=
  F32.ltb packet_loss_rate (F32.of_Z 1).

Definition calculate_average (values : list float) : float :=
  match values with
  | [] => F32.zero
  | _ => F32.div (foldl F32.add F32.zero values)
                 (F32.of_Z (Z.of_nat (length values)))
  end.

Definition calculate_standard_deviation (values : list float) (mean : float)
  : float :=
  if (length values <? 2)%nat then F32.zero
  else
    let sum_squared_diff :=
      foldl (λ acc value,
               let diff := F32.sub value mean in
               F32.add acc (F32.mul diff diff)) F32.zero values in
    F32.sqrt (F32.div sum_squared_diff
                      (F32.of_Z (Z.of_nat (length values) - 1))).

Definition calculate_statistics (r : test_result_t) : test_result_t :=
  match latency_measurements r with
  | [] => r
  | x :: xs =>
      let avg := calculate_average (latency_measurements r) in
      TestResult (test_name r) (status r) (start_time_us r) (end_time_us r)
        (iterations_completed r) (iterations_total r) (error_message r)
        (latency_measurements r) (throughput_measurements r)
        (packet_loss_rates r) (rssi_measurements r)
        avg (F32.min_of x xs) (F32.max_of x xs)
        (calculate_standard_deviation (latency_measurements r) avg)
        (avg_throughput_bps r) (avg_packet_loss_percent r) (avg_rssi_dbm r)
        (discovery_time_ms r) (devices_discovered r) (max_range_meters r)
        (reliability_passed r)
  end.

(** *** Field updates of a result under construction *)

Definition finish (st : test_status_t) (now : Z) (r : test_result_t) :=
  TestResult (test_name r) st (start_time_us r) now
    (iterations_completed r) (iterations_total r) (error_message r)
    (latency_measurements r) (throughput_measurements r)
    (packet_loss_rates r) (rssi_measurements r) (avg_latency_ms r)
    (min_latency_ms r) (max_latency_ms r) (stddev_latency_ms r)
    (avg_throughput_bps r) (avg_packet_loss_percent r) (avg_rssi_dbm r)
    (discovery_time_ms r) (devices_discovered r) (max_range_meters r)
    (reliability_passed r).
Definition with_error (msg : string) (r : test_result_t) :=
  TestResult (test_name r) (status r) (start_time_us r) (end_time_us r)
    (iterations_completed r) (iterations_total r) msg
    (latency_measurements r) (throughput_measurements r)
    (packet_loss_rates r) (rssi_measurements r) (avg_latency_ms r)
    (min_latency_ms r) (max_latency_ms r) (stddev_latency_ms r)
    (avg_throughput_bps r) (avg_packet_loss_percent r) (avg_rssi_dbm r)
    (discovery_time_ms r) (devices_discovered r) (max_range_meters r)
    (reliability_passed r).
Definition with_iterations_completed (n : Z) (r : test_result_t) :=
  TestResult (test_name r) (status r) (start_time_us r) (end_time_us r)
    n (iterations_total r) (error_message r)
    (latency_measurements r) (throughput_measurements r)
    (packet_loss_rates r) (rssi_measurements r) (avg_latency_ms r)
    (min_latency_ms r) (max_latency_ms r) (stddev_latency_ms r)
    (avg_throughput_bps r) (avg_packet_loss_percent r) (avg_rssi_dbm r)
    (discovery_time_ms r) (devices_discovered r) (max_range_meters r)
    (reliability_passed r).
Definition push_latency (x : float) (r : test_result_t) :=
  TestResult (test_name r) (status r) (start_time_us r) (end_time_us r)
    (iterations_completed r) (iterations_total r) (error_message r)
    (latency_measurements r ++ [x]) (throughput_measurements r)
    (packet_loss_rates r) (rssi_measurements r) (avg_latency_ms r)
    (min_latency_ms r) (max_latency_ms r) (stddev_latency_ms r)
    (avg_throughput_bps r) (avg_packet_loss_percent r) (avg_rssi_dbm r)
    (discovery_time_ms r) (devices_discovered r) (max_range_meters r)
    (reliability_passed r).
Definition with_throughput (bps : Z) (r : test_result_t) :=
  TestResult (test_name r) (status r) (start_time_us r) (end_time_us r)
    (iterations_completed r) (iterations_total r) (error_message r)
    (latency_measurements r) (throughput_measurements r ++ [bps])
    (packet_loss_rates r) (rssi_measurements r) (avg_latency_ms r)
    (min_latency_ms r) (max_latency_ms r) (stddev_latency_ms r)
    bps (avg_packet_loss_percent r) (avg_rssi_dbm r)
    (discovery_time_ms r) (devices_discovered r) (max_range_meters r)
    (reliability_passed r).
Definition with_reliability (rate : float) (passed : bool) (r : test_result_t) :=
  TestResult (test_name r) (status r) (start_time_us r) (end_time_us r)
    (iterations_completed r) (iterations_total r) (error_message r)
    (latency_measurements r) (throughput_measurements r)
    (packet_loss_rates r ++ [rate]) (rssi_measurements r) (avg_latency_ms r)
    (min_latency_ms r) (max_latency_ms r) (stddev_latency_ms r)
    (avg_throughput_bps r) rate (avg_rssi_dbm r)
    (discovery_time_ms r) (devices_discovered r) (max_range_meters r)
    passed.
Definition with_discovery (devices time_ms : Z) (r : test_result_t) :=
  TestResult (test_name r) (status r) (start_time_us r) (end_time_us r)
    (iterations_completed r) (iterations_total r) (error_message r)
    (latency_measurements r) (throughput_measurements r)
    (packet_loss_rates r) (rssi_measurements r) (avg_latency_ms r)
    (min_latency_ms r) (max_latency_ms r) (stddev_latency_ms r)
    (avg_throughput_bps r) (avg_packet_loss_percent r) (avg_rssi_dbm r)
    time_ms devices (max_range_meters r) (reliability_passed r).
Definition with_max_range (meters : Z) (r : test_result_t) :=
  TestResult (test_name r) (status r) (start_time_us r) (end_time_us r)
    (iterations_completed r) (iterations_total r) (error_message r)
    (latency_measurements r) (throughput_measurements r)
    (packet_loss_rates r) (rssi_measurements r) (avg_latency_ms r)
    (min_latency_ms r) (max_latency_ms r) (stddev_latency_ms r)
    (avg_throughput_bps r) (avg_packet_loss_percent r) (avg_rssi_dbm r)
    (discovery_time_ms r) (devices_discovered r) meters
    (reliability_passed r).

(** *** Scenarios *)

Definition run_discovery_test (name : string) (timeout_ms : Z)
  : ST t esp_err_t :=
  now <- get_timestamp_us ;;
  let result := with_iterations_completed 0 (started name now 1) in
  initial_peers <- lift get_peer_count ;;
  r <- lift (start_discovery yield timeout_ms) ;;
  if negb (is_ok r) then
    end_time <- get_timestamp_us ;;
    store_result
      (finish TEST_STATUS_FAILED end_time
         (with_error "Failed to start discovery" result)) ;;;
    ret r
  else
    delay timeout_ms ;;;
    final_peers <- lift get_peer_count ;;
    t1 <- get_timestamp_us ;;
    end_time <- get_timestamp_us ;;
    let result :=
      with_iterations_completed 1
        (finish TEST_STATUS_COMPLETED end_time
           (with_discovery (wrap32 (final_peers - initial_peers))
              (wrap32 (wrap64 (t1 - start_time_us result) / 1000)) result)) in
    store_result result ;;;
    notify_completed result ;;;
    ret ESP_OK.

(** One turn of the ping loop; [acc] is [(result, successful_pings)]. *)
Definition latency_iteration (name : string) (target_mac : mac_t)
    (ping_count i : Z) (acc : test_result_t * Z) : ST t (test_result_t * Z) :=
  ping_start <- get_timestamp_us ;;
  r <- lift (send_ping yield target_mac) ;;
  if negb (is_ok r) then ret acc      (* continue *)
  else
    delay 100 ;;;
    now <- get_timestamp_us ;;
    let response_time_us := wrap64 (now - ping_start) in
    let latency_ms := F32.div (F32.of_Z response_time_us) (F32.of_Z 1000) in
    notify_progress name (wrap32 (i + 1)) ping_count ;;;
    delay 10 ;;;
    ret (with_iterations_completed (wrap32 (i + 1))
           (push_latency latency_ms acc.1),
         wrap32 (acc.2 + 1)).

Definition run_latency_test (name : string) (target_mac : mac_t)
    (ping_count : Z) : ST t esp_err_t :=
  now <- get_timestamp_us ;;
  acc <- for_loop (Z.to_nat ping_count) 0
           (latency_iteration name target_mac ping_count)
           (started name now ping_count, 0) ;;
  end_time <- get_timestamp_us ;;
  let successful_pings := acc.2 in
  let result :=
    finish (if 0 <? successful_pings then TEST_STATUS_COMPLETED
            else TEST_STATUS_FAILED) end_time acc.1 in
  let result :=
    if successful_pings =? 0
    then with_error "No successful ping responses" result
    else calculate_statistics result in
  store_result result ;;;
  notify_completed result ;;;
  ret ESP_OK.

(** One turn of the send loop; [acc] is [(packets_sent, total_bytes_sent)]. *)
Definition throughput_iteration (target_mac : mac_t) (payload : list Z)
    (acc : Z * Z) : ST t (Z * Z) :=
  r <- lift (send_message yield target_mac ESP_NOW_MSG_TYPE_TEST_DATA payload) ;;
  delay 1 ;;;
  if is_ok r
  then ret (wrap32 (acc.1 + 1), wrap32 (acc.2 + Z.of_nat (length payload)))
  else ret acc.

(** The send loop ends when the clock reaches [test_end_time]; every turn
    takes at least one millisecond, which bounds the number of turns. *)
Definition run_throughput_test (name : string) (target_mac : mac_t)
    (duration_ms payload_size : Z) : ST t esp_err_t :=
  now <- get_timestamp_us ;;
  let result := started name now 0 in
  let payload := replicate (Z.to_nat payload_size) 0xAA in
  let test_end_time := wrap64 (now + wrap32 (duration_ms * 1000)) in
  acc <- while_loop (Z.to_nat (wrap32 (duration_ms * 1000) / 1000 + 1))
           (t <- get_timestamp_us ;; ret (t <? test_end_time))
           (throughput_iteration target_mac payload) (0, 0) ;;
  end_time <- get_timestamp_us ;;
  let packets_sent := acc.1 in
  let total_bytes_sent := acc.2 in
  let result :=
    with_iterations_completed packets_sent
      (finish (if 0 <? packets_sent then TEST_STATUS_COMPLETED
               else TEST_STATUS_FAILED) end_time result) in
  let result :=
    if 0 <? packets_sent then
      let actual_duration_ms := wrap32 (wrap64 (end_time - now) / 1000) in
      with_throughput
        (wrap32 (total_bytes_sent * 8 * 1000) / actual_duration_ms) result
    else with_error "No packets sent successfully" result in
  store_result result ;;;
  notify_completed result ;;;
  ret ESP_OK.

(** One turn of the packet loop; [acc] is [(result, packets_sent)]. The
    payload is the four bytes of the loop counter. *)
Definition reliability_iteration (name : string) (target_mac : mac_t)
    (packet_count interval_ms i : Z) (acc : test_result_t * Z)
  : ST t (test_result_t * Z) :=
  r <- lift (send_message yield target_mac ESP_NOW_MSG_TYPE_TEST_DATA
               (le_bytes 4 i)) ;;
  notify_progress name (wrap32 (i + 1)) packet_count ;;;
  delay interval_ms ;;;
  ret (with_iterations_completed (wrap32 (i + 1)) acc.1,
       if is_ok r then wrap32 (acc.2 + 1) else acc.2).

Definition run_reliability_test (name : string) (target_mac : mac_t)
    (packet_count interval_ms : Z) : ST t esp_err_t :=
  now <- get_timestamp_us ;;
  acc <- for_loop (Z.to_nat packet_count) 0
           (reliability_iteration name target_mac packet_count interval_ms)
           (started name now packet_count, 0) ;;
  end_time <- get_timestamp_us ;;
  let packets_sent := acc.2 in
  let result :=
    finish (if 0 <? packets_sent then TEST_STATUS_COMPLETED
            else TEST_STATUS_FAILED) end_time acc.1 in
  (* "For now, assume all sent packets were received" *)
  let packets_acknowledged := packets_sent in
  let packet_loss_rate :=
    calculate_packet_loss_rate packets_sent packets_acknowledged in
  let result :=
    with_reliability packet_loss_rate (reliability_passes packet_loss_rate)
      result in
  store_result result ;;;
  notify_completed result ;;;
  ret ESP_OK.

(** One probe of a range step; [acc] is [successful_packets]. *)
Definition range_probe (target_mac : mac_t) (i : Z) (acc : Z) : ST t Z :=
  r <- lift (send_ping yield target_mac) ;;
  delay 100 ;;;
  ret (if is_ok r then wrap32 (acc + 1) else acc).

(** One step of the range test; [acc] is [max_successful_range]. *)
Definition range_step (target_mac : mac_t) (step_duration_ms step : Z)
    (acc : Z) : ST t Z :=
  let total_packets := 10 in
  successful_packets <- for_loop (Z.to_nat total_packets) 0
                          (range_probe target_mac) 0 ;;
  let success_rate :=
    F32.mul (F32.div (F32.of_Z successful_packets) (F32.of_Z total_packets))
            (F32.of_Z 100) in
  delay step_duration_ms ;;;
  ret (if F32.leb (F32.of_Z 90) success_rate then wrap32 (step + 1) else acc).

Definition run_range_test (name : string) (target_mac : mac_t)
    (step_duration_ms : Z) : ST t esp_err_t :=
  now <- get_timestamp_us ;;
  let test_steps := 10 in
  max_successful_range <- for_loop (Z.to_nat test_steps) 0
                            (range_step target_mac step_duration_ms) 0 ;;
  end_time <- get_timestamp_us ;;
  let result :=
    with_iterations_completed test_steps
      (finish TEST_STATUS_COMPLETED end_time
         (with_max_range (wrap32 (max_successful_range * 5))
            (started name now 0))) in
  store_result result ;;;
  notify_completed result ;;;
  ret ESP_OK.

(** *** Sessions and suites *)

Definition start_test_session : ST t esp_err_t :=
  role <- gets role_ ;;
  (if bool_decide (role = TEST_ROLE_COORDINATOR)
   then _ <- lift (send_broadcast yield ESP_NOW_MSG_TYPE_TEST_START []) ;; ret tt
   else ret tt) ;;;
  ret ESP_OK.

Definition stop_test_session : ST t esp_err_t :=
  role <- gets role_ ;;
  (if bool_decide (role = TEST_ROLE_COORDINATOR)
   then _ <- lift (send_broadcast yield ESP_NOW_MSG_TYPE_TEST_STOP []) ;; ret tt
   else ret tt) ;;;
  ret ESP_OK.

(** [ret = m; if (ret != ESP_OK) return ret;] then [k]. *)
Definition and_then (m k : ST t esp_err_t) : ST t esp_err_t :=
  r <- m ;; if is_ok r then k else ret r.

Definition run_all_discovery_tests : ST t esp_err_t :=
  and_then (run_discovery_test "Basic Discovery" 5000) (
  and_then (run_discovery_test "Extended Discovery" 10000) (
  and_then (run_discovery_test "Fast Discovery" 2000) (
  ret ESP_OK))).

Definition run_all_performance_tests : ST t esp_err_t :=
  peers <- lift get_peers ;;
  match peers with
  | [] => ret ESP_ERR_NOT_FOUND
  | first :: _ =>
      let target_mac := mac_addr first in
      and_then (run_latency_test "Latency Test - 100 pings" target_mac 100) (
      and_then (run_throughput_test "Throughput Test - Small Payload"
                  target_mac 30000 64) (
      and_then (run_throughput_test "Throughput Test - Large Payload"
                  target_mac 30000 200) (
      and_then (run_reliability_test "Reliability Test" target_mac 1000 10) (
      and_then (run_range_test "Range Test" target_mac 5000) (
      ret ESP_OK)))))
  end.

Definition get_test_results : ST t (list test_result_t) :=
  held <- gets results_mutex_ ;;
  if held then lift (advance (1000 * 1000)) ;;; ret []
  else gets test_results_.

Definition clear_test_results : ST t unit :=
  held <- gets results_mutex_ ;;
  if held then lift (advance (1000 * 1000))
  else modify (upd_test_results (λ _, [])).

(** [print_test_summary] only reads the results and logs. *)
Definition print_test_summary : ST t esp_err_t :=
  _ <- get_test_results ;; ret ESP_OK.

Definition run_full_test_suite : ST t esp_err_t :=
  and_then start_test_session (
  and_then run_all_discovery_tests (
  and_then run_all_performance_tests (
  and_then stop_test_session (
  print_test_summary)))).
End framework.
End TestFramework.

(** ** [PerformanceTests] ([performance_tests.cpp]) *)

(** [(int8_t) z]: the low eight bits, read as a signed value. *)
Definition to_int8 (z : Z) : Z := (z + 128) mod 256 - 128.

Module PerformanceTests.

Record throughput_test_result_t : Type := ThroughputResult {
  packet_size : Z;
  packets_sent : Z;
  packets_received : Z;
  duration_ms : Z;
  throughput_bps : float;
  tp_packet_loss_percent : float;
  tp_avg_latency_ms : float;
  tp_avg_rssi_dbm : Z
}.

Record latency_test_result_t : Type := LatencyResult {
  ping_count : Z;
  latency_measurements : list float;
  min_latency_ms : float;
  max_latency_ms : float;
  avg_latency_ms : float;
  stddev_latency_ms : float;
  jitter_ms : float;
  packets_lost : Z;
  packet_loss_percent : float
}.

Record range_test_result_t : Type := RangeResult {
  test_distance_meters : Z;
  rssi_measurements : list Z;
  min_rssi_dbm : Z;
  max_rssi_dbm : Z;
  avg_rssi_dbm : Z;
  rg_packets_sent : Z;
  rg_packets_received : Z;
  rg_packet_loss_percent : float;
  connection_stable : bool
}.

Record discovery_test_result_t : Type := DiscoveryResult {
  devices_found : Z;
  discovery_time_ms : Z;
  individual_discovery_times : list Z;
  avg_discovery_time_ms : float;
  min_discovery_time_ms : float;
  max_discovery_time_ms : float;
  all_devices_discovered : bool
}.

Record t : Type := Perf {
  sys : System;                      (* esp_now_manager_ and its world *)
  test_active_ : bool;
  current_test_sequence_ : Z;
  ping_timestamps_ : list Z;
  ping_sequence_numbers_ : list Z
}.

Definition upd_sys (v : System) (p : t) :=
  Perf v (test_active_ p) (current_test_sequence_ p) (ping_timestamps_ p)
    (ping_sequence_numbers_ p).
Definition upd_test_active (v : bool) (p : t) :=
  Perf (sys p) v (current_test_sequence_ p) (ping_timestamps_ p)
    (ping_sequence_numbers_ p).
Definition upd_ping_tracking (ts ns : list Z) (p : t) :=
  Perf (sys p) (test_active_ p) (current_test_sequence_ p) ts ns.

Definition lift {A} (m : ST System A) : ST t A :=
  λ p, ((m (sys p)).1, upd_sys (m (sys p)).2 p).

(** [for (uint32_t i = 0; i < n && test_active_; i++) acc = body(i, acc);] *)
Fixpoint for_while_active {A} (n : nat) (i : Z) (body : Z → A → ST t A)
    (acc : A) : ST t A :=
  match n with
  | O => ret acc
  | S n' =>
      active <- gets test_active_ ;;
      if active then acc' <- body i acc ;; for_while_active n' (i + 1) body acc'
      else ret acc
  end.

Section performance_tests.
Context `{EspIdf}.

Definition now : ST t Z := lift (gets esp_timer).
Definition delay (ms : Z) : ST t unit := lift (vTaskDelay yield ms).

Definition abort_current_test : ST t unit := modify (upd_test_active false).
Definition is_test_active : ST t bool := gets test_active_.

(** [setup_ping_response_handler] is an empty placeholder. *)
Definition setup_ping_response_handler : ST t unit := ret tt.

Definition calculate_jitter (latencies : list float) : float :=
  if (length latencies <? 2)%nat then F32.zero
  else
    let differences :=
      zip_with (λ prev cur, F32.abs (F32.sub cur prev))
               latencies (drop 1 latencies) in
    F32.div (F32.sum differences) (F32.of_Z (Z.of_nat (length differences))).

(** [-30 - (esp_random() % 60)], returned as [int8_t]. *)
Definition simulate_rssi_measurement : ST t Z :=
  r <- lift esp_random ;;
  ret (to_int8 (wrap32 (-30 - r mod 60))).

(** *** Discovery *)

Definition zero_discovery_result : discovery_test_result_t :=
  DiscoveryResult 0 0 [] F32.zero F32.zero F32.zero false.

Definition test_basic_discovery (timeout_ms : Z)
  : ST t (esp_err_t * discovery_test_result_t) :=
  modify (upd_test_active true) ;;;
  start_time <- now ;;
  existing_peers <- lift get_peers ;;
  lift (for_each existing_peers
          (λ peer, _ <- remove_peer (mac_addr peer) ;; ret tt)) ;;;
  r <- lift (start_discovery yield timeout_ms) ;;
  if negb (is_ok r) then
    modify (upd_test_active false) ;;;
    ret (r, zero_discovery_result)
  else
    delay timeout_ms ;;;
    end_time <- now ;;
    discovered_peers <- lift get_peers ;;
    let found := wrap32 (Z.of_nat (length discovered_peers)) in
    let time_ms := wrap32 (wrap64 (end_time - start_time) / 1000) in
    let result :=
      if 0 <? found then
        let avg_time := F32.div (F32.of_Z time_ms) (F32.of_Z found) in
        DiscoveryResult found time_ms
          (map (λ i, wrap32 (F32.to_Z (F32.add avg_time (F32.of_Z (wrap32 (i * 100))))))
               (seqZ 0 found))
          avg_time
          (F32.mul avg_time (F32.div (F32.of_Z 8) (F32.of_Z 10)))
          (F32.mul avg_time (F32.div (F32.of_Z 12) (F32.of_Z 10)))
          true
      else DiscoveryResult found time_ms [] F32.zero F32.zero F32.zero false in
    modify (upd_test_active false) ;;;
    ret (ESP_OK, result).

(** *** Latency *)

(** One turn of the ping loop; [acc] is [(latency_measurements,
    packets_lost)]. *)
Definition ping_pong_iteration (target_mac : mac_t) (count i : Z)
    (acc : list float * Z) : ST t (list float * Z) :=
  ping_start_time <- now ;;
  modify (λ p, upd_ping_tracking (ping_timestamps_ p ++ [ping_start_time])
                 (ping_sequence_numbers_ p ++ [i]) p) ;;;
  r <- lift (send_ping yield target_mac) ;;
  if negb (is_ok r) then ret (acc.1, wrap32 (acc.2 + 1))      (* continue *)
  else
    delay 10 ;;;
    response_time <- now ;;
    let latency_ms :=
      F32.div (F32.of_Z (wrap64 (response_time - ping_start_time)))
              (F32.of_Z 1000) in
    rnd <- lift esp_random ;;
    let latency_ms :=
      F32.add latency_ms
        (F32.add (F32.of_Z 3)
                 (F32.div (F32.of_Z (rnd mod 12000)) (F32.of_Z 1000))) in
    when (i <? wrap32 (count - 1)) (delay 5) ;;;
    ret (acc.1 ++ [latency_ms], acc.2).

Definition latency_summary (count : Z) (samples : list float) (lost : Z)
  : latency_test_result_t :=
  let loss := F32.mul (F32.div (F32.of_Z lost) (F32.of_Z count)) (F32.of_Z 100) in
  match samples with
  | [] => LatencyResult count [] F32.zero F32.zero F32.zero F32.zero F32.zero
            lost loss
  | x :: xs =>
      let n := F32.of_Z (Z.of_nat (length samples)) in
      let avg := F32.div (F32.sum samples) n in
      let sum_squared_diff :=
        foldl (λ acc latency,
                 let diff := F32.sub latency avg in
                 F32.add acc (F32.mul diff diff)) F32.zero samples in
      LatencyResult count samples (F32.min_of x xs) (F32.max_of x xs) avg
        (F32.sqrt (F32.div sum_squared_diff n)) (calculate_jitter samples)
        lost loss
  end.

Definition test_ping_pong_latency (target_mac : mac_t) (count : Z)
  : ST t (esp_err_t * latency_test_result_t) :=
  modify (upd_test_active true) ;;;
  modify (upd_ping_tracking [] []) ;;;
  setup_ping_response_handler ;;;
  acc <- for_while_active (Z.to_nat count) 0
           (ping_pong_iteration target_mac count) ([], 0) ;;
  modify (upd_test_active false) ;;;
  ret (ESP_OK, latency_summary count acc.1 acc.2).

(** *** Throughput and loss *)

(** One turn of a send loop; [acc] is [(packets_sent, total_bytes_sent,
    send_failures)]. *)
Definition send_iteration (target_mac : mac_t) (payload : list Z)
    (pause_ms : Z) (acc : Z * Z * Z) : ST t (Z * Z * Z) :=
  r <- lift (send_message yield target_mac ESP_NOW_MSG_TYPE_TEST_DATA payload) ;;
  delay pause_ms ;;;
  ret (if is_ok r
       then (wrap32 (acc.1.1 + 1),
             wrap32 (acc.1.2 + Z.of_nat (length payload)), acc.2)
       else (acc.1.1, acc.1.2, wrap32 (acc.2 + 1))).

Definition loss_percent (send_failures packets : Z) : float :=
  F32.mul (F32.div (F32.of_Z send_failures)
                   (F32.of_Z (wrap32 (packets + send_failures))))
          (F32.of_Z 100).

Definition test_unidirectional_throughput (target_mac : mac_t)
    (duration size : Z) : ST t (esp_err_t * throughput_test_result_t) :=
  modify (upd_test_active true) ;;;
  let payload := replicate (Z.to_nat size) 0xAA in
  start_time <- now ;;
  let end_time := wrap64 (start_time + wrap32 (duration * 1000)) in
  acc <- while_loop (Z.to_nat (wrap32 (duration * 1000) / 1000 + 1))
           (t <- now ;; active <- gets test_active_ ;;
            ret ((t <? end_time) && active))
           (send_iteration target_mac payload 1) (0, 0, 0) ;;
  actual_end_time <- now ;;
  let actual_duration_ms := wrap32 (wrap64 (actual_end_time - start_time) / 1000) in
  let throughput :=
    if 0 <? actual_duration_ms
    then F32.div (F32.mul (F32.of_Z (wrap32 (acc.1.2 * 8))) (F32.of_Z 1000))
                 (F32.of_Z actual_duration_ms)
    else F32.zero in
  rssi <- simulate_rssi_measurement ;;
  modify (upd_test_active false) ;;;
  ret (ESP_OK,
       ThroughputResult size acc.1.1 acc.1.1 actual_duration_ms throughput
         (loss_percent acc.2 acc.1.1) F32.zero rssi).

Definition test_packet_loss_analysis (target_mac : mac_t) (packet_count : Z)
  : ST t (esp_err_t * throughput_test_result_t) :=
  modify (upd_test_active true) ;;;
  start_time <- now ;;
  acc <- for_while_active (Z.to_nat packet_count) 0
           (λ _, send_iteration target_mac (replicate 100 0xAA) 10) (0, 0, 0) ;;
  end_time <- now ;;
  modify (upd_test_active false) ;;;
  ret (ESP_OK,
       ThroughputResult 100 acc.1.1 acc.1.1
         (wrap32 (wrap64 (end_time - start_time) / 1000)) F32.zero
         (loss_percent acc.2 acc.1.1) F32.zero 0).

(** *** Range *)

(** One probe at a distance; [acc] is [(successful_packets,
    rssi_measurements)]. *)
Definition distance_probe (target_mac : mac_t) (distance i : Z)
    (acc : Z * list Z) : ST t (Z * list Z) :=
  r <- lift (send_ping yield target_mac) ;;
  acc' <- (if is_ok r then
             rssi <- simulate_rssi_measurement ;;
             ret (wrap32 (acc.1 + 1),
                  acc.2 ++ [to_int8 (wrap32 (rssi - wrap32 (distance / 10 * 3)))])
           else ret acc) ;;
  delay 50 ;;;
  ret acc'.

Definition range_summary (distance successful : Z) (rssis : list Z)
  : range_test_result_t :=
  let test_packets := 100 in
  let loss :=
    F32.mul (F32.div (F32.of_Z (wrap32 (test_packets - successful)))
                     (F32.of_Z test_packets)) (F32.of_Z 100) in
  match rssis with
  | [] => RangeResult distance [] 0 0 0 test_packets successful loss
            (F32.ltb loss (F32.of_Z 10))
  | x :: xs =>
      (* the sum is an [int]; dividing it by [size()] is unsigned *)
      RangeResult distance rssis (foldl Z.min x xs) (foldl Z.max x xs)
        (to_int8 (wrap32 (foldl Z.add 0 rssis) / Z.of_nat (length rssis)))
        test_packets successful loss (F32.ltb loss (F32.of_Z 10))
  end.

(** The loop over distances, cut off after [fuel] turns; it stops early
    when a test is aborted or the loss exceeds 90 percent. *)
Fixpoint distance_loop (fuel : nat) (target_mac : mac_t)
    (distance max_distance_meters step_meters : Z)
    (results : list range_test_result_t)
  : ST t (list range_test_result_t) :=
  match fuel with
  | O => ret results
  | S fuel' =>
      active <- gets test_active_ ;;
      if negb ((distance <=? max_distance_meters) && active) then ret results
      else
        delay 5000 ;;;
        acc <- for_loop 100 0 (distance_probe target_mac distance) (0, []) ;;
        let range_result := range_summary distance acc.1 acc.2 in
        if F32.ltb (F32.of_Z 90) (rg_packet_loss_percent range_result)
        then ret (results ++ [range_result])
        else distance_loop fuel' target_mac (wrap32 (distance + step_meters))
               max_distance_meters step_meters (results ++ [range_result])
  end.

Definition test_distance_performance (target_mac : mac_t)
    (max_distance_meters step_meters : Z)
  : ST t (esp_err_t * list range_test_result_t) :=
  modify (upd_test_active true) ;;;
  results <- distance_loop (Z.to_nat (max_distance_meters / step_meters + 1))
               target_mac step_meters max_distance_meters step_meters [] ;;
  modify (upd_test_active false) ;;;
  ret (ESP_OK, results).

(** *** Suites *)

(** [ret = test(x, ...); if (ret == ESP_OK) results.push_back(x);] *)
Definition collect {A} (test : ST t (esp_err_t * A)) (results : list A)
  : ST t (list A) :=
  r <- test ;; ret (if is_ok r.1 then results ++ [r.2] else results).

Definition run_discovery_test_suite
  : ST t (esp_err_t * list discovery_test_result_t) :=
  rs <- collect (test_basic_discovery 5000) [] ;;
  rs <- collect (test_basic_discovery 15000) rs ;;
  rs <- collect (test_basic_discovery 2000) rs ;;
  ret (ESP_OK, rs).

Definition run_latency_test_suite (target_mac : mac_t)
  : ST t (esp_err_t * list latency_test_result_t) :=
  rs <- collect (test_ping_pong_latency target_mac 100) [] ;;
  rs <- collect (test_ping_pong_latency target_mac 1000) rs ;;
  rs <- collect (test_ping_pong_latency target_mac 5000) rs ;;
  ret (ESP_OK, rs).

Definition run_throughput_test_suite (target_mac : mac_t)
  : ST t (esp_err_t * list throughput_test_result_t) :=
  rs <- collect (test_unidirectional_throughput target_mac 30000 64) [] ;;
  rs <- collect (test_unidirectional_throughput target_mac 30000 128) rs ;;
  rs <- collect (test_unidirectional_throughput target_mac 30000 200) rs ;;
  ret (ESP_OK, rs).

Definition run_reliability_test_suite (target_mac : mac_t)
  : ST t (esp_err_t * (list range_test_result_t * list throughput_test_result_t)) :=
  range <- test_distance_performance target_mac 50 10 ;;
  loss <- collect (test_packet_loss_analysis target_mac 10000) [] ;;
  ret (ESP_OK, (range.2, loss)).

Definition run_full_performance_suite : ST t esp_err_t :=
  discovery <- run_discovery_test_suite ;;
  if negb (is_ok discovery.1) then ret discovery.1
  else
    peers <- lift get_peers ;;
    match peers with
    | [] => ret ESP_ERR_NOT_FOUND
    | first :: _ =>
        let target_mac := mac_addr first in
        _ <- run_latency_test_suite target_mac ;;
        _ <- run_throughput_test_suite target_mac ;;
        _ <- run_reliability_test_suite target_mac ;;
        (* generate_performance_report only logs *)
        ret ESP_OK
    end.
End performance_tests.
End PerformanceTests.

(** ** The operations of the manager as one step function *)

(** No two records of the peer table share a link address. *)

Definition unique_addresses (s : System) : Prop :=
  NoDup (mac_addr <$> peers_ (mgr s)).

Inductive api_call : Type :=
  | CallInitialize (env : init_results) (channel : Z)
  | CallDeinitialize
  | CallStartDiscovery (duration_ms : Z)
  | CallStopDiscovery
  | CallSendDiscoveryRequest
  | CallAddPeer (mac : mac_t)
  | CallRemovePeer (mac : mac_t)
  | CallIsPeerRegistered (mac : mac_t)
  | CallGetPeers
  | CallGetPeerCount
  | CallSendMessage (mac : mac_t) (type : Z) (data : list Z)
  | CallSendBroadcast (type : Z) (data : list Z)
  | CallSendPing (mac : mac_t)
  | CallResetStatistics
  | CallSetReceiveCallback
  | CallSetSendCallback
  | CallSetPeerDiscoveredCallback
  | CallDelay (ms : Z)
  | Background (e : bg_event).

Definition discard {S A} (m : ST S A) : ST S unit := _ <- m ;; ret tt.

Definition run_call `{EspIdf} (c : api_call) : ST System unit :=
  match c with
  | CallInitialize env channel => discard (initialize env channel)
  | CallDeinitialize => discard deinitialize
  | CallStartDiscovery d => discard (start_discovery yield d)
  | CallStopDiscovery => discard stop_discovery
  | CallSendDiscoveryRequest => discard (send_discovery_request yield)
  | CallAddPeer mac => discard (add_peer mac)
  | CallRemovePeer mac => discard (remove_peer mac)
  | CallIsPeerRegistered mac => discard (is_peer_registered mac)
  | CallGetPeers => discard get_peers
  | CallGetPeerCount => discard get_peer_count
  | CallSendMessage mac type data => discard (send_message yield mac type data)
  | CallSendBroadcast type data => discard (send_broadcast yield type data)
  | CallSendPing mac => discard (send_ping yield mac)
  | CallResetStatistics => reset_statistics
  | CallSetReceiveCallback => set_receive_callback
  | CallSetSendCallback => set_send_callback
  | CallSetPeerDiscoveredCallback => set_peer_discovered_callback
  | CallDelay ms => vTaskDelay yield ms
  | Background e => run_event e
  end.

Definition run_calls `{EspIdf} (cs : list api_call) : ST System unit :=
  for_each cs run_call.


(** ** Frames from one link address, handled one after the other *)

(** A frame as the radio delivers it, with the time that passes before the
    driver calls [esp_now_recv_cb] and before [receive_task] takes the
    item from the queue. *)
Record arrival : Type := Arrival {
  wait_us : Z;
  frame_data : list Z;
  queued_us : Z
}.

(** The frame goes through the receive callback and then through the
    inbound worker; the result is the clock reading at which the worker
    handled it. *)
Definition process_frame `{EspIdf} (src : mac_t) (a : arrival) : ST System Z :=
  advance (wait_us a) ;;;
  esp_now_recv_cb src (frame_data a) ;;;
  advance (queued_us a) ;;;
  handled_at <- get_timestamp_us ;;
  receive_task_step nobody ;;;
  ret handled_at.

Fixpoint process_frames `{EspIdf} (src : mac_t) (arrivals : list arrival)
    (last : Z) : ST System Z :=
  match arrivals with
  | [] => ret last
  | a :: arrivals' => t <- process_frame src a ;; process_frames src arrivals' t
  end.

(** A frame that passes the two checks of [esp_now_recv_cb]. *)
Definition valid_frame `{EspIdf} (data : list Z) : Prop :=
  MESSAGE_SIZE ≤ Z.of_nat (length data)
  ∧ wrap32 (esp_crc32_le 0 (take (Z.to_nat (Z.of_nat (length data) - 4)) data))
    = crc32 (frame_of_bytes data).

Definition discovery_type (ty : Z) : Prop :=
  ty = ESP_NOW_MSG_TYPE_DISCOVERY_REQUEST ∨ ty = ESP_NOW_MSG_TYPE_DISCOVERY_RESPONSE.

Definition discovery_frame (data : list Z) : Prop :=
  discovery_type (msg_type (frame_of_bytes data)).

(** A frame that creates or refreshes a peer record. *)
Definition acceptable `{EspIdf} (a : arrival) : Prop :=
  valid_frame (frame_data a) ∧ discovery_frame (frame_data a).

(** The test [receive_task] makes before it calls [add_peer_internal]. *)
Definition is_discovery (data : list Z) : bool :=
  (msg_type (frame_of_bytes data) =? ESP_NOW_MSG_TYPE_DISCOVERY_REQUEST)
  || (msg_type (frame_of_bytes data) =? ESP_NOW_MSG_TYPE_DISCOVERY_RESPONSE).

(** The clock reading a frame leaves in [last_seen_us] of a record of its
    sender, from the reading [handled_at] at which the worker took it from
    the queue: a discovery frame is stamped by the worker
    ([add_peer_internal]), any other frame in the receive callback
    ([update_peer_stats]), [queued_us] earlier. *)
Definition seen_at (a : arrival) (handled_at : Z) : Z :=
  if is_discovery (frame_data a) then handled_at
  else wrap64 (handled_at - queued_us a).

(** [packets_received++] *)
Definition bump (c : Z) : Z := wrap32 (c + 1).

(** The part of the state the peer table logic reads and writes. *)
Definition table_view (s : System) :=
  (peers_ (mgr s), peers_mutex_ (mgr s), receive_queue_ (mgr s), add_peer_rets s).

(** Nobody holds the mutex and the inbound queue has been drained. *)
Definition idle (s : System) : Prop :=
  peers_mutex_ (mgr s) = false ∧ receive_queue_ (mgr s) = [].

(** The driver takes every peer it is given. *)
Definition driver_accepts (s : System) : Prop :=
  Forall (λ r, r = ESP_OK ∨ r = ESP_ERR_ESPNOW_EXIST) (add_peer_rets s).

(** What a caller can see of the radio side: the driver calls and
    callbacks made, the agenda still to come, the frames waiting to be
    sent, the sequence counter, and the statistics. *)
Definition radio_view (s : System) :=
  (trace s, agenda s, send_queue_ (mgr s), sequence_counter_ (mgr s),
   statistics_ (mgr s)).

(** The result log of the framework and its lock. *)
Definition log_view (f : TestFramework.t) :=
  (TestFramework.results_mutex_ f, TestFramework.test_results_ f).

(** [PerformanceTests::run_full_performance_suite] from the return of its
    discovery tests on. *)
Definition after_discovery `{EspIdf}
    (discovery : esp_err_t * list PerformanceTests.discovery_test_result_t)
  : ST PerformanceTests.t esp_err_t :=
  if negb (is_ok discovery.1) then ret discovery.1
  else
    peers <- PerformanceTests.lift get_peers ;;
    match peers with
    | [] => ret ESP_ERR_NOT_FOUND
    | first :: _ =>
        let target_mac := mac_addr first in
        _ <- PerformanceTests.run_latency_test_suite target_mac ;;
        _ <- PerformanceTests.run_throughput_test_suite target_mac ;;
        _ <- PerformanceTests.run_reliability_test_suite target_mac ;;
        ret ESP_OK
    end.

(** ** A concrete platform and sample inputs *)

(** CRC-32 as [esp_crc32_le] computes it: the reflected polynomial
    0xEDB88320, the register complemented on entry and on exit. *)
Definition crc32_bit (c : Z) : Z :=
  if Z.odd c then Z.lxor (Z.shiftr c 1) 0xEDB88320 else Z.shiftr c 1.
Definition crc32_byte (c b : Z) : Z :=
  Nat.iter 8 crc32_bit (Z.lxor c (Z.land b 255)).
Definition rom_crc32_le (crc : Z) (buf : list Z) : Z :=
  Z.lxor 0xFFFFFFFF (foldl crc32_byte (Z.lxor crc 0xFFFFFFFF) buf).
Definition rom : EspIdf := {| esp_crc32_le := rom_crc32_le |}.

Definition local_mac : mac_t := Mac 0x24 0x0A 0xC4 0 0 0x01.
Definition peer_a : mac_t := Mac 0x24 0x0A 0xC4 0 0 0x0A.
Definition peer_b : mac_t := Mac 0x24 0x0A 0xC4 0 0 0x0B.
Definition peer_c : mac_t := Mac 0x24 0x0A 0xC4 0 0 0x0C.

Definition blank_frame : esp_now_message_t := Message 0 0 0 0 0 (replicate 234 0).

(** An initialised manager that knows [peers] and has [queue] waiting to be
    sent, one second after boot, with the agenda [todo]. *)
Definition manager_with (peers : list esp_now_peer_info_t)
    (queue : list queued_message_t) : ESPNowManager :=
  {| initialized_ := true; discovery_active_ := false; local_mac_ := local_mac;
     sequence_counter_ := 0; peers_ := peers; statistics_ := zero_statistics;
     receive_queue_ := []; send_queue_ := queue; peers_mutex_ := false;
     receive_task_handle_ := true; send_task_handle_ := true;
     discovery_task_handle_ := false; receive_callback_ := true;
     send_callback_ := false; peer_discovered_callback_ := true |}.

Definition system_with (peers : list esp_now_peer_info_t)
    (queue : list queued_message_t) (todo : list (list bg_event)) : System :=
  {| mgr := manager_with peers queue; esp_timer := 1000000; trace := [];
     agenda := todo; add_peer_rets := []; send_rets := []; random_words := [];
     stack_residue := blank_frame |}.

Definition framework_on (s : System) : TestFramework.t :=
  {| TestFramework.sys := s; TestFramework.initialized_ := true;
     TestFramework.role_ := TEST_ROLE_COORDINATOR;
     TestFramework.test_results_ := []; TestFramework.results_mutex_ := false;
     TestFramework.coordination_task_handle_ := true;
     TestFramework.test_completed_callback_ := true;
     TestFramework.test_progress_callback_ := false;
     TestFramework.callbacks := [] |}.

Definition performance_on (s : System) : PerformanceTests.t :=
  {| PerformanceTests.sys := s; PerformanceTests.test_active_ := false;
     PerformanceTests.current_test_sequence_ := 0;
     PerformanceTests.ping_timestamps_ := [];
     PerformanceTests.ping_sequence_numbers_ := [] |}.

Definition known_peer (a : mac_t) (seen : Z) : esp_now_peer_info_t :=
  PeerInfo a 0 seen 0 0 0 true.

(** A frame whose [crc32] field holds 0 and whose four payload bytes at
    offset 226 are chosen so that the checksum the receiver takes over the
    first 249 bytes is 0 as well. *)
Definition sealed_frame (type seq : Z) (data fixup : list Z) : list Z :=
  frame_bytes
    {| msg_type := type; sequence_number := seq; timestamp_us := 0;
       payload_length := Z.of_nat (length data); crc32 := 0;
       payload := data ++ replicate (226 - length data) 0 ++ fixup
                  ++ replicate 4 0 |}.

Definition discovery_requests_from_b : list (list Z) :=
  [ sealed_frame ESP_NOW_MSG_TYPE_DISCOVERY_REQUEST 0 (mac_bytes peer_b) [243; 181; 82; 210];
    sealed_frame ESP_NOW_MSG_TYPE_DISCOVERY_REQUEST 1 (mac_bytes peer_b) [207; 241; 130; 245];
    sealed_frame ESP_NOW_MSG_TYPE_DISCOVERY_REQUEST 2 (mac_bytes peer_b) [139; 61; 242; 157] ].

Definition ping_from_c : list Z :=
  sealed_frame ESP_NOW_MSG_TYPE_PING 7 (le_bytes 4 7) [119; 10; 120; 98].

(** The fix-up bytes, as one little-endian word each, of the pongs that
    answer the pings numbered 0 to 99. *)
Definition pong_fixups : list Z :=
  [1760538972; 565931199; 4198894234; 3004356473; 2530066577; 3751353714;
   73694039; 1295034036; 1339708551; 110004580; 3715362625; 2485596834;
   2985829706; 4172085417; 592551564; 1778729839; 646216426; 1875945225;
   3022897452; 4252572879; 3634760487; 2448611012; 1242542305; 56323330;
   28417841; 1222984402; 2467833079; 3662477588; 4287885052; 3066508063;
   1832539450; 611223769; 4097320496; 3178036179; 1720819190; 801456149;
   169498621; 1129220638; 2561928251; 3521589720; 3540894699; 2589531656;
   1101297709; 149988814; 758100518; 1685811141; 3213232608; 4141011971;
   3126062470; 4077334629; 687494720; 1638828963; 1148296267; 220545448;
   3604490125; 2676816494; 2640709725; 3560101310; 265270171; 1184591480;
   1665431952; 705733747; 4058890838; 3099140021; 2318506437; 3278193702;
   412623363; 1372389344; 1947461640; 1028077035; 3870970830; 2951646765;
   2902752286; 3830489597; 1068353496; 1996036667; 1395002835; 443732016;
   3247420949; 2296081398; 3294253683; 2366541712; 1458825653; 531051606;
   980951998; 1932328541; 2832308344; 3783607707; 3815749544; 2856020555;
   1908804718; 949145997; 491636325; 1410931590; 2414116259; 3333464128;
   384175785; 1605555018; 2219816303; 3441125516].

Definition pong_from_a (k fixup : Z) : list Z :=
  sealed_frame ESP_NOW_MSG_TYPE_PONG k (le_bytes 4 k) (le_bytes 4 fixup).

(** The agenda of a run against a peer that answers every ping within the
    wait: the frame goes out, the radio reports success, the pong comes in
    and the inbound worker handles it; nothing happens in the short pause
    that follows. *)
Definition replying_peer : list (list bg_event) :=
  concat (imap (λ k fixup,
                  [ [EvSendTask; EvSendDone peer_a true;
                     EvRecv peer_a (pong_from_a (Z.of_nat k) fixup); EvReceiveTask];
                    [] ])
               pong_fixups).


(** The agenda of a run in which the outbound worker does nothing during
    the first wait and sends one frame during each later one. *)
Definition late_sender (waits : nat) : list (list bg_event) :=
  [] :: replicate waits [EvSendTask].

(** Twenty frames waiting to be sent: the outbound queue is full. *)
Definition full_queue : list queued_message_t :=
  replicate 20 (Queued peer_a blank_frame).

(** The system at power-on, before [initialize]. *)
Definition power_on : System :=
  {| mgr := new_manager; esp_timer := 0; trace := []; agenda := [];
     add_peer_rets := []; send_rets := []; random_words := [];
     stack_residue := blank_frame |}.

(** Every ESP-IDF call of [initialize] succeeds. *)
Definition radio_starts : init_results :=
  {| r_esp_netif_init := ESP_OK; r_esp_event_loop_create_default := ESP_OK;
     r_esp_wifi_init := ESP_OK; r_esp_wifi_set_storage := ESP_OK;
     r_esp_wifi_set_mode := ESP_OK; r_esp_wifi_start := ESP_OK;
     r_esp_wifi_set_channel := ESP_OK; r_esp_now_init := ESP_OK;
     r_esp_now_register_send_cb := ESP_OK; r_esp_now_register_recv_cb := ESP_OK;
     r_esp_wifi_get_mac := ESP_OK; station_mac := local_mac;
     queues_and_mutex_created := true |}.

(** Three discovery requests of peer b, one millisecond apart, each taken
    from the queue half a millisecond after it came in. *)
Definition three_requests_from_b : list arrival :=
  map (λ d, Arrival 1000 d 500) discovery_requests_from_b.

(** Seventy seconds after boot, peer a was last heard at boot and peer b a
    second ago. *)
Definition one_stale_peer : System :=
  upd_esp_timer 70000000
    (system_with [known_peer peer_a 0; known_peer peer_b 69000000] [] []).

(** The ping of peer c waits in the inbound queue. *)
Definition ping_waiting : System :=
  upd_mgr (upd_receive_queue (λ _, [Queued peer_c (frame_of_bytes ping_from_c)]))
    (system_with [] [] []).

(** The ping of peer c with one payload byte changed on the way. *)
Definition damaged_ping : list Z := <[200%nat := 1]> ping_from_c.

(** A session: start the radio, hear peer b twice, add it by hand, remove
    peer c, let the sweep run, stop. *)
Definition sample_session : list api_call :=
  [ CallInitialize radio_starts ESP_NOW_CHANNEL_5GHZ;
    Background (EvRecv peer_b (discovery_requests_from_b !!! 0%nat));
    Background EvReceiveTask;
    Background (EvRecv peer_b (discovery_requests_from_b !!! 1%nat));
    Background EvReceiveTask;
    CallAddPeer peer_b; CallAddPeer peer_a; CallRemovePeer peer_c;
    Background (EvTick 61000000); Background EvCleanupTask;
    CallDeinitialize ].

(** ** Further sample inputs *)

(** Peer addresses [02:00:00:00:00:k]. *)
Definition numbered_peers (n : Z) : list mac_t :=
  (λ k, Mac 2 0 0 0 0 k) <$> seqZ 0 n.

(** Nobody holds the mutex of the peer table. *)
Definition mutex_free (s : System) : Prop := peers_mutex_ (mgr s) = false.

(** [add_peer] for each address of a list, in order. *)
Definition add_peers (macs : list mac_t) : ST System unit :=
  for_each macs (λ a, discard (add_peer a)).

(** The state a call is left in after it has waited in vain for the mutex. *)
Definition timed_out (ms : Z) (s : System) : System :=
  upd_esp_timer (wrap64 (esp_timer s + ms * 1000)) s.

(** Twenty-one peers on a running manager. *)
Definition crowded : System :=
  system_with (map (λ a, known_peer a 0) (numbered_peers 21)) [] [].

(** Another task holds the mutex of the peer table. *)
Definition mutex_held : System :=
  upd_mgr (upd_peers_mutex true) (system_with [known_peer peer_a 0] [] []).

(** The driver refuses the next peer. *)
Definition driver_full : System :=
  upd_add_peer_rets [ESP_ERR_NO_MEM] (system_with [known_peer peer_a 0] [] []).

(** [n] turns of [send_task], one after the other. *)
Definition send_task_steps (n : nat) : ST System unit :=
  for_each (replicate n tt) (λ _, send_task_step).

(** What [send_task] hands to the driver for a queued item. *)
Definition transmission (item : queued_message_t) : io_event :=
  IoTransmit (q_mac_addr item) (frame_bytes (q_msg item)).

(** The fields of a message hold values of their C types and the payload
    array has its declared size. *)
Definition well_formed (m : esp_now_message_t) : Prop :=
  0 ≤ msg_type m < 2 ^ 8
  ∧ 0 ≤ sequence_number m < 2 ^ 32
  ∧ 0 ≤ timestamp_us m < 2 ^ 64
  ∧ 0 ≤ payload_length m < 2 ^ 16
  ∧ 0 ≤ crc32 m < 2 ^ 32
  ∧ Z.of_nat (length (payload m)) = PAYLOAD_CAPACITY.

(** The frame [send_message] builds on its stack before the checksum is
    written into it. *)
Definition unsealed (type seq now : Z) (data : list Z)
    (residue : esp_now_message_t) : esp_now_message_t :=
  {| msg_type := type; sequence_number := seq; timestamp_us := now;
     payload_length := Z.of_nat (length data); crc32 := crc32 residue;
     payload := data ++ drop (length data) (payload residue) |}.

(** The checksum [send_message] writes into that frame. *)
Definition checksum_of `{EspIdf} (m : esp_now_message_t) : Z :=
  esp_crc32_le 0 (take (Z.to_nat (MESSAGE_SIZE - 4)) (frame_bytes m)).

(** The part of the state the receive callback accounts in. *)
Definition inbound_view (s : System) :=
  (statistics_ (mgr s), receive_queue_ (mgr s), send_queue_ (mgr s),
   sequence_counter_ (mgr s), trace s).

(** How a send callback counts in a peer's record. *)
Definition count_send (ok : bool) (now : Z) (p : esp_now_peer_info_t)
  : esp_now_peer_info_t :=
  upd_last_seen_us now
    (if ok then upd_packets_sent (wrap32 (packets_sent p + 1)) p
     else upd_packets_lost (wrap32 (packets_lost p + 1)) p).


(** A step of the schedule in which no frame comes in: the tasks of the
    manager (the discovery task, the two workers, the clean-up task), the
    send callback and the clock may all run. *)
Definition silent (e : bg_event) : Prop :=
  match e with
  | EvRecv _ _ => False
  | _ => True
  end.

(** The radio is up and hears nothing: discovery is off, nobody holds the
    mutex of the peer table, no frame waits in the inbound queue and none
    comes in for as long as the schedule runs, and the driver takes every
    peer it is given. *)
Definition radio_silence (s : System) : Prop :=
  initialized_ (mgr s) = true
  ∧ discovery_active_ (mgr s) = false
  ∧ peers_mutex_ (mgr s) = false
  ∧ receive_queue_ (mgr s) = []
  ∧ driver_accepts s
  ∧ Forall (Forall silent) (agenda s).

(** While nothing is heard and no peer is known: the manager runs, the
    peer table and the inbound queue are empty and the mutex is free;
    [active] tells whether discovery is on and [answers] what the driver
    will say to the peers it is given next. *)
Definition no_peer_heard (active : bool) (answers : list esp_err_t) (s : System)
  : Prop :=
  initialized_ (mgr s) = true
  ∧ discovery_active_ (mgr s) = active
  ∧ peers_mutex_ (mgr s) = false
  ∧ peers_ (mgr s) = []
  ∧ receive_queue_ (mgr s) = []
  ∧ add_peer_rets s = answers.

(** The state in which [start_discovery] has given the broadcast address
    to the driver, switched discovery on and created the discovery task. *)
Definition discovery_started (s : System) : System :=
  upd_mgr (upd_discovery_task_handle true)
    (upd_mgr (upd_discovery_active true)
       (upd_add_peer_rets (tail (add_peer_rets s))
          (upd_trace (λ t, t ++ [IoAddPeer ESP_NOW_BROADCAST_ADDR]) s))).

(** A scenario of the framework that reports [ESP_OK], whatever became
    of the test, and files exactly one result under [name]. *)
Definition files_one_result (name : string) (m : ST TestFramework.t esp_err_t)
  : Prop :=
  ∀ f, TestFramework.results_mutex_ f = false →
    (m f).1 = ESP_OK
    ∧ TestFramework.results_mutex_ (m f).2 = false
    ∧ ∃ res, TestFramework.test_results_ (m f).2
             = TestFramework.test_results_ f ++ [res]
             ∧ test_name res = name.

(** * Properties *)

(** ** Reasoning about state transformers *)

Definition preserves {S A} (P : S → Prop) (m : ST S A) : Prop :=
  ∀ s, P s → P (m s).2.

Section preserves.
Context {S : Type} (P : S → Prop).

Lemma preserves_ret {A} (a : A) : preserves P (ret a).
Proof. by intros s. Qed.
Lemma preserves_gets {A} (f : S → A) : preserves P (gets f).
Proof. by intros s. Qed.
Lemma preserves_modify (f : S → S) : (∀ s, P s → P (f s)) → preserves P (modify f).
Proof. intros Hf s. apply Hf. Qed.
Lemma preserves_bind {A B} (m : ST S A) (k : A → ST S B) :
  preserves P m → (∀ a, preserves P (k a)) → preserves P (bind m k).
Proof. intros Hm Hk s Hs. unfold bind. by apply Hk, Hm. Qed.
Lemma preserves_when (b : bool) (m : ST S unit) :
  preserves P m → preserves P (when b m).
Proof. intros Hm. destruct b; [done | apply preserves_ret]. Qed.
Lemma preserves_for_each {A} (l : list A) (body : A → ST S unit) :
  (∀ x, preserves P (body x)) → preserves P (for_each l body).
Proof.
  intros Hb. induction l as [|x l IH]; simpl.
  - apply preserves_ret.
  - apply preserves_bind; [apply Hb | intros _; apply IH].
Qed.
Lemma preserves_for_loop {A} n i (body : Z → A → ST S A) acc :
  (∀ i a, preserves P (body i a)) → preserves P (for_loop n i body acc).
Proof.
  intros Hb. revert i acc. induction n as [|n IH]; intros i acc; simpl.
  - apply preserves_ret.
  - apply preserves_bind; [apply Hb | intros a; apply IH].
Qed.
Lemma preserves_while_loop {A} n (cond : ST S bool) (body : A → ST S A) acc :
  preserves P cond → (∀ a, preserves P (body a)) →
  preserves P (while_loop n cond body acc).
Proof.
  intros Hc Hb. revert acc. induction n as [|n IH]; intros acc; simpl.
  - apply preserves_ret.
  - apply preserves_bind; [apply Hc|]. intros [|].
    + apply preserves_bind; [apply Hb | intros a; apply IH].
    + apply preserves_ret.
Qed.
End preserves.

(** The first step establishes the property, the rest keeps it. *)
Lemma after_bind {S A B} (P : S → Prop) (m : ST S A) (k : A → ST S B) s :
  P (m s).2 → (∀ a, preserves P (k a)) → P (bind m k s).2.
Proof. intros Hm Hk. unfold bind. by apply Hk. Qed.

(** An invariant of the accumulator and the state of a counted loop. *)
Lemma for_loop_invariant {St A} (I : Z → A → St → Prop) n i
    (body : Z → A → ST St A) acc s :
  I i acc s →
  (∀ j a t, I j a t → I (j + 1) (body j a t).1 (body j a t).2) →
  I (i + Z.of_nat n) (for_loop n i body acc s).1 (for_loop n i body acc s).2.
Proof.
  intros Hi Hb. revert i acc s Hi. induction n as [|n IH]; intros i acc s Hi.
  - simpl. by rewrite Z.add_0_r.
  - cbn [for_loop]. unfold bind.
    replace (i + Z.of_nat (S n)) with (i + 1 + Z.of_nat n) by lia.
    apply IH, Hb, Hi.
Qed.

(** Running the first step of a sequence. *)
Lemma run_gets {S A B} (f : S → A) (k : A → ST S B) (s : S) :
  (x <- gets f ;; k x) s = k (f s) s.
Proof. reflexivity. Qed.
Lemma run_modify {S B} (f : S → S) (k : ST S B) (s : S) :
  (modify f ;;; k) s = k (f s).
Proof. reflexivity. Qed.
Lemma run_ret {S A B} (v : A) (k : A → ST S B) (s : S) :
  (x <- ret v ;; k x) s = k v s.
Proof. reflexivity. Qed.
Lemma run_assoc {S A B C} (m : ST S A) (k : A → ST S B) (k' : B → ST S C) (s : S) :
  (y <- (x <- m ;; k x) ;; k' y) s = (x <- m ;; y <- k x ;; k' y) s.
Proof. reflexivity. Qed.
Lemma run_bind {S A B} (m : ST S A) (k : A → ST S B) (s : S) :
  (x <- m ;; k x) s = k (m s).1 (m s).2.
Proof. reflexivity. Qed.

Ltac preserve_step :=
  lazymatch goal with
  | |- preserves _ (bind _ _) => apply preserves_bind; [| intros ?]
  | |- preserves _ (ret _) => apply preserves_ret
  | |- preserves _ (gets _) => apply preserves_gets
  | |- preserves _ (when _ _) => apply preserves_when
  | |- preserves _ (for_each _ _) => apply preserves_for_each; intros ?
  | |- preserves _ (for_loop _ _ _ _) => apply preserves_for_loop; intros ? ?
  | |- preserves _ (if ?b then _ else _) => destruct b
  | |- preserves _ (match ?x with _ => _ end) => destruct x
  end.


(** Discharges the steps that leave the property alone. *)
Ltac frame :=
  repeat preserve_step; try (apply preserves_modify; intros ? Hs; exact Hs).

(** ** Uniqueness of link addresses *)

Section unique.
Context `{EspIdf}.

Lemma unique_alter (ps : list esp_now_peer_info_t) (i : nat) (f : esp_now_peer_info_t → esp_now_peer_info_t) :
  (∀ p, mac_addr (f p) = mac_addr p) →
  mac_addr <$> alter f i ps = mac_addr <$> ps.
Proof.
  intros Hf. revert i. induction ps as [|p ps IH]; intros [|i]; simpl; try done.
  - by rewrite Hf.
  - f_equal. apply IH.
Qed.

Lemma find_peer_None (ps : list esp_now_peer_info_t) mac :
  find_peer ps mac = None ↔ mac ∉ mac_addr <$> ps.
Proof.
  unfold find_peer. rewrite fmap_None, list_find_None, Forall_forall.
  rewrite list_elem_of_fmap. split.
  - intros Hn (p & -> & Hp). by apply (Hn p).
  - intros Hn p Hp Heq. apply Hn. by exists p.
Qed.

Lemma add_peer_internal_unique mac : preserves unique_addresses (add_peer_internal mac).
Proof.
  intros s Hs. unfold unique_addresses in *.
  unfold add_peer_internal, xSemaphoreTake, bind, gets, modify, ret; simpl.
  destruct (peers_mutex_ (mgr s)); simpl; [exact Hs|].
  destruct (find_peer (peers_ (mgr s)) mac) as [i|] eqn:Hf; simpl.
  - rewrite unique_alter; [exact Hs | by intros []].
  - match goal with |- context [if ?b then _ else _] => destruct b end; simpl; [exact Hs|].
    rewrite fmap_app. simpl. apply NoDup_app. split_and!; [exact Hs | | apply NoDup_singleton].
    intros a Ha ->%list_elem_of_singleton. by apply find_peer_None in Hf.
Qed.

Lemma remove_peer_unique mac : preserves unique_addresses (remove_peer mac).
Proof.
  intros s Hs. unfold unique_addresses in *.
  unfold remove_peer, xSemaphoreTake, bind, gets, modify, ret; simpl.
  destruct (peers_mutex_ (mgr s)); simpl; [exact Hs|].
  destruct (list_find _ (peers_ (mgr s))) as [[i p]|]; simpl; [|exact Hs].
  rewrite list_fmap_delete. eapply sublist_NoDup; [exact Hs |]. apply sublist_delete.
Qed.

Lemma update_peer_stats_unique mac r l :
  preserves unique_addresses (update_peer_stats mac r l).
Proof.
  intros s Hs. unfold unique_addresses in *.
  unfold update_peer_stats, xSemaphoreTake, bind, gets, modify, ret; simpl.
  destruct (peers_mutex_ (mgr s)); simpl; [exact Hs|].
  destruct (find_peer (peers_ (mgr s)) mac) as [i|]; simpl; [|exact Hs].
  rewrite unique_alter; [exact Hs|]. intros []; by destruct r, l.
Qed.

Lemma get_peers_unique : preserves unique_addresses get_peers.
Proof. unfold get_peers, xSemaphoreTake, xSemaphoreGive. frame. Qed.
Lemma get_peer_count_unique : preserves unique_addresses get_peer_count.
Proof. unfold get_peer_count, xSemaphoreTake, xSemaphoreGive. frame. Qed.
Lemma is_peer_registered_unique mac : preserves unique_addresses (is_peer_registered mac).
Proof. unfold is_peer_registered, xSemaphoreTake, xSemaphoreGive. frame. Qed.

Lemma peer_cleanup_sweep_unique : preserves unique_addresses peer_cleanup_sweep.
Proof.
  unfold peer_cleanup_sweep. frame; try apply get_peers_unique; apply remove_peer_unique.
Qed.

Lemma send_task_step_unique : preserves unique_addresses send_task_step.
Proof. unfold send_task_step, esp_now_send, emit. frame. Qed.

Lemma stop_discovery_unique : preserves unique_addresses stop_discovery.
Proof. unfold stop_discovery. frame. Qed.

Lemma esp_now_send_cb_unique mac ok : preserves unique_addresses (esp_now_send_cb mac ok).
Proof. unfold esp_now_send_cb, emit. frame; apply update_peer_stats_unique. Qed.

Lemma esp_now_recv_cb_unique src data : preserves unique_addresses (esp_now_recv_cb src data).
Proof.
  unfold esp_now_recv_cb, xQueueSend_receive_queue. frame.
  apply update_peer_stats_unique.
Qed.

Lemma initialize_unique env ch : preserves unique_addresses (initialize env ch).
Proof. unfold initialize, esp_try. frame. Qed.

Lemma deinitialize_unique : preserves unique_addresses deinitialize.
Proof.
  unfold deinitialize. frame; try apply stop_discovery_unique.
  apply preserves_modify. intros s _. apply NoDup_nil_2.
Qed.

Section with_others.
Variable others : ST System unit.
Hypothesis others_unique : preserves unique_addresses others.

Lemma send_message_unique mac type data :
  preserves unique_addresses (send_message others mac type data).
Proof. unfold send_message, xQueueSend_send_queue, advance. frame; apply others_unique. Qed.

Lemma send_discovery_request_unique :
  preserves unique_addresses (send_discovery_request others).
Proof. unfold send_discovery_request. frame. apply send_message_unique. Qed.

Lemma send_ping_unique mac : preserves unique_addresses (send_ping others mac).
Proof. unfold send_ping. frame. apply send_message_unique. Qed.

Lemma vTaskDelay_unique ms : preserves unique_addresses (vTaskDelay others ms).
Proof. unfold vTaskDelay, advance. frame. apply others_unique. Qed.

Lemma start_discovery_unique d : preserves unique_addresses (start_discovery others d).
Proof.
  unfold start_discovery, esp_now_add_peer, emit. frame.
  - apply vTaskDelay_unique.
  - apply stop_discovery_unique.
Qed.

Lemma receive_task_step_unique : preserves unique_addresses (receive_task_step others).
Proof.
  unfold receive_task_step, receive_task_handle, notify_peer_discovered, emit.
  frame; first [apply add_peer_internal_unique | apply send_message_unique].
Qed.

Lemma discovery_task_step_unique : preserves unique_addresses (discovery_task_step others).
Proof. unfold discovery_task_step. frame. apply send_discovery_request_unique. Qed.
End with_others.

Lemma run_event_unique e : preserves unique_addresses (run_event e).
Proof.
  destruct e; simpl; frame.
  - apply esp_now_recv_cb_unique.
  - apply esp_now_send_cb_unique.
  - apply receive_task_step_unique, preserves_ret.
  - apply send_task_step_unique.
  - apply discovery_task_step_unique, preserves_ret.
  - apply peer_cleanup_sweep_unique.
Qed.

Lemma yield_unique : preserves unique_addresses yield.
Proof. unfold yield, run_events. frame. apply run_event_unique. Qed.

Lemma run_call_unique c : preserves unique_addresses (run_call c).
Proof.
  destruct c; simpl; unfold discard; frame.
  - apply initialize_unique.
  - apply deinitialize_unique.
  - apply start_discovery_unique, yield_unique.
  - apply stop_discovery_unique.
  - apply send_discovery_request_unique, yield_unique.
  - apply add_peer_internal_unique.
  - apply remove_peer_unique.
  - apply is_peer_registered_unique.
  - apply get_peers_unique.
  - apply get_peer_count_unique.
  - apply send_message_unique, yield_unique.
  - apply send_message_unique, yield_unique.
  - apply send_ping_unique, yield_unique.
  - apply vTaskDelay_unique, yield_unique.
  - apply run_event_unique.
Qed.

(** C10: from a peer table in which no two records share a link address,
    every sequence of calls of the manager and of steps of its tasks and
    callbacks (a frame coming in, the inbound worker adding or refreshing
    a record, [add_peer], [remove_peer], a send, the periodic sweep, ...)
    ends in a table with the same property; so two positions that hold
    the same address are the same position, and a lookup by address
    finds at most one record. *)
Theorem peer_addresses_stay_unique (calls : list api_call) (s : System) :
  unique_addresses s →
  unique_addresses (run_calls calls s).2 ∧
  ∀ i j p q,
    peers_ (mgr (run_calls calls s).2) !! i = Some p →
    peers_ (mgr (run_calls calls s).2) !! j = Some q →
    mac_addr p = mac_addr q → i = j.
Proof.
  intros Hs.
  assert (Hu : unique_addresses (run_calls calls s).2).
  { revert Hs. apply preserves_for_each. apply run_call_unique. }
  split; [exact Hu|]. intros i j p q Hi Hj Hpq.
  eapply NoDup_lookup; [exact Hu | |].
  - rewrite list_lookup_fmap, Hi. reflexivity.
  - rewrite list_lookup_fmap, Hj. simpl. by rewrite Hpq.
Qed.
End unique.

(** ** The clean-up sweep *)

Section sweep.
Context `{EspIdf}.

Lemma mutex_round_trip (m : ESPNowManager) :
  peers_mutex_ m = false → upd_peers_mutex false (upd_peers_mutex true m) = m.
Proof. destruct m; simpl; by intros ->. Qed.

Lemma get_peers_free s :
  peers_mutex_ (mgr s) = false → get_peers s = (peers_ (mgr s), s).
Proof.
  intros Hm. unfold get_peers, xSemaphoreTake, xSemaphoreGive, bind, gets, modify, ret; simpl.
  rewrite Hm; simpl. f_equal. destruct s as [m]; simpl in *. unfold upd_mgr; simpl.
  by rewrite mutex_round_trip.
Qed.

Lemma remove_peer_found s mac i p :
  peers_mutex_ (mgr s) = false →
  list_find (λ p, mac_addr p = mac) (peers_ (mgr s)) = Some (i, p) →
  peers_ (mgr (remove_peer mac s).2) = delete i (peers_ (mgr s))
  ∧ peers_mutex_ (mgr (remove_peer mac s).2) = false.
Proof.
  intros Hm Hf. unfold remove_peer, xSemaphoreTake, xSemaphoreGive, bind, gets, modify, ret; simpl.
  rewrite Hm; simpl. rewrite Hf; simpl. done.
Qed.

Lemma list_find_middle (kept l : list esp_now_peer_info_t) p :
  mac_addr p ∉ mac_addr <$> kept →
  list_find (λ q, mac_addr q = mac_addr p) (kept ++ p :: l) = Some (length kept, p).
Proof.
  intros Hn. apply list_find_Some. split_and!.
  - by rewrite lookup_app_r, Nat.sub_diag by lia.
  - done.
  - intros j q Hj Hlt Heq. apply Hn. rewrite <- Heq.
    apply list_elem_of_fmap. exists q. split; [done|].
    rewrite lookup_app_l in Hj by done. by eapply list_elem_of_lookup_2.
Qed.

Lemma sweep_loop now (l kept : list esp_now_peer_info_t) s :
  peers_mutex_ (mgr s) = false →
  peers_ (mgr s) = kept ++ l →
  NoDup (mac_addr <$> kept ++ l) →
  let s' := (for_each l (λ peer,
               if stale now peer then _ <- remove_peer (mac_addr peer) ;; ret tt
               else ret tt) s).2 in
  peers_mutex_ (mgr s') = false
  ∧ peers_ (mgr s') = kept ++ filter (λ p, stale now p = false) l.
Proof.
  revert kept s. induction l as [|p l IH]; intros kept s Hm Hp Hnd; simpl.
  - by rewrite app_nil_r in *.
  - unfold bind at 1. destruct (stale now p) eqn:Hst.
    + unfold bind at 2. simpl.
      assert (Hnk : mac_addr p ∉ mac_addr <$> kept).
      { rewrite fmap_app in Hnd. apply NoDup_app in Hnd as (_ & Hd & _).
        intros Hin. apply (Hd _ Hin). simpl. left. }
      destruct (remove_peer_found s (mac_addr p) (length kept) p Hm) as [Hp' Hm'].
      { rewrite Hp. by apply list_find_middle. }
      rewrite Hp, delete_middle in Hp'.
      rewrite filter_cons_False by (rewrite Hst; done).
      apply IH; [done | done |].
      rewrite fmap_app in *. simpl in Hnd. apply NoDup_app in Hnd as (Hk & Hd & Hl).
      apply NoDup_app. split_and!; [done | | by apply NoDup_cons in Hl as [_ ?]].
      intros a Ha Hal. apply (Hd a Ha). by right.
    + simpl. rewrite filter_cons_True by done.
      replace (kept ++ p :: filter (λ p0, stale now p0 = false) l)
        with ((kept ++ [p]) ++ filter (λ p0, stale now p0 = false) l)
        by (by rewrite <- app_assoc).
      apply IH; [done | by rewrite <- app_assoc | by rewrite <- app_assoc].
Qed.

(** C8: one pass of the clean-up task, run with the mutex free over a
    table without duplicate addresses.  Before the pass [get_peers]
    returns the whole table; after it, exactly the records whose
    [now - last_seen_us] (in 64-bit arithmetic) is at most
    [PEER_TIMEOUT_US], in their order.  So a peer that is stale is
    present before and its address is absent after, and a peer that is
    not stale is kept. *)
Theorem sweep_removes_exactly_the_stale_peers s :
  peers_mutex_ (mgr s) = false →
  unique_addresses s →
  let now := esp_timer s in
  let before := (get_peers s).1 in
  let after := (get_peers (peer_cleanup_sweep s).2).1 in
  before = peers_ (mgr s)
  ∧ after = filter (λ p, stale now p = false) before
  ∧ ∀ p, p ∈ before →
      (stale now p = true → mac_addr p ∉ mac_addr <$> after)
      ∧ (stale now p = false → p ∈ after).
Proof.
  intros Hm Hu now before after.
  assert (Hb : before = peers_ (mgr s)).
  { unfold before. by rewrite get_peers_free. }
  assert (Ha : after = filter (λ p, stale now p = false) before).
  { unfold after, peer_cleanup_sweep, bind at 1. rewrite (get_peers_free s) by done. simpl.
    unfold bind at 1. simpl.
    destruct (sweep_loop (esp_timer s) (peers_ (mgr s)) [] s Hm eq_refl Hu) as [Hm' Hp'].
    rewrite get_peers_free by done. simpl. by rewrite Hp', Hb. }
  split_and!; [done | done |].
  intros p Hp. split; intros Hst.
  - rewrite Ha. intros (q & Hq & [Hqs Hqin]%list_elem_of_filter)%list_elem_of_fmap.
    assert (p = q) as ->; [|congruence].
    rewrite Hb in Hp, Hqin. unfold unique_addresses in Hu.
    apply list_elem_of_lookup in Hp as [i Hi]. apply list_elem_of_lookup in Hqin as [j Hj].
    assert (i = j) as ->; [|congruence].
    eapply NoDup_lookup; [exact Hu | |]; rewrite list_lookup_fmap.
    + by rewrite Hi.
    + rewrite Hj. simpl. by rewrite Hq.
  - rewrite Ha. by apply list_elem_of_filter.
Qed.
End sweep.

(** ** Frames from one link address *)

Section frames.
Context `{EspIdf}.

Lemma send_message_view v mac type data :
  preserves (λ s, table_view s = v) (send_message nobody mac type data).
Proof. unfold send_message, xQueueSend_send_queue, advance, nobody. frame. Qed.

Lemma notify_peer_discovered_view v mac :
  preserves (λ s, table_view s = v) (notify_peer_discovered mac).
Proof. unfold notify_peer_discovered, emit. frame. Qed.

Lemma esp_now_recv_cb_valid src data s :
  valid_frame data → idle s →
  let s' := (esp_now_recv_cb src data s).2 in
  table_view s' =
    (match find_peer (peers_ (mgr s)) src with
     | Some i => alter (λ p, upd_last_seen_us (esp_timer s)
                               (upd_packets_received (wrap32 (packets_received p + 1)) p)) i (peers_ (mgr s))
     | None => peers_ (mgr s)
     end, false, [Queued src (frame_of_bytes data)], add_peer_rets s)
  ∧ esp_timer s' = esp_timer s.
Proof.
  intros [Hlen Hcrc] [Hm Hq]. unfold esp_now_recv_cb.
  destruct (Z.ltb_spec (Z.of_nat (length data)) MESSAGE_SIZE); [lia|].
  rewrite Hcrc, Z.eqb_refl. simpl.
  unfold update_peer_stats, xQueueSend_receive_queue, xSemaphoreTake, xSemaphoreGive, bind, gets, modify, ret; simpl.
  rewrite Hm; simpl.
  destruct (find_peer (peers_ (mgr s)) src); simpl; rewrite Hq; simpl;
    unfold table_view; simpl; rewrite Hq; done.
Qed.

Lemma add_peer_internal_view mac s :
  peers_mutex_ (mgr s) = false →
  let s' := (add_peer_internal mac s).2 in
  table_view s' =
    (match find_peer (peers_ (mgr s)) mac with
     | Some i => alter (λ p, upd_is_active true (upd_last_seen_us (esp_timer s) p)) i (peers_ (mgr s))
     | None =>
         let r := default ESP_OK (head (add_peer_rets s)) in
         if negb (is_ok r) && negb (bool_decide (r = ESP_ERR_ESPNOW_EXIST))
         then peers_ (mgr s)
         else peers_ (mgr s) ++ [PeerInfo mac 0 (esp_timer s) 0 0 0 true]
     end, false, receive_queue_ (mgr s),
     match find_peer (peers_ (mgr s)) mac with
     | Some _ => add_peer_rets s
     | None => tail (add_peer_rets s)
     end)
  ∧ esp_timer s' = esp_timer s.
Proof.
  intros Hm.
  unfold add_peer_internal, esp_now_add_peer, emit, xSemaphoreTake, xSemaphoreGive, bind, gets, modify, ret; simpl.
  rewrite Hm; simpl.
  unfold table_view. destruct (find_peer (peers_ (mgr s)) mac); simpl; [done|].
  by destruct (negb (is_ok _) && _).
Qed.

Lemma receive_task_handle_discovery item (s : System) :
  discovery_type (msg_type (q_msg item)) →
  table_view (receive_task_handle nobody item s).2
  = table_view (add_peer_internal (q_mac_addr item) s).2.
Proof.
  intros Hd. unfold receive_task_handle.
  apply (after_bind (λ s', table_view s' = _)); [| intros; unfold emit; frame].
  destruct Hd as [-> | ->]; simpl.
  - apply (after_bind (λ s', table_view s' = _)); [done|]. intros _. frame.
    + apply send_message_view.
    + apply notify_peer_discovered_view.
  - apply (after_bind (λ s', table_view s' = _)); [done|]. intros _. frame.
    apply notify_peer_discovered_view.
Qed.

Lemma find_peer_alter (ps : list esp_now_peer_info_t) i f mac :
  (∀ p, mac_addr (f p) = mac_addr p) →
  find_peer (alter f i ps) mac = find_peer ps mac.
Proof.
  intros Hf. unfold find_peer. revert i.
  induction ps as [|p ps IH]; intros [|i]; simpl; try done.
  - rewrite Hf. by destruct (decide (mac_addr p = mac)).
  - destruct (decide (mac_addr p = mac)); [done|].
    specialize (IH i). revert IH. change (list_alter f i ps) with (alter f i ps).
    destruct (list_find _ (alter f i ps)) as [[]|], (list_find _ ps) as [[]|];
      simpl; intros [=]; by subst.
Qed.

(** The effect of one frame on the peer table. *)
Lemma process_frame_view src a s :
  valid_frame (frame_data a) → discovery_frame (frame_data a) → idle s →
  let r := process_frame src a s in
  let peers := peers_ (mgr s) in
  table_view r.2 =
    (match find_peer peers src with
     | Some i =>
         alter (λ p, upd_is_active true (upd_last_seen_us r.1
                  (upd_packets_received (wrap32 (packets_received p + 1)) p))) i peers
     | None =>
         let d := default ESP_OK (head (add_peer_rets s)) in
         if negb (is_ok d) && negb (bool_decide (d = ESP_ERR_ESPNOW_EXIST))
         then peers
         else peers ++ [PeerInfo src 0 r.1 0 0 0 true]
     end, false, [],
     match find_peer peers src with
     | Some _ => add_peer_rets s
     | None => tail (add_peer_rets s)
     end).
Proof.
  intros Hv Hd [Hm Hq] r peers.
  set (s1 := (advance (wait_us a) s).2).
  set (s2 := (esp_now_recv_cb src (frame_data a) s1).2).
  set (s3 := (advance (queued_us a) s2).2).
  set (item := Queued src (frame_of_bytes (frame_data a))).
  set (s4 := upd_mgr (upd_receive_queue tail) s3).
  assert (Hr1 : r.1 = esp_timer s4) by done.
  destruct (esp_now_recv_cb_valid src (frame_data a) s1 Hv) as [Hv2 Ht2]; [done|].
  fold s2 in Hv2, Ht2. unfold table_view in Hv2.
  injection Hv2 as Hp2 Hm2 Hq2 Hd2.
  change (peers_ (mgr s1)) with (peers_ (mgr s)) in Hp2.
  change (add_peer_rets s1) with (add_peer_rets s) in Hd2.
  assert (Hq3 : receive_queue_ (mgr s3) = [item]) by exact Hq2.
  assert (Hr2 : r.2 = (receive_task_handle nobody item s4).2).
  { change ((receive_task_step nobody s3).2 = (receive_task_handle nobody item s4).2).
    unfold receive_task_step, bind at 1, gets. cbn [fst snd compose].
    rewrite Hq3. reflexivity. }
  rewrite Hr2, receive_task_handle_discovery by done. simpl q_mac_addr.
  assert (Hm4 : peers_mutex_ (mgr s4) = false) by exact Hm2.
  destruct (add_peer_internal_view src s4 Hm4) as [-> _].
  assert (Hp4 : peers_ (mgr s4) = peers_ (mgr s2)) by reflexivity.
  assert (Hq4 : receive_queue_ (mgr s4) = []).
  { change (tail (receive_queue_ (mgr s3)) = []). by rewrite Hq3. }
  assert (Hd4 : add_peer_rets s4 = add_peer_rets s) by exact Hd2.
  rewrite Hq4, Hd4, Hr1, Hp4, Hp2.
  subst peers. destruct (find_peer (peers_ (mgr s)) src) as [i|] eqn:Hf.
  - rewrite find_peer_alter by (by intros []). rewrite Hf.
    by rewrite list_alter_alter_eq.
  - by rewrite Hf.
Qed.

Lemma bump_iter n c :
  Nat.iter n bump c = if n is O then c else wrap32 (c + Z.of_nat n).
Proof.
  induction n as [|n IH]; [done|]. simpl. rewrite IH. unfold bump, wrap32.
  destruct n as [|n]; [done|].
  rewrite Z.add_mod_idemp_l by done. f_equal. lia.
Qed.

Lemma find_peer_Some (ps : list esp_now_peer_info_t) mac i :
  find_peer ps mac = Some i → ∃ p, ps !! i = Some p ∧ mac_addr p = mac.
Proof.
  unfold find_peer. destruct (list_find _ ps) as [[j p]|] eqn:Hf; [|done].
  intros [= <-]. apply list_find_Some in Hf as (? & ? & _). by exists p.
Qed.

Lemma process_frames_known src arrivals : ∀ s last i p,
  Forall acceptable arrivals → idle s →
  find_peer (peers_ (mgr s)) src = Some i →
  peers_ (mgr s) !! i = Some p →
  last_seen_us p = last →
  let r := process_frames src arrivals last s in
  ∃ p', peers_ (mgr r.2) !! i = Some p'
      ∧ mac_addr p' = src
      ∧ last_seen_us p' = r.1
      ∧ packets_received p' = Nat.iter (length arrivals) bump (packets_received p).
Proof.
  induction arrivals as [|a rest IH]; intros s last i p Hok Hidle Hf Hp Hl.
  - exists p. split_and!; try done.
    apply find_peer_Some in Hf as (q & Hq & Hm). congruence.
  - apply Forall_cons in Hok as [[Hv Hd] Hok].
    pose proof (process_frame_view src a s Hv Hd Hidle) as Hview.
    change (process_frames src (a :: rest) last s)
      with (process_frames src rest (process_frame src a s).1 (process_frame src a s).2).
    cbv zeta in Hview. rewrite Hf in Hview. unfold table_view in Hview.
    set (r1 := process_frame src a s) in *. clearbody r1.
    injection Hview as Hp1 Hm1 Hq1 _.
    set (F := λ q, upd_is_active true (upd_last_seen_us r1.1
                (upd_packets_received (wrap32 (packets_received q + 1)) q))) in *.
    destruct (IH r1.2 r1.1 i (F p)) as (p' & Hp' & Hmac & Hseen & Hcnt); try done.
    + rewrite Hp1. by rewrite find_peer_alter by (by intros []).
    + by rewrite Hp1, list_lookup_alter_eq, Hp.
    + exists p'. split_and!; try done.
      rewrite Hcnt. change (length (a :: rest)) with (S (length rest)).
      by rewrite Nat.iter_succ_r.
Qed.

Lemma filter_no_address (ps : list esp_now_peer_info_t) mac :
  mac ∉ mac_addr <$> ps → filter (λ q, mac_addr q = mac) ps = [].
Proof.
  induction ps as [|q ps IH]; [done|]. rewrite fmap_cons, not_elem_of_cons.
  intros [Hq Hps]. rewrite filter_cons_False by done. by apply IH.
Qed.

Lemma filter_unique_address (ps : list esp_now_peer_info_t) i p :
  NoDup (mac_addr <$> ps) → ps !! i = Some p →
  filter (λ q, mac_addr q = mac_addr p) ps = [p].
Proof.
  revert i. induction ps as [|q ps IH]; intros i Hnd Hi; [done|].
  rewrite fmap_cons in Hnd. apply NoDup_cons in Hnd as [Hq Hnd].
  destruct i as [|i]; simpl in Hi.
  - injection Hi as ->. rewrite filter_cons_True by done. f_equal.
    by apply filter_no_address.
  - rewrite filter_cons_False; [by eapply IH|].
    intros Heq. apply Hq. rewrite Heq. apply list_elem_of_fmap. exists p.
    split; [done|]. by eapply list_elem_of_lookup_2.
Qed.

Lemma process_frame_unique src a : preserves unique_addresses (process_frame src a).
Proof.
  unfold process_frame, get_timestamp_us, advance. frame.
  - apply esp_now_recv_cb_unique.
  - apply receive_task_step_unique, preserves_ret.
Qed.

Lemma process_frames_unique src arrivals last :
  preserves unique_addresses (process_frames src arrivals last).
Proof.
  revert last. induction arrivals as [|a rest IH]; intros last; simpl.
  - apply preserves_ret.
  - apply preserves_bind; [apply process_frame_unique | intros t; apply IH].
Qed.

Lemma is_discovery_spec data : is_discovery data = true ↔ discovery_frame data.
Proof.
  unfold is_discovery, discovery_frame, discovery_type.
  rewrite orb_true_iff, !Z.eqb_eq. done.
Qed.

Lemma receive_task_handle_other v item :
  ¬ discovery_type (msg_type (q_msg item)) →
  preserves (λ s, table_view s = v) (receive_task_handle nobody item).
Proof.
  intros Hd. unfold receive_task_handle, emit.
  destruct (Z.eqb_spec (msg_type (q_msg item)) ESP_NOW_MSG_TYPE_DISCOVERY_REQUEST)
    as [E|_]; [exfalso; apply Hd; by left|].
  destruct (Z.eqb_spec (msg_type (q_msg item)) ESP_NOW_MSG_TYPE_DISCOVERY_RESPONSE)
    as [E|_]; [exfalso; apply Hd; by right|].
  frame. apply send_message_view.
Qed.

Lemma wrap64_back x q : wrap64 (wrap64 (wrap64 x + q) - q) = wrap64 x.
Proof.
  unfold wrap64. rewrite Zminus_mod_idemp_l.
  replace (x `mod` 2 ^ 64 + q - q) with (x `mod` 2 ^ 64) by lia.
  by rewrite Z.mod_mod.
Qed.

(** The effect on the peer table of a frame that is not a discovery
    frame: only a record that exists is touched, in the callback. *)
Lemma process_frame_other src a s :
  valid_frame (frame_data a) → ¬ discovery_frame (frame_data a) → idle s →
  let r := process_frame src a s in
  let peers := peers_ (mgr s) in
  let called_at := wrap64 (esp_timer s + wait_us a) in
  table_view r.2 =
    (match find_peer peers src with
     | Some i =>
         alter (λ p, upd_last_seen_us called_at
                  (upd_packets_received (wrap32 (packets_received p + 1)) p)) i peers
     | None => peers
     end, false, [], add_peer_rets s)
  ∧ r.1 = wrap64 (called_at + queued_us a).
Proof.
  intros Hv Hd [Hm Hq] r peers called_at.
  set (s1 := (advance (wait_us a) s).2).
  set (s2 := (esp_now_recv_cb src (frame_data a) s1).2).
  set (s3 := (advance (queued_us a) s2).2).
  set (item := Queued src (frame_of_bytes (frame_data a))).
  set (s4 := upd_mgr (upd_receive_queue tail) s3).
  assert (Hr1 : r.1 = esp_timer s4) by done.
  destruct (esp_now_recv_cb_valid src (frame_data a) s1 Hv) as [Hv2 Ht2]; [done|].
  fold s2 in Hv2, Ht2. unfold table_view in Hv2.
  injection Hv2 as Hp2 Hm2 Hq2 Hd2.
  change (peers_ (mgr s1)) with (peers_ (mgr s)) in Hp2.
  change (add_peer_rets s1) with (add_peer_rets s) in Hd2.
  change (esp_timer s1) with called_at in Hp2, Ht2.
  assert (Hq3 : receive_queue_ (mgr s3) = [item]) by exact Hq2.
  assert (Hr2 : r.2 = (receive_task_handle nobody item s4).2).
  { change ((receive_task_step nobody s3).2 = (receive_task_handle nobody item s4).2).
    unfold receive_task_step, bind at 1, gets. cbn [fst snd compose].
    rewrite Hq3. reflexivity. }
  assert (Ht4 : esp_timer s4 = wrap64 (esp_timer s2 + queued_us a)) by reflexivity.
  split; [|by rewrite Hr1, Ht4, Ht2].
  rewrite Hr2.
  rewrite (receive_task_handle_other (table_view s4) item Hd s4 eq_refl).
  assert (Hm4 : peers_mutex_ (mgr s4) = false) by exact Hm2.
  assert (Hp4 : peers_ (mgr s4) = peers_ (mgr s2)) by reflexivity.
  assert (Hq4 : receive_queue_ (mgr s4) = []).
  { change (tail (receive_queue_ (mgr s3)) = []). by rewrite Hq3. }
  assert (Hd4 : add_peer_rets s4 = add_peer_rets s) by exact Hd2.
  unfold table_view. by rewrite Hq4, Hd4, Hm4, Hp4, Hp2.
Qed.

(** A valid frame of any type from an address that is in the table
    touches that record alone: stamped, and counted once. *)
Lemma process_frame_touch src a s i :
  valid_frame (frame_data a) → idle s →
  find_peer (peers_ (mgr s)) src = Some i →
  let r := process_frame src a s in
  ∃ F, (∀ p, mac_addr (F p) = mac_addr p
             ∧ last_seen_us (F p) = seen_at a r.1
             ∧ packets_received (F p) = bump (packets_received p))
     ∧ table_view r.2 = (alter F i (peers_ (mgr s)), false, [], add_peer_rets s).
Proof.
  intros Hv Hidle Hf r. unfold seen_at.
  destruct (is_discovery (frame_data a)) eqn:Hd.
  - apply is_discovery_spec in Hd.
    pose proof (process_frame_view src a s Hv Hd Hidle) as Hview.
    cbv zeta in Hview. rewrite Hf in Hview. fold r in Hview.
    eexists. split; [|exact Hview]. by intros [].
  - assert (Hn : ¬ discovery_frame (frame_data a)).
    { intros Hx. apply is_discovery_spec in Hx. congruence. }
    destruct (process_frame_other src a s Hv Hn Hidle) as [Hview Ht].
    rewrite Hf in Hview. fold r in Hview, Ht.
    eexists. split; [|exact Hview]. intros []. split_and!; try done.
    change (wrap64 (esp_timer s + wait_us a) = wrap64 (r.1 - queued_us a)).
    rewrite Ht. symmetry. apply wrap64_back.
Qed.

Lemma process_frames_touch src arrivals : ∀ s t0 i p,
  Forall (λ a, valid_frame (frame_data a)) arrivals → idle s →
  find_peer (peers_ (mgr s)) src = Some i →
  peers_ (mgr s) !! i = Some p →
  let r := process_frames src arrivals t0 s in
  ∃ p', peers_ (mgr r.2) !! i = Some p'
      ∧ mac_addr p' = src
      ∧ last_seen_us p'
        = from_option (λ a, seen_at a r.1) (last_seen_us p) (last arrivals)
      ∧ packets_received p' = Nat.iter (length arrivals) bump (packets_received p).
Proof.
  induction arrivals as [|a rest IH]; intros s t0 i p Hok Hidle Hf Hp.
  - exists p. split_and!; try done.
    apply find_peer_Some in Hf as (q & Hq & Hm). congruence.
  - apply Forall_cons in Hok as [Hv Hok].
    destruct (process_frame_touch src a s i Hv Hidle Hf) as (F & HF & Hview).
    change (process_frames src (a :: rest) t0 s)
      with (process_frames src rest (process_frame src a s).1 (process_frame src a s).2).
    unfold table_view in Hview.
    set (r1 := process_frame src a s) in *. clearbody r1.
    injection Hview as Hp1 Hm1 Hq1 _.
    destruct (HF p) as (HFm & HFs & HFc).
    destruct (IH r1.2 r1.1 i (F p)) as (p' & Hp' & Hmac & Hseen & Hcnt); try done.
    + rewrite Hp1. rewrite find_peer_alter; [done|]. intros q. by destruct (HF q).
    + by rewrite Hp1, list_lookup_alter_eq, Hp.
    + exists p'. split_and!; try done.
      * rewrite Hseen, HFs. destruct rest as [|b rest']; [done|].
        change (last (a :: b :: rest')) with (last (b :: rest')).
        destruct (last (b :: rest')) eqn:E; [done|]. by apply last_None in E.
      * rewrite Hcnt, HFc. change (length (a :: rest)) with (S (length rest)).
        by rewrite Nat.iter_succ_r.
Qed.

(** Frames that are not discovery frames, from an address that is not
    in the table, leave the table as it is. *)
Lemma process_frames_unnoticed src arrivals : ∀ s t0,
  Forall (λ a, valid_frame (frame_data a) ∧ ¬ discovery_frame (frame_data a)) arrivals →
  idle s →
  find_peer (peers_ (mgr s)) src = None →
  table_view (process_frames src arrivals t0 s).2 = table_view s.
Proof.
  induction arrivals as [|a rest IH]; intros s t0 Hok Hidle Hf; [done|].
  apply Forall_cons in Hok as [[Hv Hd] Hok].
  destruct (process_frame_other src a s Hv Hd Hidle) as [Hview _].
  rewrite Hf in Hview.
  change (process_frames src (a :: rest) t0 s)
    with (process_frames src rest (process_frame src a s).1 (process_frame src a s).2).
  set (r1 := process_frame src a s) in *. clearbody r1.
  assert (Hsame : table_view r1.2 = table_view s).
  { rewrite Hview. destruct Hidle as [Hm Hq]. unfold table_view. by rewrite Hm, Hq. }
  unfold table_view in Hsame. injection Hsame as Hp1 Hm1 Hq1 Hd1.
  rewrite IH; try done.
  - unfold table_view. by rewrite Hp1, Hm1, Hq1, Hd1.
  - destruct Hidle as [Hm Hq]. split; congruence.
  - by rewrite Hp1.
Qed.

Lemma process_frames_app src l1 l2 t0 (s : System) :
  process_frames src (l1 ++ l2) t0 s
  = process_frames src l2 (process_frames src l1 t0 s).1 (process_frames src l1 t0 s).2.
Proof.
  revert t0 s. induction l1 as [|a l1 IH]; intros t0 s; [done|].
  change (process_frames src ((a :: l1) ++ l2) t0 s)
    with (process_frames src (l1 ++ l2) (process_frame src a s).1 (process_frame src a s).2).
  rewrite IH. reflexivity.
Qed.

(** A discovery frame from an address that is not in the table, and the
    frames that follow it. *)
Lemma process_frames_new src d rest (s : System) :
  valid_frame (frame_data d) → discovery_frame (frame_data d) →
  Forall (λ a, valid_frame (frame_data a)) rest →
  idle s → driver_accepts s →
  find_peer (peers_ (mgr s)) src = None →
  let r := process_frames src (d :: rest) 0 s in
  ∃ i p, peers_ (mgr r.2) !! i = Some p
     ∧ mac_addr p = src
     ∧ last_seen_us p = from_option (λ a, seen_at a r.1) 0 (last (d :: rest))
     ∧ packets_received p = Nat.iter (length rest) bump 0.
Proof.
  intros Hv Hd Hok Hidle Hacc Hfind r.
  pose proof (process_frame_view src d s Hv Hd Hidle) as Hview.
  cbv zeta in Hview. unfold table_view in Hview. rewrite Hfind in Hview.
  assert (Hr : r = process_frames src rest (process_frame src d s).1 (process_frame src d s).2)
    by done.
  set (r1 := process_frame src d s) in *. clearbody r1.
  injection Hview as Hp1 Hm1 Hq1 _.
  assert (Hhead : negb (is_ok (default ESP_OK (head (add_peer_rets s))))
                  && negb (bool_decide (default ESP_OK (head (add_peer_rets s))
                                        = ESP_ERR_ESPNOW_EXIST)) = false).
  { unfold driver_accepts in Hacc. destruct (add_peer_rets s) as [|e es]; [done|].
    apply Forall_cons in Hacc as [[-> | ->] _]; done. }
  rewrite Hhead in Hp1.
  set (new := PeerInfo src 0 r1.1 0 0 0 true) in *.
  assert (Hnone : src ∉ mac_addr <$> peers_ (mgr s)) by by apply find_peer_None.
  destruct (process_frames_touch src rest r1.2 r1.1 (length (peers_ (mgr s))) new)
    as (p' & Hp' & Hmac' & Hseen & Hcnt); try done.
  - rewrite Hp1. unfold find_peer.
    pose proof (list_find_middle (peers_ (mgr s)) [] new Hnone) as Hlf.
    simpl in Hlf. by rewrite Hlf.
  - rewrite Hp1. by rewrite lookup_app_r, Nat.sub_diag by lia.
  - rewrite <- Hr in *. exists (length (peers_ (mgr s))), p'.
    split_and!; try done.
    rewrite Hseen. destruct rest as [|b rest'].
    + cbn [last from_option]. unfold seen_at.
      apply is_discovery_spec in Hd. rewrite Hd. by rewrite Hr.
    + change (last (d :: b :: rest')) with (last (b :: rest')).
      destruct (last (b :: rest')) eqn:E; [done|]. by apply last_None in E.
Qed.

(** C4, as the code has it.  [N >= 1] valid frames come in from one
    address, each taken from the queue by the inbound worker before
    the next comes in.  If the address is in the table, then for
    frames of every type the table still holds exactly one record for
    it, stamped by the last frame, and its [packets_received] has gone
    up by [N].  If the address is not in the table, only a discovery
    request or response creates the record (the driver taking the
    peer): without one among the frames there is no record afterwards;
    with one, there is exactly one record, stamped by the last frame,
    and it has counted the frames that came after the one that created
    it. *)
Theorem frames_of_one_address_keep_one_record src (arrivals : list arrival)
    (final : arrival) (s : System) :
  last arrivals = Some final →
  Forall (λ a, valid_frame (frame_data a)) arrivals →
  idle s → unique_addresses s → driver_accepts s →
  let r := process_frames src arrivals 0 s in
  let n := Z.of_nat (length arrivals) in
  match list_find (λ q, mac_addr q = src) (peers_ (mgr s)) with
  | Some (_, q) =>
      ∃ p, filter (λ q, mac_addr q = src) (peers_ (mgr r.2)) = [p]
         ∧ last_seen_us p = seen_at final r.1
         ∧ packets_received p = wrap32 (packets_received q + n)
  | None =>
      match list_find (λ a, is_discovery (frame_data a) = true) arrivals with
      | Some (k, _) =>
          ∃ p, filter (λ q, mac_addr q = src) (peers_ (mgr r.2)) = [p]
             ∧ last_seen_us p = seen_at final r.1
             ∧ packets_received p = wrap32 (n - 1 - Z.of_nat k)
      | None => filter (λ q, mac_addr q = src) (peers_ (mgr r.2)) = []
      end
  end.
Proof.
  intros Hlast Hok Hidle Hu Hacc r n.
  assert (Hur : unique_addresses r.2) by by apply process_frames_unique.
  assert (Hn : (0 < length arrivals)%nat).
  { destruct arrivals; [done | cbn; lia]. }
  destruct (list_find (λ q, mac_addr q = src) (peers_ (mgr s))) as [[i q]|] eqn:Hfind.
  - (* the address is known *)
    apply list_find_Some in Hfind as Hfind'. destruct Hfind' as (Hq & Hmac & _).
    destruct (process_frames_touch src arrivals s 0 i q)
      as (p' & Hp' & Hmac' & Hseen & Hcnt); try done.
    { unfold find_peer. by rewrite Hfind. }
    fold r in Hp', Hseen. exists p'. split_and!.
    + rewrite <- Hmac'. by eapply filter_unique_address.
    + by rewrite Hseen, Hlast.
    + rewrite Hcnt, bump_iter. unfold n.
      destruct (length arrivals) as [|m] eqn:Hm; [lia | done].
  - assert (Hnone : find_peer (peers_ (mgr s)) src = None)
      by (unfold find_peer; by rewrite Hfind).
    destruct (list_find (λ a, is_discovery (frame_data a) = true) arrivals)
      as [[k d]|] eqn:Hdisc.
    + (* the first discovery frame creates the record *)
      apply list_find_Some in Hdisc as (Hk & Hd & Hbefore).
      apply is_discovery_spec in Hd.
      pose proof (take_drop_middle arrivals k d Hk) as Hsplit.
      set (pre := take k arrivals) in *. set (rest := drop (S k) arrivals) in *.
      assert (Hpre : Forall (λ a, valid_frame (frame_data a)
                                  ∧ ¬ discovery_frame (frame_data a)) pre).
      { apply Forall_lookup. intros j a Hj. unfold pre in Hj.
        apply lookup_take_Some in Hj as [Hj Hjk]. split.
        - rewrite Forall_lookup in Hok. by eapply Hok.
        - intros Hx. apply is_discovery_spec in Hx. by eapply Hbefore. }
      assert (Hokd : valid_frame (frame_data d))
        by (rewrite Forall_lookup in Hok; by eapply Hok).
      assert (Hrest : Forall (λ a, valid_frame (frame_data a)) rest)
        by (unfold rest; by apply Forall_drop).
      assert (Hlen : length arrivals = (k + S (length rest))%nat).
      { rewrite <- Hsplit at 1. rewrite length_app. cbn. unfold pre.
        rewrite length_take. apply lookup_lt_Some in Hk. lia. }
      assert (Hfinal : last (d :: rest) = Some final).
      { rewrite <- Hsplit in Hlast. by rewrite last_app_cons in Hlast. }
      assert (Hr : r = process_frames src (d :: rest)
                         (process_frames src pre 0 s).1 (process_frames src pre 0 s).2).
      { unfold r. rewrite <- Hsplit at 1. apply process_frames_app. }
      pose proof (process_frames_unnoticed src pre s 0 Hpre Hidle Hnone) as Hsame.
      set (r0 := process_frames src pre 0 s) in *. clearbody r0.
      unfold table_view in Hsame. injection Hsame as Hp0 Hm0 Hq0 Hd0.
      assert (Hr' : r.2 = (process_frames src (d :: rest) 0 r0.2).2
                    ∧ r.1 = (process_frames src (d :: rest) 0 r0.2).1) by (by rewrite Hr).
      destruct Hr' as [Hr2 Hr1].
      destruct (process_frames_new src d rest r0.2)
        as (j & p' & Hp' & Hmac' & Hseen & Hcnt); try done.
      * destruct Hidle as [Hm Hq]. split; congruence.
      * unfold driver_accepts. by rewrite Hd0.
      * by rewrite Hp0.
      * rewrite <- Hr2 in Hp'. rewrite <- Hr1 in Hseen.
        exists p'. split_and!.
        -- rewrite <- Hmac'. by eapply filter_unique_address.
        -- by rewrite Hseen, Hfinal.
        -- rewrite Hcnt, bump_iter. unfold n. rewrite Hlen.
           replace (Z.of_nat (k + S (length rest)) - 1 - Z.of_nat k)
             with (Z.of_nat (length rest)) by lia.
           destruct (length rest) as [|m]; [done|]. by rewrite Z.add_0_l.
    + (* no discovery frame: no record *)
      apply list_find_None in Hdisc.
      assert (Hall : Forall (λ a, valid_frame (frame_data a)
                                  ∧ ¬ discovery_frame (frame_data a)) arrivals).
      { apply Forall_lookup. intros j a Hj. split.
        - rewrite Forall_lookup in Hok. by eapply Hok.
        - intros Hx. apply is_discovery_spec in Hx.
          rewrite Forall_lookup in Hdisc. by eapply Hdisc. }
      pose proof (process_frames_unnoticed src arrivals s 0 Hall Hidle Hnone) as Hsame.
      fold r in Hsame. unfold table_view in Hsame. injection Hsame as Hp _ _ _.
      rewrite Hp. apply filter_no_address. by apply find_peer_None.
Qed.
End frames.

(** ** binary32: conversions of positive integers *)

Section f32.
Lemma iter_pos_nat {A} (f : A → A) p x : SpecFloat.iter_pos f p x = Nat.iter (Pos.to_nat p) f x.
Proof.
  revert x. induction p as [p IH|p IH|]; intros x.
  - rewrite Pos2Nat.inj_xI. cbn [SpecFloat.iter_pos]. rewrite !IH.
    replace (S (2 * Pos.to_nat p)) with (Pos.to_nat p + S (Pos.to_nat p))%nat by lia.
    rewrite Nat.iter_add, Nat.iter_succ_r. done.
  - rewrite Pos2Nat.inj_xO. cbn [SpecFloat.iter_pos]. rewrite !IH.
    replace (2 * Pos.to_nat p)%nat with (Pos.to_nat p + Pos.to_nat p)%nat by lia.
    by rewrite Nat.iter_add.
  - done.
Qed.

Lemma shr_1_m mrs : 0 ≤ shr_m mrs → shr_m (shr_1 mrs) = shr_m mrs / 2.
Proof.
  destruct mrs as [m r s]. simpl. intros Hm.
  destruct m as [|[p|p|]|p]; simpl; try done; try lia.
  - rewrite Pos2Z.inj_xI. apply Z.div_unique with 1; lia.
  - rewrite Pos2Z.inj_xO. apply Z.div_unique with 0; lia.
Qed.

Lemma shr_iter_m n mrs :
  0 ≤ shr_m mrs → shr_m (Nat.iter n shr_1 mrs) = shr_m mrs / 2 ^ Z.of_nat n.
Proof.
  intros Hm. induction n as [|n IH].
  - simpl. by rewrite Z.div_1_r.
  - simpl Nat.iter. rewrite shr_1_m.
    + rewrite IH, Nat2Z.inj_succ, Z.pow_succ_r by lia.
      rewrite Z.div_div by lia. f_equal. lia.
    + rewrite IH. apply Z.div_pos; lia.
Qed.

Lemma digits2_size p : digits2_pos p = Pos.size p.
Proof. induction p; simpl; congruence. Qed.

Lemma Zdigits2_lower m : 0 < m → 2 ^ (Zdigits2 m - 1) ≤ m.
Proof.
  destruct m as [|p|p]; try lia. intros _. simpl. rewrite digits2_size.
  pose proof (Pos.size_le p) as Hle.
  assert (2 ^ Z.pos (Pos.size p) ≤ 2 * Z.pos p).
  { change 2 with (Z.pos 2) at 1. rewrite <- Pos2Z.inj_pow. lia. }
  replace (Z.pos (Pos.size p)) with (Z.succ (Z.pos (Pos.size p) - 1)) in H by lia.
  rewrite Z.pow_succ_r in H by lia. lia.
Qed.

(** Shifting a positive mantissa to its format exponent leaves it positive
    as long as the exponent is not below the least one. *)
Lemma shr_fexp_pos m e l :
  0 < m → emin F32.prec F32.emax ≤ e →
  0 < shr_m (shr_fexp F32.prec F32.emax m e l).1
  ∧ e ≤ (shr_fexp F32.prec F32.emax m e l).2.
Proof.
  intros Hm He. unfold shr_fexp, shr.
  assert (Hrec : shr_m (shr_record_of_loc m l) = m) by by destruct l as [|[]].
  pose proof (Zdigits2_lower m Hm) as Hd.
  set (n := fexp F32.prec F32.emax (Zdigits2 m + e) - e).
  assert (Hn : n ≤ Zdigits2 m - 1).
  { unfold n, fexp, emin, F32.prec, F32.emax in *.
    assert (1 ≤ Zdigits2 m); [|lia].
    destruct m; simpl; lia. }
  destruct n as [|p|p] eqn:Hp; simpl; rewrite ?Hrec; try (split; lia).
  rewrite iter_pos_nat, shr_iter_m by lia. rewrite Hrec, positive_nat_Z.
  split; [|lia].
  apply Z.div_str_pos. split; [lia|].
  etrans; [|exact Hd]. apply Z.pow_le_mono_r; lia.
Qed.

Lemma round_nearest_even_pos m l : 0 < m → 0 < round_nearest_even m l.
Proof. intros Hm. destruct l as [|[]]; simpl; try lia. destruct (Z.even m); lia. Qed.

Lemma binary_round_aux_pos s m e l :
  0 < m → emin F32.prec F32.emax ≤ e →
  (∃ m' e', binary_round_aux F32.prec F32.emax s m e l = S754_finite s m' e')
  ∨ binary_round_aux F32.prec F32.emax s m e l = S754_infinity s.
Proof.
  intros Hm He. unfold binary_round_aux.
  destruct (shr_fexp_pos m e l Hm He) as [H1 H1e].
  destruct (shr_fexp F32.prec F32.emax m e l) as [mrs' e'] eqn:E1. simpl in H1, H1e.
  pose proof (round_nearest_even_pos (shr_m mrs') (loc_of_shr_record mrs') H1) as H2.
  destruct (shr_fexp_pos _ e' loc_Exact H2) as [H3 _]; [lia|].
  destruct (shr_fexp F32.prec F32.emax _ e' loc_Exact) as [mrs'' e''] eqn:E2. simpl in H3.
  destruct (shr_m mrs'') as [|q|q]; try lia.
  destruct (e'' <=? _); eauto.
Qed.

Lemma of_Z_pos z :
  0 < z →
  (∃ m e, F32.of_Z z = S754_finite false m e) ∨ F32.of_Z z = S754_infinity false.
Proof.
  intros Hz. destruct z as [|p|p]; try lia. unfold F32.of_Z. simpl binary_normalize.
  unfold binary_round.
  destruct (shl_align p 0 _) as [mz ez] eqn:Eal.
  apply binary_round_aux_pos; [lia|].
  unfold shl_align in Eal.
  destruct (fexp F32.prec F32.emax (Z.pos (digits2_pos p) + 0) - 0) as [|d|d] eqn:Ed;
    injection Eal as <- <-; unfold emin, fexp, F32.prec, F32.emax in *; lia.
Qed.

Lemma zero_div_pos z : 0 < z → F32.div F32.zero (F32.of_Z z) = F32.zero.
Proof. intros Hz. by destruct (of_Z_pos z Hz) as [(m & e & ->) | ->]. Qed.

Lemma calculate_packet_loss_rate_same sent :
  0 ≤ sent → TestFramework.calculate_packet_loss_rate sent sent = F32.zero.
Proof.
  intros Hs. unfold TestFramework.calculate_packet_loss_rate.
  destruct (Z.eqb_spec sent 0); [done|].
  rewrite Z.sub_diag. change (F32.of_Z (wrap32 0)) with F32.zero.
  rewrite zero_div_pos by lia. reflexivity.
Qed.
End f32.

(** ** The reply to a ping *)

Lemma le_value_le_bytes n v : le_value (le_bytes n v) = v mod 2 ^ (8 * Z.of_nat n).
Proof.
  revert v. induction n as [|n IH]; intros v.
  - simpl. by rewrite Z.mod_1_r.
  - cbn [le_bytes le_value]. rewrite IH.
    change 255 with (Z.ones 8). rewrite !Z.land_ones by lia.
    rewrite Z.mod_mod by lia.
    apply Z.bits_inj'. intros k Hk.
    rewrite Z.lor_spec, Z.shiftl_spec by lia.
    destruct (Z.lt_ge_cases k 8) as [Hlt|Hge].
    + rewrite Z.mod_pow2_bits_low by lia.
      rewrite (Z.testbit_neg_r _ (k - 8)) by lia.
      rewrite Z.mod_pow2_bits_low by lia. by rewrite orb_false_r.
    + rewrite (Z.mod_pow2_bits_high _ 8) by lia. simpl.
      destruct (Z.lt_ge_cases k (8 * Z.of_nat (S n))) as [Hlt|Hge'].
      * rewrite !Z.mod_pow2_bits_low by lia. rewrite Z.shiftr_spec by lia.
        f_equal. lia.
      * rewrite !Z.mod_pow2_bits_high by lia. done.
Qed.

Section pong.
Context `{EspIdf}.

(** A send that passes the guards and finds room in the queue. *)
Lemma send_message_room others mac type data (s : System) :
  initialized_ (mgr s) = true →
  Z.of_nat (length data) ≤ PAYLOAD_CAPACITY →
  Z.of_nat (length (send_queue_ (mgr s))) < QUEUE_LENGTH →
  ∃ msg,
    send_message others mac type data s
    = (ESP_OK,
       upd_mgr (upd_send_queue (λ q, q ++ [Queued mac msg]))
         (upd_mgr (upd_sequence_counter (wrap32 (sequence_counter_ (mgr s) + 1))) s))
    ∧ msg_type msg = type
    ∧ sequence_number msg = sequence_counter_ (mgr s)
    ∧ timestamp_us msg = esp_timer s
    ∧ payload_length msg = Z.of_nat (length data)
    ∧ take (length data) (payload msg) = data.
Proof.
  intros Hinit Hlen Hroom. eexists. split.
  - unfold send_message, xQueueSend_send_queue, bind, gets, modify, ret. simpl.
    rewrite Hinit. simpl.
    destruct (Z.ltb_spec PAYLOAD_CAPACITY (Z.of_nat (length data))); [lia|]. simpl.
    destruct (Z.ltb_spec (Z.of_nat (length (send_queue_ (mgr s)))) QUEUE_LENGTH); [|lia].
    simpl. reflexivity.
  - simpl. split_and!; try done. by rewrite take_app_length.
Qed.

(** C7: one step of the inbound worker with a ping at the head of the
    queue, on an initialised manager whose outbound queue has room.  In
    that same step the ping leaves the inbound queue and a pong is put
    at the end of the outbound queue, addressed to the sender of the
    ping; its payload is the four bytes of the sequence number in the
    ping's header, least significant first. *)
Theorem ping_is_answered_with_pong others item rest (s : System) :
  receive_queue_ (mgr s) = item :: rest →
  msg_type (q_msg item) = ESP_NOW_MSG_TYPE_PING →
  initialized_ (mgr s) = true →
  Z.of_nat (length (send_queue_ (mgr s))) < QUEUE_LENGTH →
  let s' := (receive_task_step others s).2 in
  ∃ pong,
    send_queue_ (mgr s') = send_queue_ (mgr s) ++ [Queued (q_mac_addr item) pong]
    ∧ receive_queue_ (mgr s') = rest
    ∧ msg_type pong = ESP_NOW_MSG_TYPE_PONG
    ∧ payload_length pong = 4
    ∧ take 4 (payload pong) = le_bytes 4 (sequence_number (q_msg item))
    ∧ le_value (take 4 (payload pong)) = wrap32 (sequence_number (q_msg item)).
Proof.
  intros Hq Hty Hinit Hroom s'.
  set (s1 := upd_mgr (upd_receive_queue tail) s).
  assert (Hs' : s' = (receive_task_handle others item s1).2).
  { unfold s', receive_task_step, bind at 1, gets. cbn [fst snd compose]. by rewrite Hq. }
  destruct (send_message_room others (q_mac_addr item) ESP_NOW_MSG_TYPE_PONG
              (le_bytes 4 (sequence_number (q_msg item))) s1)
    as (pong & Hsend & Hpty & _ & _ & Hplen & Hpay); try done.
  exists pong.
  assert (Hqs : send_queue_ (mgr s') = send_queue_ (mgr s) ++ [Queued (q_mac_addr item) pong]
                ∧ receive_queue_ (mgr s') = rest).
  { rewrite Hs'. unfold receive_task_handle.
    apply (after_bind (λ s', send_queue_ (mgr s') = _ ∧ receive_queue_ (mgr s') = _));
      [| intros; unfold emit; frame].
    rewrite Hty. cbn [Z.eqb Pos.eqb ESP_NOW_MSG_TYPE_PING
                      ESP_NOW_MSG_TYPE_DISCOVERY_REQUEST ESP_NOW_MSG_TYPE_DISCOVERY_RESPONSE].
    unfold bind. rewrite Hsend. simpl. by rewrite Hq. }
  destruct Hqs as [Hsq Hrq].
  change (length (le_bytes 4 (sequence_number (q_msg item)))) with 4%nat in Hpay, Hplen.
  split_and!; try done.
  rewrite Hpay, le_value_le_bytes. done.
Qed.
End pong.

(** ** The test framework *)

Lemma preserves_lift (P : TestFramework.t → Prop) {A} (m : ST System A) :
  (∀ f v, P f → P (TestFramework.upd_sys v f)) → preserves P (TestFramework.lift m).
Proof. intros HP f Hf. by apply HP. Qed.

(** A manager operation run by the framework keeps what it keeps. *)
Lemma lift_keeps {A B} (view : System → B) (m : ST System A) v :
  preserves (λ s, view s = v) m →
  preserves (λ f, view (TestFramework.sys f) = v) (TestFramework.lift m).
Proof. intros Hm f Hf. by apply Hm. Qed.

Ltac frame_fw :=
  repeat first
    [ preserve_step
    | apply preserves_lift; intros ? ? Hs; exact Hs
    | apply preserves_modify; intros ? Hs; exact Hs ].

Section suite.
Context `{EspIdf}.

Lemma get_peers_empty (s : System) : peers_ (mgr s) = [] → (get_peers s).1 = [].
Proof.
  intros Hp. unfold get_peers, xSemaphoreTake, xSemaphoreGive, bind, gets, modify, ret; simpl.
  by destruct (peers_mutex_ (mgr s)).
Qed.

Lemma get_peers_radio v : preserves (λ s, radio_view s = v) get_peers.
Proof. unfold get_peers, xSemaphoreTake, xSemaphoreGive, advance. frame. Qed.

Lemma framework_suite_needs_a_peer (f : TestFramework.t) :
  peers_ (mgr (TestFramework.sys f)) = [] →
  let r := TestFramework.run_all_performance_tests f in
  r.1 = ESP_ERR_NOT_FOUND
  ∧ TestFramework.test_results_ r.2 = TestFramework.test_results_ f
  ∧ TestFramework.callbacks r.2 = TestFramework.callbacks f
  ∧ radio_view (TestFramework.sys r.2) = radio_view (TestFramework.sys f)
  ∧ (peers_mutex_ (mgr (TestFramework.sys f)) = false → r.2 = f).
Proof.
  intros Hp r.
  assert (Hr : r = (ESP_ERR_NOT_FOUND, (TestFramework.lift get_peers f).2)).
  { unfold r, TestFramework.run_all_performance_tests, bind.
    change (TestFramework.lift get_peers f).1 with (get_peers (TestFramework.sys f)).1.
    by rewrite get_peers_empty. }
  rewrite Hr. simpl. split_and!; try done.
  - by apply get_peers_radio.
  - intros Hm. rewrite get_peers_free by done. by destruct f.
Qed.

(** *** The reliability scenario *)

Lemma store_result_free res (f : TestFramework.t) :
  TestFramework.results_mutex_ f = false →
  TestFramework.store_result res f = (tt, TestFramework.upd_test_results (λ rs, rs ++ [res]) f).
Proof. intros Hm. unfold TestFramework.store_result, bind, gets. simpl. by rewrite Hm. Qed.

Lemma reliability_iteration_log v name target count interval i acc :
  preserves (λ f, log_view f = v)
    (TestFramework.reliability_iteration name target count interval i acc).
Proof. unfold TestFramework.reliability_iteration, TestFramework.notify_progress, TestFramework.delay. frame_fw. Qed.

Lemma notify_completed_log v res : preserves (λ f, log_view f = v) (TestFramework.notify_completed res).
Proof. unfold TestFramework.notify_completed. frame_fw. Qed.

Lemma reliability_result_is_always_a_pass name target packet_count interval_ms
    (f : TestFramework.t) :
  TestFramework.results_mutex_ f = false →
  let r := TestFramework.run_reliability_test name target packet_count interval_ms f in
  r.1 = ESP_OK
  ∧ ∃ res,
      TestFramework.test_results_ r.2 = TestFramework.test_results_ f ++ [res]
      ∧ avg_packet_loss_percent res = F32.zero
      ∧ packet_loss_rates res = [F32.zero]
      ∧ reliability_passed res = true.
Proof.
  intros Hm r. split; [done|].
  unfold r, TestFramework.run_reliability_test.
  unfold bind at 1. cbn [fst snd TestFramework.get_timestamp_us TestFramework.lift get_timestamp_us gets].
  unfold bind at 1.
  set (L := for_loop _ _ _ _ _).
  assert (Hlog : log_view L.2 = log_view f).
  { unfold L. apply (preserves_for_loop (λ f', log_view f' = log_view f)); [|].
    - intros i a. apply reliability_iteration_log.
    - destruct f; done. }
  assert (Hacc : 0 ≤ L.1.2 ∧ packet_loss_rates L.1.1 = []).
  { unfold L.
    apply (for_loop_invariant (λ _ a _, 0 ≤ a.2 ∧ packet_loss_rates a.1 = [])
             (Z.to_nat packet_count) 0); [done|].
    intros j a t [Ha Hl]. unfold TestFramework.reliability_iteration, bind. simpl. split; [|done].
    destruct (is_ok _); [apply Z.mod_pos_bound|]; done. }
  clearbody L. injection Hlog as Hm1 Hr1. rewrite Hm in Hm1.
  destruct Hacc as [Hacc Hrates].
  unfold bind at 1. cbn [fst snd TestFramework.get_timestamp_us TestFramework.lift get_timestamp_us gets].
  rewrite calculate_packet_loss_rate_same by done.
  unfold bind at 1. rewrite store_result_free by (simpl; done).
  eexists. split.
  - apply (after_bind (λ f', TestFramework.test_results_ f' = _)); [|intros; apply preserves_ret].
    set (res := TestFramework.with_reliability _ _ _).
    pose proof (notify_completed_log (false, TestFramework.test_results_ f ++ [res]) res) as Hn.
    specialize (Hn (TestFramework.upd_test_results (λ rs, rs ++ [res]) (TestFramework.upd_sys (TestFramework.sys L.2) L.2))).
    unfold log_view in Hn. simpl in Hn. rewrite Hm1, Hr1 in Hn.
    specialize (Hn eq_refl). injection Hn as _ Hn. exact Hn.
  - simpl. rewrite Hrates. split_and!; reflexivity.
Qed.

(** What the tasks and callbacks that run while a call waits leave
    alone: whether the manager is initialised, whether discovery is on. *)
Lemma workers_keep_the_switches (i a : bool) :
  preserves (λ s, initialized_ (mgr s) = i ∧ discovery_active_ (mgr s) = a) yield.
Proof.
  unfold yield, run_events. frame. destruct x; cbn [run_event].
  all: unfold esp_now_recv_cb, esp_now_send_cb, receive_task_step,
         receive_task_handle, send_task_step, discovery_task_step,
         peer_cleanup_sweep, notify_peer_discovered, send_discovery_request,
         add_peer_internal, remove_peer, get_peers, update_peer_stats,
         send_message, xQueueSend_send_queue, xQueueSend_receive_queue,
         esp_now_send, esp_now_add_peer, esp_now_del_peer,
         xSemaphoreTake, xSemaphoreGive, get_timestamp_us, nobody,
         advance, emit.
  all: frame.
Qed.

(** One turn of the packet loop of the reliability scenario: one send
    attempt whose payload is the number of the turn, counted if the
    call succeeded; the progress callback; the wait. *)
Lemma reliability_turn name target count interval i acc (f : TestFramework.t) :
  let attempt := send_message yield target ESP_NOW_MSG_TYPE_TEST_DATA (le_bytes 4 i)
                   (TestFramework.sys f) in
  let turn := TestFramework.reliability_iteration name target count interval i acc f in
  turn.1.2 = (if is_ok attempt.1 then wrap32 (acc.2 + 1) else acc.2)
  ∧ turn.1.1 = TestFramework.with_iterations_completed (wrap32 (i + 1)) acc.1
  ∧ TestFramework.sys turn.2 = (vTaskDelay yield interval attempt.2).2
  ∧ TestFramework.callbacks turn.2
    = TestFramework.callbacks f
      ++ (if TestFramework.test_progress_callback_ f
          then [TestFramework.TestProgress name (wrap32 (i + 1)) count] else [])
  ∧ TestFramework.test_results_ turn.2 = TestFramework.test_results_ f
  ∧ TestFramework.results_mutex_ turn.2 = TestFramework.results_mutex_ f
  ∧ TestFramework.test_progress_callback_ turn.2 = TestFramework.test_progress_callback_ f
  ∧ TestFramework.test_completed_callback_ turn.2
    = TestFramework.test_completed_callback_ f.
Proof.
  intros attempt turn.
  unfold turn, attempt, TestFramework.reliability_iteration,
    TestFramework.notify_progress, TestFramework.delay, TestFramework.lift,
    bind, gets, modify, ret.
  cbn [fst snd TestFramework.test_progress_callback_ TestFramework.upd_sys].
  destruct (TestFramework.test_progress_callback_ f) eqn:Hpg;
    cbn [fst snd when ret modify TestFramework.test_progress_callback_
         TestFramework.upd_sys TestFramework.upd_callbacks TestFramework.sys
         TestFramework.callbacks TestFramework.test_results_
         TestFramework.results_mutex_ TestFramework.test_completed_callback_];
    rewrite ?app_nil_r; split_and!; first [reflexivity | exact Hpg].
Qed.

(** The packet loop as a whole. *)
Lemma reliability_loop name target count interval now (f : TestFramework.t) :
  0 ≤ count < 2 ^ 32 →
  let L := for_loop (Z.to_nat count) 0
             (TestFramework.reliability_iteration name target count interval)
             (started name now count, 0) f in
  iterations_completed L.1.1 = count
  ∧ iterations_total L.1.1 = count
  ∧ 0 ≤ L.1.2 ≤ count
  ∧ TestFramework.callbacks L.2
    = TestFramework.callbacks f
      ++ (if TestFramework.test_progress_callback_ f
          then (λ k, TestFramework.TestProgress name (k + 1) count) <$> seqZ 0 count
          else [])
  ∧ TestFramework.test_completed_callback_ L.2 = TestFramework.test_completed_callback_ f.
Proof.
  intros Hc L.
  pose proof (for_loop_invariant
    (λ j a t, 0 ≤ j ∧ (j ≤ count →
       iterations_completed a.1 = j ∧ iterations_total a.1 = count ∧ 0 ≤ a.2 ≤ j
       ∧ TestFramework.callbacks t
         = TestFramework.callbacks f
           ++ (if TestFramework.test_progress_callback_ f
               then (λ k, TestFramework.TestProgress name (k + 1) count) <$> seqZ 0 j
               else [])
       ∧ TestFramework.test_progress_callback_ t = TestFramework.test_progress_callback_ f
       ∧ TestFramework.test_completed_callback_ t
         = TestFramework.test_completed_callback_ f))
    (Z.to_nat count) 0
    (TestFramework.reliability_iteration name target count interval)
    (started name now count, 0) f) as Hinv.
  fold L in Hinv. rewrite Z.add_0_l, Z2Nat.id in Hinv by lia.
  destruct Hinv as [_ Hinv].
  - split; [lia|]. intros _. cbn. rewrite seqZ_nil by lia.
    destruct (TestFramework.test_progress_callback_ f); by rewrite ?app_nil_r.
  - intros j a t [Hj Ha]. split; [lia|]. intros Hj1.
    destruct Ha as (Hic & Hit & Hcnt & Hcb & Hpg & Hcc); [lia|].
    destruct (reliability_turn name target count interval j a t)
      as (Hn & Hr & _ & Hcb' & _ & _ & Hpg' & Hcc').
    rewrite Hn, Hr, Hcb', Hpg', Hcc', Hpg, Hcb.
    assert (Hw : wrap32 (j + 1) = j + 1) by (apply Z.mod_small; lia).
    rewrite Hw. split_and!; try done.
    + destruct (is_ok _); [|lia].
      unfold wrap32. rewrite Z.mod_small by lia. lia.
    + destruct (is_ok _); [|lia].
      unfold wrap32. rewrite Z.mod_small by lia. lia.
    + destruct (TestFramework.test_progress_callback_ f); [|by rewrite app_nil_r].
      rewrite <- app_assoc. f_equal.
      rewrite (seqZ_app 0 j 1) by lia. by rewrite fmap_app.
  - destruct Hinv as (? & ? & ? & ? & _ & ?); [lia|]. done.
Qed.

(** With the manager not initialised no send call succeeds. *)
Lemma reliability_loop_off name target count interval n i acc (f : TestFramework.t) :
  initialized_ (mgr (TestFramework.sys f)) = false →
  (for_loop n i (TestFramework.reliability_iteration name target count interval)
     acc f).1.2 = acc.2.
Proof.
  intros Hi.
  apply (for_loop_invariant
    (λ _ a t, initialized_ (mgr (TestFramework.sys t)) = false ∧ a.2 = acc.2)
    n i (TestFramework.reliability_iteration name target count interval) acc f);
    [done|].
  intros j a t [Ht Ha].
  destruct (reliability_turn name target count interval j a t)
    as (Hn & _ & Hs & _).
  rewrite Hn, Hs.
  assert (Hoff : send_message yield target ESP_NOW_MSG_TYPE_TEST_DATA (le_bytes 4 j)
                   (TestFramework.sys t) = (ESP_ERR_INVALID_STATE, TestFramework.sys t)).
  { unfold send_message. rewrite run_gets. cbn [compose]. by rewrite Ht. }
  rewrite Hoff.
  cbn [fst snd]. split; [|done].
  unfold vTaskDelay, advance. rewrite run_modify.
  by apply (workers_keep_the_switches false (discovery_active_ (mgr (TestFramework.sys t)))).
Qed.

(** The counter of successful send calls never goes down. *)
Lemma reliability_loop_grows name target count interval n i acc (f : TestFramework.t) :
  0 ≤ i → i + Z.of_nat n < 2 ^ 32 → 1 ≤ acc.2 ≤ i →
  1 ≤ (for_loop n i (TestFramework.reliability_iteration name target count interval)
         acc f).1.2.
Proof.
  intros Hi Hn Hacc.
  pose proof (for_loop_invariant
    (λ j a _, j ≤ i + Z.of_nat n → 1 ≤ a.2 ≤ j)
    n i (TestFramework.reliability_iteration name target count interval) acc f) as Hinv.
  apply Hinv; [done | | lia].
  intros j a t Ha Hj.
  destruct (reliability_turn name target count interval j a t) as (Hs & _).
  rewrite Hs. destruct (is_ok _); [|lia].
  unfold wrap32. rewrite Z.mod_small by lia. lia.
Qed.

(** The result the reliability scenario files, from its packet loop. *)
Lemma reliability_result name target packet_count interval_ms (f : TestFramework.t) :
  TestFramework.results_mutex_ f = false →
  let start := TestFramework.get_timestamp_us f in
  let L := for_loop (Z.to_nat packet_count) 0
             (TestFramework.reliability_iteration name target packet_count interval_ms)
             (started name start.1 packet_count, 0) start.2 in
  let r := TestFramework.run_reliability_test name target packet_count interval_ms f in
  r.1 = ESP_OK
  ∧ ∃ res,
      TestFramework.test_results_ r.2 = TestFramework.test_results_ f ++ [res]
      ∧ avg_packet_loss_percent res = F32.zero
      ∧ packet_loss_rates res = [F32.zero]
      ∧ reliability_passed res = true
      ∧ status res = (if 0 <? L.1.2 then TEST_STATUS_COMPLETED else TEST_STATUS_FAILED)
      ∧ iterations_completed res = iterations_completed L.1.1
      ∧ iterations_total res = iterations_total L.1.1
      ∧ TestFramework.callbacks r.2
        = TestFramework.callbacks L.2
          ++ (if TestFramework.test_completed_callback_ L.2
              then [TestFramework.TestCompleted res] else []).
Proof.
  intros Hm start L r. split; [done|].
  unfold r, TestFramework.run_reliability_test.
  rewrite run_bind. fold start. rewrite run_bind. fold L.
  assert (Hlog : log_view L.2 = log_view f).
  { unfold L. apply (preserves_for_loop (λ f', log_view f' = log_view f)); [|].
    - intros i a. apply reliability_iteration_log.
    - destruct f; done. }
  assert (Hacc : 0 ≤ L.1.2 ∧ packet_loss_rates L.1.1 = []).
  { unfold L.
    apply (for_loop_invariant (λ _ a _, 0 ≤ a.2 ∧ packet_loss_rates a.1 = [])
             (Z.to_nat packet_count) 0); [done|].
    intros j a t [Ha Hl].
    destruct (reliability_turn name target packet_count interval_ms j a t)
      as (Hn & Hr & _).
    rewrite Hn, Hr. split; [|done].
    destruct (is_ok _); [apply Z.mod_pos_bound|]; done. }
  clearbody L. clear start. injection Hlog as Hm1 Hr1. rewrite Hm in Hm1.
  destruct Hacc as [Hacc Hrates].
  rewrite run_bind.
  cbn [fst snd TestFramework.get_timestamp_us TestFramework.lift get_timestamp_us gets].
  rewrite calculate_packet_loss_rate_same by done.
  match goal with |- context [TestFramework.store_result ?x] => set (res := x) end.
  exists res.
  rewrite run_bind, store_result_free by (cbn; done). cbn [fst snd].
  unfold TestFramework.notify_completed. rewrite run_assoc, run_gets.
  cbn [TestFramework.test_completed_callback_ TestFramework.upd_test_results
       TestFramework.upd_sys].
  assert (Hfields : avg_packet_loss_percent res = F32.zero
                    ∧ packet_loss_rates res = [F32.zero]
                    ∧ reliability_passed res = true
                    ∧ status res = (if 0 <? L.1.2 then TEST_STATUS_COMPLETED
                                    else TEST_STATUS_FAILED)
                    ∧ iterations_completed res = iterations_completed L.1.1
                    ∧ iterations_total res = iterations_total L.1.1).
  { unfold res. cbn. rewrite Hrates. split_and!; reflexivity. }
  clearbody res. destruct Hfields as (? & ? & ? & ? & ? & ?).
  destruct (TestFramework.test_completed_callback_ L.2); cbn.
  - rewrite Hr1. split_and!; done.
  - rewrite Hr1, app_nil_r. split_and!; done.
Qed.

(** *** [PerformanceTests::run_full_performance_suite] *)

Lemma discovery_suite_returns_ok (p : PerformanceTests.t) :
  (PerformanceTests.run_discovery_test_suite p).1.1 = ESP_OK.
Proof. reflexivity. Qed.

Lemma run_full_performance_suite_unfold (p : PerformanceTests.t) :
  PerformanceTests.run_full_performance_suite p
  = after_discovery (PerformanceTests.run_discovery_test_suite p).1
      (PerformanceTests.run_discovery_test_suite p).2.
Proof.
  unfold PerformanceTests.run_full_performance_suite. unfold bind at 1.
  unfold after_discovery. reflexivity.
Qed.

Lemma after_discovery_without_peers discovery (p : PerformanceTests.t) :
  discovery.1 = ESP_OK →
  peers_ (mgr (PerformanceTests.sys p)) = [] →
  after_discovery discovery p
  = (ESP_ERR_NOT_FOUND, (PerformanceTests.lift get_peers p).2).
Proof.
  intros Hd Hp. unfold after_discovery. rewrite Hd.
  change (negb (is_ok ESP_OK)) with false. cbv iota. unfold bind at 1.
  assert (Hl : (PerformanceTests.lift get_peers p).1 = []).
  { unfold PerformanceTests.lift. cbn [fst]. by apply get_peers_empty. }
  by rewrite Hl.
Qed.

Lemma performance_suite_stops_without_peers (p : PerformanceTests.t) :
  let d := PerformanceTests.run_discovery_test_suite p in
  peers_ (mgr (PerformanceTests.sys d.2)) = [] →
  let r := PerformanceTests.run_full_performance_suite p in
  r.1 = ESP_ERR_NOT_FOUND
  ∧ radio_view (PerformanceTests.sys r.2) = radio_view (PerformanceTests.sys d.2)
  ∧ PerformanceTests.test_active_ r.2 = PerformanceTests.test_active_ d.2.
Proof.
  intros d Hp r.
  assert (Hr : r = (ESP_ERR_NOT_FOUND, (PerformanceTests.lift get_peers d.2).2)).
  { unfold r. rewrite run_full_performance_suite_unfold.
    exact (after_discovery_without_peers d.1 d.2 (discovery_suite_returns_ok p) Hp). }
  rewrite Hr. clear Hr r. clearbody d.
  unfold PerformanceTests.lift. cbn [fst snd].
  split_and!; [done | by apply get_peers_radio | by destruct d.2].
Qed.
End suite.

(** ** The latency scenario *)

Section latency.
Context `{EspIdf}.

Lemma send_ping_uninitialized others mac (s : System) :
  initialized_ (mgr s) = false →
  send_ping others mac s = (ESP_ERR_INVALID_STATE, s).
Proof.
  intros Hi. unfold send_ping, send_message, bind, gets. simpl. by rewrite Hi.
Qed.

Lemma latency_iteration_log v name target count i acc :
  preserves (λ f, log_view f = v) (TestFramework.latency_iteration name target count i acc).
Proof. unfold TestFramework.latency_iteration, TestFramework.notify_progress, TestFramework.delay, TestFramework.get_timestamp_us. frame_fw. Qed.






(** *** [PerformanceTests::test_ping_pong_latency] *)



End latency.

(** ** Guards of the manager *)

Section guards.
Context `{EspIdf}.

(** C2: a payload longer than the frame's payload capacity (234 bytes: the
    253-byte frame less its 15 header bytes and its 4 checksum bytes) makes
    [send_message], on an initialised manager, fail with
    [ESP_ERR_INVALID_SIZE]; nothing is enqueued and the whole state, the
    outbound queue, the sequence counter and the peer table included, is
    as before. *)
Theorem oversized_payload_is_rejected others mac type data (s : System) :
  initialized_ (mgr s) = true →
  PAYLOAD_CAPACITY < Z.of_nat (length data) →
  PAYLOAD_CAPACITY = 234
  ∧ PAYLOAD_CAPACITY = MESSAGE_SIZE - (1 + 4 + 8 + 2) - 4
  ∧ send_message others mac type data s = (ESP_ERR_INVALID_SIZE, s).
Proof.
  intros Hi Hl. split_and!; [done | done |].
  unfold send_message, bind, gets, ret. simpl. rewrite Hi. simpl.
  destruct (Z.ltb_spec PAYLOAD_CAPACITY (Z.of_nat (length data))); [done | lia].
Qed.

(** Before [initialize] the same call is turned away one check earlier,
    and leaves the state alone as well. *)
Remark send_on_uninitialized_manager others mac type data (s : System) :
  initialized_ (mgr s) = false →
  send_message others mac type data s = (ESP_ERR_INVALID_STATE, s).
Proof. intros Hi. unfold send_message, bind, gets. simpl. by rewrite Hi. Qed.

(** C3: a received frame whose recomputed checksum differs from its
    [crc32] field is dropped by the receive callback without any change of
    state: nothing is queued for the inbound worker, no callback runs, no
    peer record is made or refreshed, no counter moves. *)
Theorem corrupted_frame_is_dropped src data (s : System) :
  wrap32 (esp_crc32_le 0 (take (Z.to_nat (Z.of_nat (length data) - 4)) data))
    ≠ crc32 (frame_of_bytes data) →
  esp_now_recv_cb src data s = (tt, s)
  ∧ run_event (EvRecv src data) s = (tt, s).
Proof.
  intros Hc.
  assert (Hcb : esp_now_recv_cb src data s = (tt, s)).
  { unfold esp_now_recv_cb.
    destruct (Z.of_nat (length data) <? MESSAGE_SIZE); [done|].
    by destruct (Z.eqb_spec
      (wrap32 (esp_crc32_le 0 (take (Z.to_nat (Z.of_nat (length data) - 4)) data)))
      (crc32 (frame_of_bytes data))). }
  split; [done|].
  unfold run_event, bind, gets. cbn [fst snd compose].
  by destruct (initialized_ (mgr s)).
Qed.

(** C9: [initialize] on an initialised manager returns [ESP_OK] and leaves
    the whole state, the peer table, the statistics, the queues and the
    sequence counter included, as it was. *)
Theorem initialize_is_idempotent env channel (s : System) :
  initialized_ (mgr s) = true →
  initialize env channel s = (ESP_OK, s).
Proof. intros Hi. unfold initialize, bind, gets. simpl. by rewrite Hi. Qed.
End guards.

(** ** The scenarios of the test framework *)

Section scenarios.
Context `{EspIdf}.


(** C5, as the code has it.  The scenario makes [packet_count] turns,
    numbered from 0.  Turn [i] makes one send attempt whose payload is
    the four bytes of [i], counts it if the send call returned
    [ESP_OK], reports progress [i + 1] and waits [interval_ms].  The
    status of the result is [Failed] exactly when no send call was
    counted: always when the manager is not initialised, never when
    the first attempt finds the manager running with room in its
    queue.  The loss rate is taken from the number of packets counted
    and the number acknowledged, and every counted packet is taken as
    acknowledged; so the rate is 0.0 and [reliability_passed] is true
    whatever share of the send calls failed.  The comparison with the
    threshold is strict: a rate of exactly 1.0 does not pass, 0.99
    does. *)
Theorem reliability_loss_rate_is_always_zero name target packet_count interval_ms
    (f : TestFramework.t) :
  TestFramework.results_mutex_ f = false →
  let start := TestFramework.get_timestamp_us f in
  let turns := for_loop (Z.to_nat packet_count) 0
                 (TestFramework.reliability_iteration name target packet_count
                    interval_ms)
                 (started name start.1 packet_count, 0) start.2 in
  let sent := turns.1.2 in
  let r := TestFramework.run_reliability_test name target packet_count interval_ms f in
  (r.1 = ESP_OK
   ∧ ∃ res,
       TestFramework.test_results_ r.2 = TestFramework.test_results_ f ++ [res]
       ∧ avg_packet_loss_percent res = F32.zero
       ∧ packet_loss_rates res = [F32.zero]
       ∧ reliability_passed res = true
       ∧ status res = (if 0 <? sent then TEST_STATUS_COMPLETED else TEST_STATUS_FAILED)
       ∧ (0 ≤ packet_count < 2 ^ 32 →
          iterations_total res = packet_count
          ∧ iterations_completed res = packet_count
          ∧ 0 ≤ sent ≤ packet_count
          ∧ TestFramework.callbacks r.2
            = TestFramework.callbacks f
              ++ (if TestFramework.test_progress_callback_ f
                  then (λ k, TestFramework.TestProgress name (k + 1) packet_count)
                         <$> seqZ 0 packet_count
                  else [])
              ++ (if TestFramework.test_completed_callback_ f
                  then [TestFramework.TestCompleted res] else [])))
  ∧ (∀ i acc (f' : TestFramework.t),
       let attempt := send_message yield target ESP_NOW_MSG_TYPE_TEST_DATA
                        (le_bytes 4 i) (TestFramework.sys f') in
       let turn := TestFramework.reliability_iteration name target packet_count
                     interval_ms i acc f' in
       turn.1.2 = (if is_ok attempt.1 then wrap32 (acc.2 + 1) else acc.2)
       ∧ iterations_completed turn.1.1 = wrap32 (i + 1)
       ∧ TestFramework.sys turn.2 = (vTaskDelay yield interval_ms attempt.2).2
       ∧ TestFramework.callbacks turn.2
         = TestFramework.callbacks f'
           ++ (if TestFramework.test_progress_callback_ f'
               then [TestFramework.TestProgress name (wrap32 (i + 1)) packet_count]
               else []))
  ∧ (initialized_ (mgr (TestFramework.sys f)) = false → sent = 0)
  ∧ (initialized_ (mgr (TestFramework.sys f)) = true →
     Z.of_nat (length (send_queue_ (mgr (TestFramework.sys f)))) < QUEUE_LENGTH →
     0 < packet_count < 2 ^ 32 →
     1 ≤ sent)
  ∧ (∀ n, 0 ≤ n → TestFramework.calculate_packet_loss_rate n n = F32.zero)
  ∧ TestFramework.calculate_packet_loss_rate 100 99 = F32.of_Z 1
  ∧ TestFramework.reliability_passes (TestFramework.calculate_packet_loss_rate 100 99) = false
  ∧ TestFramework.reliability_passes (TestFramework.calculate_packet_loss_rate 10000 9901) = true.
Proof.
  intros Hm start turns sent r.
  split; [|split; [|split; [|split; [|split_and!]]]].
  - destruct (reliability_result name target packet_count interval_ms f Hm)
      as (Hr & res & Hres & Havg & Hrates & Hpass & Hst & Hic & Hit & Hcb).
    fold start in Hst, Hic, Hit, Hcb. fold turns in Hst, Hic, Hit, Hcb.
    fold r in Hr, Hres, Hcb.
    split; [exact Hr|]. exists res.
    split; [exact Hres|]. split; [exact Havg|]. split; [exact Hrates|].
    split; [exact Hpass|]. split; [exact Hst|].
    intros Hc.
    destruct (reliability_loop name target packet_count interval_ms start.1 start.2 Hc)
      as (Lic & Lit & Lcnt & Lcb & Lcc).
    fold turns in Lic, Lit, Lcnt, Lcb, Lcc.
    subst sent. clearbody turns r.
    rewrite Hit, Hic, Lic, Lit, Hcb, Lcb, Lcc.
    split; [done|]. split; [done|]. split; [exact Lcnt|].
    by rewrite <- app_assoc.
  - intros i acc f' attempt turn.
    destruct (reliability_turn name target packet_count interval_ms i acc f')
      as (Hn & Hr & Hs & Hcb & _).
    fold attempt in Hn, Hs. fold turn in Hn, Hr, Hs, Hcb.
    split; [exact Hn|]. split; [by rewrite Hr|]. split; [exact Hs | exact Hcb].
  - intros Hi. unfold sent, turns.
    exact (reliability_loop_off name target packet_count interval_ms
             (Z.to_nat packet_count) 0 (started name start.1 packet_count, 0)
             start.2 Hi).
  - intros Hi Hroom Hc. unfold sent, turns.
    destruct (Z.to_nat packet_count) as [|n] eqn:Hn; [lia|].
    cbn [for_loop]. rewrite run_bind.
    destruct (reliability_turn name target packet_count interval_ms 0
                (started name start.1 packet_count, 0) start.2) as (Hfirst & _).
    destruct (send_message_room yield target ESP_NOW_MSG_TYPE_TEST_DATA (le_bytes 4 0)
                (TestFramework.sys start.2) Hi) as (msg & Hsend & _);
      [by vm_compute | exact Hroom |].
    rewrite Hsend in Hfirst. cbn [fst snd is_ok] in Hfirst.
    set (first := TestFramework.reliability_iteration name target packet_count
                    interval_ms 0 (started name start.1 packet_count, 0) start.2) in *.
    clearbody first.
    apply reliability_loop_grows; [lia | lia |].
    rewrite Hfirst. by vm_compute.
  - apply calculate_packet_loss_rate_same.
  - by vm_compute.
  - by vm_compute.
  - by vm_compute.
Qed.

(** C6: entered with an empty peer table, the performance suite returns
    [ESP_ERR_NOT_FOUND] at once: no result is logged, no callback runs,
    nothing is sent (trace, agenda, outbound queue, sequence counter and
    statistics are as before), and with the mutex free the state is the
    same altogether.  [PerformanceTests::run_full_performance_suite]
    makes the same check after its discovery tests, and stops there. *)
Theorem performance_suite_needs_a_peer (f : TestFramework.t) :
  peers_ (mgr (TestFramework.sys f)) = [] →
  let r := TestFramework.run_all_performance_tests f in
  (r.1 = ESP_ERR_NOT_FOUND
   ∧ TestFramework.test_results_ r.2 = TestFramework.test_results_ f
   ∧ TestFramework.callbacks r.2 = TestFramework.callbacks f
   ∧ radio_view (TestFramework.sys r.2) = radio_view (TestFramework.sys f)
   ∧ (peers_mutex_ (mgr (TestFramework.sys f)) = false → r.2 = f))
  ∧ ∀ p : PerformanceTests.t,
      let d := PerformanceTests.run_discovery_test_suite p in
      peers_ (mgr (PerformanceTests.sys d.2)) = [] →
      let r' := PerformanceTests.run_full_performance_suite p in
      r'.1 = ESP_ERR_NOT_FOUND
      ∧ radio_view (PerformanceTests.sys r'.2) = radio_view (PerformanceTests.sys d.2)
      ∧ PerformanceTests.test_active_ r'.2 = PerformanceTests.test_active_ d.2.
Proof.
  intros Hp r. split.
  - exact (framework_suite_needs_a_peer f Hp).
  - intros p. exact (performance_suite_stops_without_peers p).
Qed.
End scenarios.

(** ** The properties at sample inputs *)

(** *** The manager *)

(** A payload of 235 bytes for a known peer. *)
Lemma oversized_payload_witness :
  let s := system_with [known_peer peer_a 0] [] [] in
  let data := replicate 235 0xAA in
  initialized_ (mgr s) = true
  ∧ PAYLOAD_CAPACITY < Z.of_nat (length data)
  ∧ @send_message rom nobody peer_a ESP_NOW_MSG_TYPE_TEST_DATA data s
    = (ESP_ERR_INVALID_SIZE, s).
Proof.
  intros s data. split; [reflexivity|]. split; [by vm_compute|].
  apply (@oversized_payload_is_rejected rom nobody peer_a ESP_NOW_MSG_TYPE_TEST_DATA data s);
    [reflexivity | by vm_compute].
Defined.

(** The ping of peer c with one byte changed. *)
Lemma corrupted_frame_witness :
  let s := system_with [known_peer peer_c 0] [] [] in
  wrap32 (rom_crc32_le 0 (take (Z.to_nat (Z.of_nat (length damaged_ping) - 4)) damaged_ping))
    ≠ crc32 (frame_of_bytes damaged_ping)
  ∧ @esp_now_recv_cb rom peer_c damaged_ping s = (tt, s)
  ∧ @run_event rom (EvRecv peer_c damaged_ping) s = (tt, s).
Proof.
  intros s.
  assert (Hc : wrap32 (rom_crc32_le 0
                 (take (Z.to_nat (Z.of_nat (length damaged_ping) - 4)) damaged_ping))
               ≠ crc32 (frame_of_bytes damaged_ping)) by (by vm_compute).
  split; [exact Hc|].
  exact (@corrupted_frame_is_dropped rom peer_c damaged_ping s Hc).
Defined.

(** A second [initialize] on a running manager with a peer and a full
    outbound queue. *)
Lemma initialize_witness :
  let s := system_with [known_peer peer_a 0] full_queue [] in
  initialized_ (mgr s) = true
  ∧ initialize radio_starts ESP_NOW_CHANNEL_5GHZ s = (ESP_OK, s).
Proof.
  intros s. split; [reflexivity|].
  apply (initialize_is_idempotent radio_starts ESP_NOW_CHANNEL_5GHZ s). reflexivity.
Defined.

(** Ping number 7 of peer c is answered with a pong that carries 7. *)
Lemma ping_pong_witness :
  receive_queue_ (mgr ping_waiting) = [Queued peer_c (frame_of_bytes ping_from_c)]
  ∧ msg_type (frame_of_bytes ping_from_c) = ESP_NOW_MSG_TYPE_PING
  ∧ initialized_ (mgr ping_waiting) = true
  ∧ Z.of_nat (length (send_queue_ (mgr ping_waiting))) < QUEUE_LENGTH
  ∧ ∃ pong,
      send_queue_ (mgr (@receive_task_step rom nobody ping_waiting).2)
      = [Queued peer_c pong]
      ∧ receive_queue_ (mgr (@receive_task_step rom nobody ping_waiting).2) = []
      ∧ msg_type pong = ESP_NOW_MSG_TYPE_PONG
      ∧ payload_length pong = 4
      ∧ take 4 (payload pong) = [7; 0; 0; 0]
      ∧ le_value (take 4 (payload pong)) = 7.
Proof.
  split; [reflexivity|]. split; [by vm_compute|]. split; [reflexivity|].
  split; [by vm_compute|].
  destruct (@ping_is_answered_with_pong rom nobody
              (Queued peer_c (frame_of_bytes ping_from_c)) [] ping_waiting)
    as (pong & Hq & Hr & Hty & Hlen & Hpay & Hval);
    [reflexivity | by vm_compute | reflexivity | by vm_compute |].
  exists pong. split_and!; [exact Hq | exact Hr | exact Hty | exact Hlen | exact Hpay | exact Hval].
Defined.

(** The same ping when twenty frames wait to be sent and none leaves
    during the second [send_message] waits: the ping is taken from the
    inbound queue and handed to the receive callback, and no pong is put
    in the outbound queue. *)
Lemma ping_without_room_gets_no_pong :
  let s := upd_mgr (upd_send_queue (λ _, full_queue)) ping_waiting in
  let s' := (@receive_task_step rom nobody s).2 in
  @valid_frame rom ping_from_c
  ∧ receive_queue_ (mgr s) = [Queued peer_c (frame_of_bytes ping_from_c)]
  ∧ msg_type (frame_of_bytes ping_from_c) = ESP_NOW_MSG_TYPE_PING
  ∧ initialized_ (mgr s) = true
  ∧ receive_queue_ (mgr s') = []
  ∧ trace s' = [IoReceiveCallback peer_c (frame_of_bytes ping_from_c)]
  ∧ send_queue_ (mgr s') = send_queue_ (mgr s)
  ∧ Forall (λ item, msg_type (q_msg item) ≠ ESP_NOW_MSG_TYPE_PONG) (send_queue_ (mgr s')).
Proof.
  intros s s'. split; [split; by vm_compute|].
  split; [reflexivity|]. split; [by vm_compute|]. split; [reflexivity|].
  assert (Hq : send_queue_ (mgr s') = full_queue) by (by vm_compute).
  split; [by vm_compute|]. split; [by vm_compute|]. split; [exact Hq|].
  rewrite Hq. repeat constructor; by vm_compute.
Qed.

(** Of two peers the one last heard seventy seconds ago goes, the one
    heard a second ago stays. *)
Lemma sweep_witness :
  peers_mutex_ (mgr one_stale_peer) = false
  ∧ unique_addresses one_stale_peer
  ∧ (get_peers one_stale_peer).1 = [known_peer peer_a 0; known_peer peer_b 69000000]
  ∧ (get_peers (peer_cleanup_sweep one_stale_peer).2).1
    = [known_peer peer_b 69000000].
Proof.
  assert (Hu : unique_addresses one_stale_peer).
  { apply NoDup_cons_2; [|apply NoDup_singleton].
    intros Hin. apply list_elem_of_singleton in Hin. discriminate Hin. }
  split; [reflexivity|]. split; [exact Hu|].
  destruct (sweep_removes_exactly_the_stale_peers one_stale_peer eq_refl Hu)
    as (Hb & Ha & _).
  split; [exact Hb|]. rewrite Ha, Hb. by vm_compute.
Defined.

(** A session from power-on in which peer b is heard twice and then added
    by hand. *)
Lemma unique_addresses_witness :
  unique_addresses power_on
  ∧ unique_addresses (@run_calls rom sample_session power_on).2.
Proof.
  assert (Hu : unique_addresses power_on) by apply NoDup_nil_2.
  split; [exact Hu|].
  exact (proj1 (@peer_addresses_stay_unique rom sample_session power_on Hu)).
Defined.

(** A ping and then three discovery requests from the address of peer b,
    unknown before: the ping leaves no trace, the first request creates
    the record, the two requests after it are counted. *)
Lemma frames_of_b_witness :
  let arrivals := Arrival 1000 ping_from_c 500 :: three_requests_from_b in
  let s := system_with [] [] [] in
  (∃ final, last arrivals = Some final)
  ∧ Forall (λ a, @valid_frame rom (frame_data a)) arrivals
  ∧ idle s
  ∧ unique_addresses s
  ∧ driver_accepts s
  ∧ let r := @process_frames rom peer_b arrivals 0 s in
    ∃ p, filter (λ q, mac_addr q = peer_b) (peers_ (mgr r.2)) = [p]
       ∧ last_seen_us p = r.1
       ∧ packets_received p = 2.
Proof.
  intros arrivals s.
  set (final := Arrival 1000 (discovery_requests_from_b !!! 2%nat) 500).
  assert (Hlast : last arrivals = Some final) by reflexivity.
  assert (Hok : Forall (λ a, @valid_frame rom (frame_data a)) arrivals).
  { repeat constructor; by vm_compute. }
  assert (Hidle : idle s) by done.
  assert (Hu : unique_addresses s) by apply NoDup_nil_2.
  assert (Hd : driver_accepts s) by apply Forall_nil_2.
  split; [by exists final|].
  split_and!; [exact Hok | exact Hidle | exact Hu | exact Hd |].
  pose proof (@frames_of_one_address_keep_one_record rom peer_b arrivals final s
                Hlast Hok Hidle Hu Hd) as Hthm.
  cbv zeta in Hthm.
  change (list_find (λ q, mac_addr q = peer_b) (peers_ (mgr s)))
    with (@None (nat * esp_now_peer_info_t)) in Hthm.
  assert (Hfirst : list_find (λ a, is_discovery (frame_data a) = true) arrivals
                   = Some (1%nat, Arrival 1000 (discovery_requests_from_b !!! 0%nat) 500))
    by (by vm_compute).
  rewrite Hfirst in Hthm.
  destruct Hthm as (p & Hp & Hseen & Hcnt).
  exists p. split; [exact Hp|]. split; [|exact Hcnt].
  rewrite Hseen. unfold seen_at.
  assert (Hdisc : is_discovery (frame_data final) = true) by (by vm_compute).
  by rewrite Hdisc.
Defined.

(** After three valid discovery requests of a new peer its record counts
    two received packets, while the manager has counted three; and a valid
    ping of an unknown peer is counted by the manager and leaves no record
    at all. *)
Lemma frames_that_are_not_counted :
  let r := @process_frames rom peer_b three_requests_from_b 0 (system_with [] [] []) in
  let r' := @process_frames rom peer_c [Arrival 1000 ping_from_c 500] 0
              (system_with [] [] []) in
  (Forall (λ a, @valid_frame rom (frame_data a)) three_requests_from_b
   ∧ map (λ p, (mac_addr p, packets_received p)) (peers_ (mgr r.2)) = [(peer_b, 2)]
   ∧ total_packets_received (statistics_ (mgr r.2)) = 3)
  ∧ (@valid_frame rom ping_from_c
     ∧ peers_ (mgr r'.2) = []
     ∧ total_packets_received (statistics_ (mgr r'.2)) = 1).
Proof.
  intros r r'. split; (split; [|by vm_compute]).
  - repeat constructor; by vm_compute.
  - by vm_compute.
Qed.

(** *** The scenarios *)


(** Against a peer that answers every ping the run ends with a hundred
    samples and nothing lost. *)
Example latency_against_a_replying_peer :
  let s := system_with [known_peer peer_a 0] [] replying_peer in
  let r := @TestFramework.run_latency_test rom "Latency Test - 100 pings" peer_a 100
             (framework_on s) in
  let q := @PerformanceTests.test_ping_pong_latency rom peer_a 100 (performance_on s) in
  (total_packets_received (statistics_ (mgr (TestFramework.sys r.2))) = 100
   ∧ map (λ res, (status res, length (latency_measurements res)))
         (TestFramework.test_results_ r.2) = [(TEST_STATUS_COMPLETED, 100%nat)])
  ∧ (PerformanceTests.packets_lost q.1.2 = 0
     ∧ length (PerformanceTests.latency_measurements q.1.2) = 100%nat).
Proof. by vm_compute. Qed.


(** A hundred packets to a known peer, one sent during each wait. *)
Lemma reliability_witness :
  let f := framework_on (system_with [known_peer peer_a 0] [] (late_sender 100)) in
  let r := @TestFramework.run_reliability_test rom "Reliability Test" peer_a 100 10 f in
  TestFramework.results_mutex_ f = false
  ∧ r.1 = ESP_OK
  ∧ ∃ res, TestFramework.test_results_ r.2 = [res]
         ∧ avg_packet_loss_percent res = F32.zero
         ∧ reliability_passed res = true
         ∧ status res = TEST_STATUS_COMPLETED
         ∧ iterations_completed res = 100.
Proof.
  intros f r. split; [reflexivity|].
  destruct (@reliability_loss_rate_is_always_zero rom "Reliability Test" peer_a 100 10
              f eq_refl)
    as ((Hr & res & Hres & Hz & _ & Hp & Hst & Hcount) & _ & _ & Hon & _).
  assert (Hroom : Z.of_nat (length (send_queue_ (mgr (TestFramework.sys f)))) < QUEUE_LENGTH)
    by (by vm_compute).
  assert (Hc : 0 < 100 < 2 ^ 32) by (split; by vm_compute).
  assert (Hc' : 0 ≤ 100 < 2 ^ 32) by (split; by vm_compute).
  specialize (Hon eq_refl Hroom Hc). destruct (Hcount Hc') as (_ & Hic & _).
  split; [exact Hr|]. exists res.
  split; [exact Hres|]. split; [exact Hz|]. split; [exact Hp|]. split; [|exact Hic].
  rewrite Hst.
  match goal with |- context [0 <? ?x] => destruct (Z.ltb_spec 0 x) as [_|Hle] end;
    [reflexivity | exfalso; lia].
Defined.

(** One send call in a hundred fails (the outbound queue is full and
    nothing leaves it during the first wait), which is a loss of exactly
    1.0 percent of the attempts; the result reports 0.0 and passes.  With
    a manager that was never initialised all hundred calls fail, and the
    failed result still reports 0.0 and passes. *)
Lemma failed_sends_do_not_show_in_the_loss_rate :
  let name := "Reliability Test" in
  let f := framework_on (system_with [known_peer peer_a 0] full_queue (late_sender 100)) in
  let g := framework_on (upd_mgr (upd_initialized false)
                           (system_with [known_peer peer_a 0] [] [])) in
  let loop (h : TestFramework.t) :=
    for_loop 100 0 (@TestFramework.reliability_iteration rom name peer_a 100 10)
      (started name (TestFramework.get_timestamp_us h).1 100, 0) h in
  let outcome (h : TestFramework.t) :=
    map (λ res, (status res, avg_packet_loss_percent res, reliability_passed res))
      (TestFramework.test_results_
         (@TestFramework.run_reliability_test rom name peer_a 100 10 h).2) in
  ((loop f).1.2 = 99
   ∧ outcome f = [(TEST_STATUS_COMPLETED, F32.zero, true)]
   ∧ TestFramework.calculate_packet_loss_rate 100 (loop f).1.2 = F32.of_Z 1
   ∧ TestFramework.reliability_passes (F32.of_Z 1) = false)
  ∧ ((loop g).1.2 = 0
     ∧ outcome g = [(TEST_STATUS_FAILED, F32.zero, true)]).
Proof. by vm_compute. Qed.

(** The performance tests on a running manager that knows no peer. *)
Lemma performance_suite_witness :
  let f := framework_on (system_with [] [] []) in
  let r := @TestFramework.run_all_performance_tests rom f in
  peers_ (mgr (TestFramework.sys f)) = []
  ∧ r.1 = ESP_ERR_NOT_FOUND
  ∧ r.2 = f.
Proof.
  intros f r. split; [reflexivity|].
  destruct (@performance_suite_needs_a_peer rom f eq_refl) as ((Hr & _ & _ & _ & Hf) & _).
  split; [exact Hr | exact (Hf eq_refl)].
Defined.

(** ** The peer table: adding, looking up, removing *)

Section table.
Context `{EspIdf}.

Lemma mutex_taken_and_given (s : System) :
  peers_mutex_ (mgr s) = false →
  upd_mgr (upd_peers_mutex false) (upd_mgr (upd_peers_mutex true) s) = s.
Proof.
  intros Hm. destruct s as [m ? ? ? ? ? ? ?]. unfold upd_mgr. cbn in *.
  by rewrite mutex_round_trip.
Qed.

Lemma is_peer_registered_free mac (s : System) :
  peers_mutex_ (mgr s) = false →
  is_peer_registered mac s
  = (bool_decide (is_Some (find_peer (peers_ (mgr s)) mac)), s).
Proof.
  intros Hm. unfold is_peer_registered, xSemaphoreTake, xSemaphoreGive, bind, gets,
    modify, ret. cbn. rewrite Hm. cbn. by rewrite mutex_taken_and_given.
Qed.

Lemma get_peer_count_free (s : System) :
  peers_mutex_ (mgr s) = false →
  get_peer_count s = (Z.of_nat (length (peers_ (mgr s))), s).
Proof.
  intros Hm. unfold get_peer_count, xSemaphoreTake, xSemaphoreGive, bind, gets,
    modify, ret. cbn. rewrite Hm. cbn. by rewrite mutex_taken_and_given.
Qed.

Lemma find_peer_app_new (ps : list esp_now_peer_info_t) p :
  is_Some (find_peer (ps ++ [p]) (mac_addr p)).
Proof.
  unfold find_peer.
  destruct (list_find (λ q, mac_addr q = mac_addr p) (ps ++ [p])) as [[i q]|] eqn:Hf;
    [by eexists|].
  apply list_find_None in Hf. rewrite Forall_app, Forall_singleton in Hf.
  by destruct Hf as [_ Hf].
Qed.

(** What [add_peer_internal] does when it gets the mutex. *)
Lemma add_peer_internal_free mac (s : System) :
  peers_mutex_ (mgr s) = false →
  add_peer_internal mac s
  = match find_peer (peers_ (mgr s)) mac with
    | Some i =>
        (ESP_OK,
         upd_mgr (upd_peers
           (alter (λ p, upd_is_active true (upd_last_seen_us (esp_timer s) p)) i)) s)
    | None =>
        let r := default ESP_OK (head (add_peer_rets s)) in
        let s1 := upd_add_peer_rets (tail (add_peer_rets s))
                    (upd_trace (λ t, t ++ [IoAddPeer mac]) s) in
        if negb (is_ok r) && negb (bool_decide (r = ESP_ERR_ESPNOW_EXIST))
        then (r, s1)
        else (ESP_OK,
              upd_mgr (upd_peers
                (λ ps, ps ++ [PeerInfo mac 0 (esp_timer s) 0 0 0 true])) s1)
    end.
Proof.
  intros Hm. destruct s as [m tm tr ag ar sr rw res]. cbn in Hm.
  unfold add_peer_internal, find_peer, xSemaphoreTake, xSemaphoreGive,
    esp_now_add_peer, get_timestamp_us, emit, bind, gets, modify, ret.
  cbn. rewrite Hm. cbn.
  destruct (list_find _ (peers_ m)) as [[i p]|]; cbn.
  - f_equal. unfold upd_mgr. cbn. f_equal.
    destruct m; cbn in *. by subst.
  - destruct (negb (is_ok (default ESP_OK (head ar)))
              && negb (bool_decide (default ESP_OK (head ar) = ESP_ERR_ESPNOW_EXIST)));
      cbn; f_equal; unfold upd_mgr, upd_trace, upd_add_peer_rets; cbn; f_equal;
      destruct m; cbn in *; by subst.
Qed.

(** [add_peer] on a free mutex with a driver that takes the peer: the
    call returns [ESP_OK] and the address is registered afterwards.  A
    known address keeps its record, refreshed; a new address gets a
    record of its own at the end of the table, stamped with the clock
    and with all counters at zero. *)
Theorem added_peer_is_registered mac (s : System) :
  peers_mutex_ (mgr s) = false →
  driver_accepts s →
  let r := add_peer mac s in
  r.1 = ESP_OK
  ∧ (is_peer_registered mac r.2).1 = true
  ∧ peers_mutex_ (mgr r.2) = false
  ∧ peers_ (mgr r.2)
    = match find_peer (peers_ (mgr s)) mac with
      | Some i =>
          alter (λ p, upd_is_active true (upd_last_seen_us (esp_timer s) p)) i
            (peers_ (mgr s))
      | None => peers_ (mgr s) ++ [PeerInfo mac 0 (esp_timer s) 0 0 0 true]
      end.
Proof.
  intros Hm Hd r. unfold r, add_peer. rewrite add_peer_internal_free by done.
  destruct s as [[ini act lm seq ps st rq sq mx rt stk dt rc sc pc] tm tr ag ar sr rw res].
  cbn [mgr peers_ peers_mutex_ esp_timer add_peer_rets] in Hm |- *. subst mx.
  destruct (find_peer ps mac) as [i|] eqn:Hf.
  - cbn [fst snd]. split; [done|].
    rewrite is_peer_registered_free by done. cbn [fst snd].
    split_and!; [|done..].
    apply bool_decide_eq_true. cbn -[find_peer].
    rewrite find_peer_alter by done. rewrite Hf. by eexists.
  - assert (Hr : negb (is_ok (default ESP_OK (head ar)))
                 && negb (bool_decide (default ESP_OK (head ar)
                                       = ESP_ERR_ESPNOW_EXIST)) = false).
    { unfold driver_accepts in Hd. cbn in Hd. destruct ar as [|e es]; [done|].
      apply Forall_cons in Hd as [[-> | ->] _]; done. }
    cbv zeta. rewrite Hr. cbn [fst snd]. split; [done|].
    rewrite is_peer_registered_free by done. cbn [fst snd].
    split_and!; [|done..].
    apply bool_decide_eq_true.
    apply (find_peer_app_new _ (PeerInfo mac 0 tm 0 0 0 true)).
Qed.

(** [add_peer] for an unknown address when the driver refuses it: the
    driver's error is returned, the table is as before, the mutex is
    free again, and the address is not registered. *)
Theorem refused_peer_is_not_added mac e rest (s : System) :
  peers_mutex_ (mgr s) = false →
  find_peer (peers_ (mgr s)) mac = None →
  add_peer_rets s = e :: rest →
  e ≠ ESP_OK → e ≠ ESP_ERR_ESPNOW_EXIST →
  let r := add_peer mac s in
  r.1 = e
  ∧ peers_ (mgr r.2) = peers_ (mgr s)
  ∧ peers_mutex_ (mgr r.2) = false
  ∧ (is_peer_registered mac r.2).1 = false
  ∧ trace r.2 = trace s ++ [IoAddPeer mac]
  ∧ add_peer_rets r.2 = rest.
Proof.
  intros Hm Hf Hr He1 He2 r. unfold r, add_peer.
  rewrite add_peer_internal_free by done. rewrite Hf, Hr. cbv zeta.
  change (default ESP_OK (head (e :: rest))) with e.
  change (tail (e :: rest)) with rest.
  assert (Hb : negb (is_ok e) && negb (bool_decide (e = ESP_ERR_ESPNOW_EXIST)) = true).
  { unfold is_ok. by rewrite !bool_decide_eq_false_2. }
  rewrite Hb. cbn [fst snd].
  destruct s as [[ini act lm seq ps st rq sq mx rt stk dt rc sc pc] tm tr ag ar sr rw res].
  cbn [mgr peers_ peers_mutex_] in Hm, Hf. subst mx.
  rewrite is_peer_registered_free by done. cbn -[find_peer].
  rewrite Hf. split_and!; try done.
Qed.

Lemma add_peers_cons a (macs : list mac_t) (s : System) :
  (add_peers (a :: macs) s).2 = (add_peers macs (add_peer a s).2).2.
Proof. reflexivity. Qed.

Lemma add_peers_grow (macs : list mac_t) : ∀ s : System,
  peers_mutex_ (mgr s) = false →
  driver_accepts s →
  NoDup macs →
  (∀ a, a ∈ macs → a ∉ mac_addr <$> peers_ (mgr s)) →
  let s' := (add_peers macs s).2 in
  peers_mutex_ (mgr s') = false
  ∧ mac_addr <$> peers_ (mgr s') = (mac_addr <$> peers_ (mgr s)) ++ macs.
Proof.
  induction macs as [|a macs IH]; intros s Hm Hd Hnd Hnew s'.
  - unfold s'. cbn. by rewrite app_nil_r.
  - unfold s'. rewrite add_peers_cons.
    apply NoDup_cons in Hnd as [Ha Hnd].
    assert (Hf : find_peer (peers_ (mgr s)) a = None).
    { apply find_peer_None, Hnew. left. }
    pose proof (add_peer_internal_free a s Hm) as Hadd. rewrite Hf in Hadd.
    cbv zeta in Hadd.
    assert (Hr : negb (is_ok (default ESP_OK (head (add_peer_rets s))))
                 && negb (bool_decide (default ESP_OK (head (add_peer_rets s))
                                       = ESP_ERR_ESPNOW_EXIST)) = false).
    { unfold driver_accepts in Hd. destruct (add_peer_rets s) as [|e es]; [done|].
      apply Forall_cons in Hd as [[-> | ->] _]; done. }
    rewrite Hr in Hadd. unfold add_peer. rewrite Hadd. cbn [snd].
    set (s1 := upd_mgr _ _).
    assert (Hp1 : peers_ (mgr s1)
                  = peers_ (mgr s) ++ [PeerInfo a 0 (esp_timer s) 0 0 0 true])
      by (by destruct s as [[]]).
    destruct (IH s1) as [Hm' Hp'].
    + by destruct s as [[]].
    + unfold driver_accepts in *.
      replace (add_peer_rets s1) with (tail (add_peer_rets s)) by (by destruct s as [[]]).
      destruct (add_peer_rets s) as [|e es]; [done|]. by apply Forall_cons in Hd as [_ ?].
    + done.
    + intros b Hb. rewrite Hp1, fmap_app. cbn. rewrite elem_of_app.
      intros [Hin | ->%list_elem_of_singleton]; [|done].
      revert Hin. apply Hnew. by right.
    + split; [done|]. rewrite Hp', Hp1, fmap_app. cbn. by rewrite <- app_assoc.
Qed.

(** Adding addresses that are new and distinct, with the mutex free and
    a driver that takes them: every one of them gets a record, in order,
    however many there are already.  [ESP_NOW_MAX_PEERS] does not bound
    the table; reaching it only logs a warning. *)
Theorem every_new_peer_is_added (macs : list mac_t) (s : System) :
  peers_mutex_ (mgr s) = false →
  driver_accepts s →
  NoDup macs →
  (∀ a, a ∈ macs → a ∉ mac_addr <$> peers_ (mgr s)) →
  let s' := (add_peers macs s).2 in
  mac_addr <$> peers_ (mgr s') = (mac_addr <$> peers_ (mgr s)) ++ macs
  ∧ (get_peer_count s').1
    = Z.of_nat (length (peers_ (mgr s))) + Z.of_nat (length macs).
Proof.
  intros Hm Hd Hnd Hnew s'.
  destruct (add_peers_grow macs s Hm Hd Hnd Hnew) as [Hm' Hp'].
  fold s' in Hm', Hp'. split; [done|].
  rewrite get_peer_count_free by done. cbn [fst].
  rewrite <- (length_fmap mac_addr (peers_ (mgr s'))), Hp'.
  rewrite length_app, length_fmap. lia.
Qed.

(** What [remove_peer] does when it gets the mutex. *)
Lemma remove_peer_free mac (s : System) :
  peers_mutex_ (mgr s) = false →
  remove_peer mac s
  = match list_find (λ p, mac_addr p = mac) (peers_ (mgr s)) with
    | Some (i, _) =>
        (ESP_OK, upd_mgr (upd_peers (delete i))
                   (upd_trace (λ t, t ++ [IoDelPeer mac]) s))
    | None => (ESP_ERR_NOT_FOUND, s)
    end.
Proof.
  intros Hm. destruct s as [m tm tr ag ar sr rw res]. cbn in Hm.
  unfold remove_peer, xSemaphoreTake, xSemaphoreGive, esp_now_del_peer, emit,
    bind, gets, modify, ret. cbn. rewrite Hm. cbn.
  destruct (list_find _ (peers_ m)) as [[i p]|]; cbn.
  - f_equal. unfold upd_mgr, upd_trace. cbn. f_equal. destruct m; cbn in *. by subst.
  - f_equal. unfold upd_mgr. cbn. f_equal. by apply mutex_round_trip.
Qed.

Lemma find_peer_delete_other (ps : list esp_now_peer_info_t) i p mac other :
  list_find (λ q, mac_addr q = mac) ps = Some (i, p) →
  other ≠ mac →
  is_Some (find_peer (delete i ps) other) ↔ is_Some (find_peer ps other).
Proof.
  intros Hf Hne.
  assert (Hin : ∀ l : list esp_now_peer_info_t,
            is_Some (find_peer l other) ↔ other ∈ mac_addr <$> l).
  { intros l. destruct (find_peer l other) eqn:E.
    - split; [intros _ | by eexists].
      destruct (decide (other ∈ mac_addr <$> l)) as [|Hn]; [done|].
      apply find_peer_None in Hn. congruence.
    - apply find_peer_None in E. split; [by intros [? [=]] | done]. }
  rewrite !Hin. apply list_find_Some in Hf as (Hi & Hp & _).
  rewrite !list_elem_of_fmap. split.
  - intros (q & -> & Hq). exists q. split; [done|].
    eapply elem_of_sublist; [exact Hq|]. apply sublist_delete.
  - intros (q & -> & Hq). exists q. split; [done|].
    apply list_elem_of_lookup in Hq as [j Hj].
    destruct (decide (j = i)) as [->|Hji]; [congruence|].
    apply list_elem_of_lookup.
    destruct (decide (j < i)%nat).
    + exists j. by rewrite list_lookup_delete_lt.
    + exists (pred j). rewrite list_lookup_delete_ge by lia.
      replace (S (pred j)) with j by lia. done.
Qed.

(** [remove_peer] on a free mutex and a table without duplicate
    addresses.  A registered address loses its record (the first one
    that matches): the driver is told, the call returns [ESP_OK], the
    other records stay in their order.  An unknown address gives
    [ESP_ERR_NOT_FOUND] and changes nothing.  Either way the address is
    not registered afterwards and every other address is registered
    exactly if it was before. *)
Theorem removed_peer_is_gone mac (s : System) :
  peers_mutex_ (mgr s) = false →
  unique_addresses s →
  let r := remove_peer mac s in
  match list_find (λ p, mac_addr p = mac) (peers_ (mgr s)) with
  | Some (i, _) =>
      r.1 = ESP_OK
      ∧ peers_ (mgr r.2) = delete i (peers_ (mgr s))
      ∧ trace r.2 = trace s ++ [IoDelPeer mac]
  | None => r = (ESP_ERR_NOT_FOUND, s)
  end
  ∧ (is_peer_registered mac r.2).1 = false
  ∧ ∀ other, other ≠ mac →
      (is_peer_registered other r.2).1 = (is_peer_registered other s).1.
Proof.
  intros Hm Hu r. unfold r. rewrite remove_peer_free by done.
  destruct (list_find _ (peers_ (mgr s))) as [[i p]|] eqn:Hf.
  - cbn [fst snd].
    set (s1 := upd_mgr _ _).
    assert (Hp1 : peers_ (mgr s1) = delete i (peers_ (mgr s))) by (by destruct s as [[]]).
    assert (Hm1 : peers_mutex_ (mgr s1) = false) by (by destruct s as [[]]).
    split; [split_and!; try done; by destruct s as [[]]|].
    split.
    + rewrite is_peer_registered_free by done. cbn [fst].
      apply bool_decide_eq_false. rewrite Hp1. intros [j Hj].
      assert (Hnone : find_peer (delete i (peers_ (mgr s))) mac = None); [|congruence].
      apply find_peer_None. unfold unique_addresses in Hu.
      pose proof Hf as (Hi & Hp & _)%list_find_Some.
      rewrite list_fmap_delete.
      assert (Hl : (mac_addr <$> peers_ (mgr s)) !! i = Some mac)
        by (by rewrite list_lookup_fmap, Hi; cbn; rewrite Hp).
      rewrite <- (take_drop_middle _ _ _ Hl) in Hu.
      rewrite delete_take_drop.
      apply NoDup_app in Hu as (_ & Hd & Hr). apply NoDup_cons in Hr as [Hr _].
      rewrite elem_of_app. intros [Hin | Hin]; [|done].
      apply (Hd _ Hin). left.
    + intros other Hne. rewrite !is_peer_registered_free by done. cbn [fst].
      rewrite Hp1. apply bool_decide_ext. by eapply find_peer_delete_other.
  - split; [done|]. cbn [snd]. split.
    + rewrite is_peer_registered_free by done. cbn [fst].
      apply bool_decide_eq_false. intros [j Hj].
      unfold find_peer in Hj. by rewrite Hf in Hj.
    + done.
Qed.

Lemma timed_out_take ms (s : System) :
  peers_mutex_ (mgr s) = true → xSemaphoreTake ms s = (false, timed_out ms s).
Proof.
  intros Hm. unfold xSemaphoreTake, advance, bind, gets, modify, ret. cbn.
  by rewrite Hm.
Qed.

(** While another task holds the mutex, every call on the peer table
    gives up after its wait (one second; a tenth for the statistics
    update) and changes nothing but the clock: [add_peer] and
    [remove_peer] return [ESP_ERR_TIMEOUT]; the queries answer as for
    an empty table, so a registered peer is reported as not registered
    and the table as having no peers. *)
Theorem table_calls_give_up_when_the_mutex_is_held mac received lost (s : System) :
  peers_mutex_ (mgr s) = true →
  add_peer mac s = (ESP_ERR_TIMEOUT, timed_out 1000 s)
  ∧ remove_peer mac s = (ESP_ERR_TIMEOUT, timed_out 1000 s)
  ∧ is_peer_registered mac s = (false, timed_out 1000 s)
  ∧ get_peers s = ([], timed_out 1000 s)
  ∧ get_peer_count s = (0, timed_out 1000 s)
  ∧ update_peer_stats mac received lost s = (tt, timed_out 100 s)
  ∧ peers_ (mgr (timed_out 1000 s)) = peers_ (mgr s).
Proof.
  intros Hm.
  unfold add_peer, add_peer_internal, remove_peer, is_peer_registered, get_peers,
    get_peer_count, update_peer_stats.
  unfold bind. rewrite !timed_out_take by done. cbn [fst snd negb ret].
  split_and!; try done.
Qed.
End table.

(** ** The mutex of the peer table is never left held *)

Section mutex.
Context `{EspIdf}.

Lemma add_peer_internal_releases mac : preserves mutex_free (add_peer_internal mac).
Proof.
  intros s Hs. unfold mutex_free in *. rewrite add_peer_internal_free by done.
  destruct (find_peer _ _); cbv zeta; [|destruct (_ && _)];
    by destruct s as [[]].
Qed.

Lemma remove_peer_releases mac : preserves mutex_free (remove_peer mac).
Proof.
  intros s Hs. unfold mutex_free in *. rewrite remove_peer_free by done.
  destruct (list_find _ _) as [[i p]|]; by destruct s as [[]].
Qed.

Lemma update_peer_stats_releases mac r l :
  preserves mutex_free (update_peer_stats mac r l).
Proof.
  intros s Hs. unfold mutex_free in *.
  unfold update_peer_stats, xSemaphoreTake, xSemaphoreGive, bind, gets, modify, ret.
  cbn -[find_peer]. rewrite Hs. cbn -[find_peer].
  by destruct (find_peer (peers_ (mgr s)) mac).
Qed.

Lemma get_peers_releases : preserves mutex_free get_peers.
Proof. intros s Hs. unfold mutex_free in *. by rewrite get_peers_free. Qed.
Lemma get_peer_count_releases : preserves mutex_free get_peer_count.
Proof. intros s Hs. unfold mutex_free in *. by rewrite get_peer_count_free. Qed.
Lemma is_peer_registered_releases mac : preserves mutex_free (is_peer_registered mac).
Proof. intros s Hs. unfold mutex_free in *. by rewrite is_peer_registered_free. Qed.

Lemma peer_cleanup_sweep_releases : preserves mutex_free peer_cleanup_sweep.
Proof.
  unfold peer_cleanup_sweep. frame; try apply get_peers_releases.
  apply remove_peer_releases.
Qed.

Lemma send_task_step_releases : preserves mutex_free send_task_step.
Proof. unfold send_task_step, esp_now_send, emit. frame. Qed.

Lemma stop_discovery_releases : preserves mutex_free stop_discovery.
Proof. unfold stop_discovery. frame. Qed.

Lemma esp_now_send_cb_releases mac ok : preserves mutex_free (esp_now_send_cb mac ok).
Proof. unfold esp_now_send_cb, emit. frame; apply update_peer_stats_releases. Qed.

Lemma esp_now_recv_cb_releases src data : preserves mutex_free (esp_now_recv_cb src data).
Proof.
  unfold esp_now_recv_cb, xQueueSend_receive_queue. frame.
  apply update_peer_stats_releases.
Qed.

Lemma initialize_releases env ch : preserves mutex_free (initialize env ch).
Proof.
  unfold initialize, esp_try. frame; apply preserves_modify; by intros s _.
Qed.

Lemma deinitialize_releases : preserves mutex_free deinitialize.
Proof.
  unfold deinitialize. frame; try apply stop_discovery_releases.
  apply preserves_modify. by intros s _.
Qed.

Section with_others.
Variable others : ST System unit.
Hypothesis others_release : preserves mutex_free others.

Lemma send_message_releases mac type data :
  preserves mutex_free (send_message others mac type data).
Proof. unfold send_message, xQueueSend_send_queue, advance. frame; apply others_release. Qed.

Lemma send_discovery_request_releases :
  preserves mutex_free (send_discovery_request others).
Proof. unfold send_discovery_request. frame. apply send_message_releases. Qed.

Lemma send_ping_releases mac : preserves mutex_free (send_ping others mac).
Proof. unfold send_ping. frame. apply send_message_releases. Qed.

Lemma vTaskDelay_releases ms : preserves mutex_free (vTaskDelay others ms).
Proof. unfold vTaskDelay, advance. frame. apply others_release. Qed.

Lemma start_discovery_releases d : preserves mutex_free (start_discovery others d).
Proof.
  unfold start_discovery, esp_now_add_peer, emit. frame.
  - apply vTaskDelay_releases.
  - apply stop_discovery_releases.
Qed.

Lemma receive_task_step_releases : preserves mutex_free (receive_task_step others).
Proof.
  unfold receive_task_step, receive_task_handle, notify_peer_discovered, emit.
  frame; first [apply add_peer_internal_releases | apply send_message_releases].
Qed.

Lemma discovery_task_step_releases : preserves mutex_free (discovery_task_step others).
Proof. unfold discovery_task_step. frame. apply send_discovery_request_releases. Qed.
End with_others.

Lemma run_event_releases e : preserves mutex_free (run_event e).
Proof.
  destruct e; simpl; frame.
  - apply esp_now_recv_cb_releases.
  - apply esp_now_send_cb_releases.
  - apply receive_task_step_releases, preserves_ret.
  - apply send_task_step_releases.
  - apply discovery_task_step_releases, preserves_ret.
  - apply peer_cleanup_sweep_releases.
Qed.

Lemma yield_releases : preserves mutex_free yield.
Proof. unfold yield, run_events. frame. apply run_event_releases. Qed.

Lemma run_call_releases c : preserves mutex_free (run_call c).
Proof.
  destruct c; simpl; unfold discard; frame.
  - apply initialize_releases.
  - apply deinitialize_releases.
  - apply start_discovery_releases, yield_releases.
  - apply stop_discovery_releases.
  - apply send_discovery_request_releases, yield_releases.
  - apply add_peer_internal_releases.
  - apply remove_peer_releases.
  - apply is_peer_registered_releases.
  - apply get_peers_releases.
  - apply get_peer_count_releases.
  - apply send_message_releases, yield_releases.
  - apply send_message_releases, yield_releases.
  - apply send_ping_releases, yield_releases.
  - apply vTaskDelay_releases, yield_releases.
  - apply run_event_releases.
Qed.

(** Every path through a function that takes the mutex of the peer
    table gives it back: from a state in which the mutex is free, any
    sequence of calls of the manager and of steps of its tasks and
    callbacks ends with the mutex free, so the queries that followed
    see the real table. *)
Theorem mutex_is_given_back (calls : list api_call) (s : System) :
  mutex_free s →
  mutex_free (run_calls calls s).2
  ∧ (get_peers (run_calls calls s).2).1 = peers_ (mgr (run_calls calls s).2).
Proof.
  intros Hs.
  assert (Hm : mutex_free (run_calls calls s).2).
  { revert Hs. apply preserves_for_each. apply run_call_releases. }
  split; [exact Hm|]. by rewrite get_peers_free.
Qed.
End mutex.

(** ** Sending *)

Section sending.
Context `{EspIdf}.

(** [send_message] on an initialised manager, with a payload that fits
    and room in the outbound queue: the call returns [ESP_OK] and
    appends exactly one frame for the given address.  The frame carries
    the message type, the value of the sequence counter before the
    call, the clock reading, the payload length, the payload in its
    first bytes and whatever the stack held in the rest, and the
    checksum of the frame as it lay there before the checksum was
    written.  The sequence counter goes up by one; nothing else
    changes. *)
Theorem send_message_queues_one_frame others mac type data (s : System) :
  initialized_ (mgr s) = true →
  Z.of_nat (length data) ≤ PAYLOAD_CAPACITY →
  Z.of_nat (length (send_queue_ (mgr s))) < QUEUE_LENGTH →
  let frame := unsealed type (sequence_counter_ (mgr s)) (esp_timer s) data
                 (stack_residue s) in
  send_message others mac type data s
  = (ESP_OK,
     upd_mgr (upd_send_queue (λ q, q ++ [Queued mac (set_crc32 (checksum_of frame) frame)]))
       (upd_mgr (upd_sequence_counter (wrap32 (sequence_counter_ (mgr s) + 1))) s))
  ∧ take (length data) (payload frame) = data.
Proof.
  intros Hinit Hlen Hroom frame. split; [|by apply take_app_length].
  unfold send_message, xQueueSend_send_queue, bind, gets, modify, ret. simpl.
  rewrite Hinit. simpl.
  destruct (Z.ltb_spec PAYLOAD_CAPACITY (Z.of_nat (length data))); [lia|]. simpl.
  destruct (Z.ltb_spec (Z.of_nat (length (send_queue_ (mgr s)))) QUEUE_LENGTH); [|lia].
  simpl. reflexivity.
Qed.

Lemma xQueueSend_send_queue_full item ms (s : System) :
  QUEUE_LENGTH ≤ Z.of_nat (length (send_queue_ (mgr s))) →
  xQueueSend_send_queue nobody item ms s = (false, timed_out ms s).
Proof.
  intros Hfull.
  unfold xQueueSend_send_queue, nobody, advance, bind, gets, modify, ret.
  cbn [fst snd compose].
  assert (Hb : (Z.of_nat (length (send_queue_ (mgr s))) <? QUEUE_LENGTH) = false)
    by (apply Z.ltb_ge; lia).
  by rewrite !Hb.
Qed.

(** [send_message] while the outbound queue is full and stays full for
    the second the call waits: the call returns [ESP_ERR_TIMEOUT] and
    the frame is not queued, but the sequence number it was given is
    used up, so the next frame leaves a gap. *)
Theorem send_message_times_out_on_a_full_queue mac type data (s : System) :
  initialized_ (mgr s) = true →
  Z.of_nat (length data) ≤ PAYLOAD_CAPACITY →
  QUEUE_LENGTH ≤ Z.of_nat (length (send_queue_ (mgr s))) →
  let r := send_message nobody mac type data s in
  r.1 = ESP_ERR_TIMEOUT
  ∧ send_queue_ (mgr r.2) = send_queue_ (mgr s)
  ∧ sequence_counter_ (mgr r.2) = wrap32 (sequence_counter_ (mgr s) + 1)
  ∧ esp_timer r.2 = wrap64 (esp_timer s + 1000000)
  ∧ trace r.2 = trace s.
Proof.
  intros Hinit Hlen Hfull r. unfold r.
  unfold send_message, get_timestamp_us, bind, gets, modify, ret.
  cbn [fst snd compose]. rewrite Hinit. cbn [negb].
  destruct (Z.ltb_spec PAYLOAD_CAPACITY (Z.of_nat (length data))); [lia|].
  rewrite xQueueSend_send_queue_full by (by destruct s as [[]]).
  cbn [fst snd]. by destruct s as [[]].
Qed.

(** [send_ping] on an initialised manager with room in the outbound
    queue queues a ping whose four payload bytes spell the sequence
    number in its own header, so the pong that echoes either of them
    identifies the ping. *)
Theorem ping_carries_its_sequence_number others mac (s : System) :
  initialized_ (mgr s) = true →
  Z.of_nat (length (send_queue_ (mgr s))) < QUEUE_LENGTH →
  let r := send_ping others mac s in
  r.1 = ESP_OK
  ∧ ∃ ping,
      send_queue_ (mgr r.2) = send_queue_ (mgr s) ++ [Queued mac ping]
      ∧ msg_type ping = ESP_NOW_MSG_TYPE_PING
      ∧ payload_length ping = 4
      ∧ sequence_number ping = sequence_counter_ (mgr s)
      ∧ le_value (take 4 (payload ping)) = wrap32 (sequence_number ping).
Proof.
  intros Hinit Hroom r.
  assert (Hr : r = send_message others mac ESP_NOW_MSG_TYPE_PING
                     (le_bytes 4 (sequence_counter_ (mgr s))) s) by reflexivity.
  rewrite Hr. clear Hr r.
  destruct (send_message_room others mac ESP_NOW_MSG_TYPE_PING
              (le_bytes 4 (sequence_counter_ (mgr s))) s)
    as (ping & Hsend & Hty & Hseq & _ & Hlen & Hpay); [done | by vm_compute | done |].
  change (Z.of_nat (length (le_bytes 4 (sequence_counter_ (mgr s))))) with 4 in Hlen.
  change (length (le_bytes 4 (sequence_counter_ (mgr s)))) with 4%nat in Hpay.
  rewrite Hsend. cbn [fst snd]. split; [done|]. exists ping.
  split_and!; try done.
  rewrite Hpay, Hseq. by rewrite le_value_le_bytes.
Qed.

(** One turn of [send_task] with an item waiting. *)
Lemma send_task_step_cons item q (s : System) :
  send_queue_ (mgr s) = item :: q →
  send_task_step s
  = (tt,
     let s1 := upd_send_rets (tail (send_rets s))
                 (upd_trace (λ t, t ++ [transmission item])
                    (upd_mgr (upd_send_queue tail) s)) in
     if is_ok (default ESP_OK (head (send_rets s)))
     then upd_mgr (upd_statistics (add_total_bytes_sent MESSAGE_SIZE)) s1
     else s1).
Proof.
  intros Hq. unfold send_task_step, esp_now_send, emit, bind, gets, modify, ret.
  cbn [fst snd compose]. rewrite Hq. cbn [fst snd].
  by destruct (is_ok _).
Qed.

Lemma send_task_steps_S n (s : System) :
  send_task_steps (S n) s = send_task_steps n (send_task_step s).2.
Proof. reflexivity. Qed.

Lemma send_task_drains (q : list queued_message_t) : ∀ s : System,
  send_queue_ (mgr s) = q →
  let s' := (send_task_steps (length q) s).2 in
  send_queue_ (mgr s') = []
  ∧ trace s' = trace s ++ (transmission <$> q)
  ∧ (Forall (λ r, r = ESP_OK) (send_rets s) →
     wrap64 (total_bytes_sent (statistics_ (mgr s')))
     = wrap64 (total_bytes_sent (statistics_ (mgr s))
               + MESSAGE_SIZE * Z.of_nat (length q))).
Proof.
  induction q as [|item q IH]; intros s Hq s'.
  - unfold s'. cbn. rewrite app_nil_r. split_and!; [done | done |].
    intros _. by rewrite Z.mul_0_r, Z.add_0_r.
  - unfold s'. cbn [length]. rewrite send_task_steps_S.
    rewrite (send_task_step_cons item q s Hq). cbn [snd].
    set (s1 := upd_send_rets _ _).
    set (s2 := if is_ok _ then _ else _).
    assert (Hq2 : send_queue_ (mgr s2) = q).
    { unfold s2, s1. destruct (is_ok _); destruct s as [[]]; cbn in *; by subst. }
    assert (Ht2 : trace s2 = trace s ++ [transmission item]).
    { unfold s2, s1. by destruct (is_ok _); destruct s as [[]]. }
    assert (Hr2 : send_rets s2 = tail (send_rets s)).
    { unfold s2, s1. by destruct (is_ok _); destruct s as [[]]. }
    destruct (IH s2 Hq2) as (Hq' & Ht' & Hb').
    split_and!; [done | |].
    + rewrite Ht', Ht2. cbn. by rewrite <- app_assoc.
    + intros Hok. rewrite Hb'.
      2:{ rewrite Hr2. destruct (send_rets s); [done|]. by apply Forall_cons in Hok as [_ ?]. }
      assert (Hs2 : total_bytes_sent (statistics_ (mgr s2))
                    = wrap64 (total_bytes_sent (statistics_ (mgr s)) + MESSAGE_SIZE)).
      { unfold s2, s1.
        replace (is_ok (default ESP_OK (head (send_rets s)))) with true.
        - by destruct s as [[]].
        - destruct (send_rets s) as [|e es]; [done|].
          apply Forall_cons in Hok as [-> _]. done. }
      rewrite Hs2. unfold wrap64.
      rewrite Zplus_mod_idemp_l. f_equal. lia.
Qed.

(** [send_task] hands the queued frames to the driver in the order in
    which they were queued: as many turns as there are items empty the
    queue and make exactly these transmissions, each of the whole
    frame.  When the driver takes them all, [total_bytes_sent] (a
    64-bit counter) goes up by the frame size for each. *)
Theorem send_task_transmits_in_order (s : System) :
  let q := send_queue_ (mgr s) in
  let s' := (send_task_steps (length q) s).2 in
  send_queue_ (mgr s') = []
  ∧ trace s' = trace s ++ (transmission <$> q)
  ∧ (Forall (λ r, r = ESP_OK) (send_rets s) →
     wrap64 (total_bytes_sent (statistics_ (mgr s')))
     = wrap64 (total_bytes_sent (statistics_ (mgr s))
               + MESSAGE_SIZE * Z.of_nat (length q))).
Proof. intros q s'. by apply send_task_drains. Qed.

(** A frame the driver refuses is gone: [send_task] has taken it from
    the queue, does not try again, and counts nothing, neither bytes
    sent nor a packet lost. *)
Theorem refused_frame_is_dropped_uncounted item q e rest (s : System) :
  send_queue_ (mgr s) = item :: q →
  send_rets s = e :: rest →
  e ≠ ESP_OK →
  let s' := (send_task_step s).2 in
  send_queue_ (mgr s') = q
  ∧ trace s' = trace s ++ [transmission item]
  ∧ statistics_ (mgr s') = statistics_ (mgr s)
  ∧ peers_ (mgr s') = peers_ (mgr s).
Proof.
  intros Hq Hr He s'. unfold s'. rewrite (send_task_step_cons item q s Hq).
  cbn [snd]. rewrite Hr. change (default ESP_OK (head (e :: rest))) with e.
  assert (Hb : is_ok e = false) by (by apply bool_decide_eq_false).
  rewrite Hb. destruct s as [[]]; cbn in *; by subst.
Qed.
End sending.

(** ** The frame layout *)

Section layout.
Context `{EspIdf}.

Lemma length_le_bytes n v : length (le_bytes n v) = n.
Proof. revert v. induction n as [|n IH]; intros v; cbn; [done | by rewrite IH]. Qed.

Lemma le_bytes_mod n v : le_bytes n (v mod 2 ^ (8 * Z.of_nat n)) = le_bytes n v.
Proof.
  revert v. induction n as [|n IH]; intros v; [done|].
  cbn [le_bytes]. f_equal.
  - apply Z.bits_inj'. intros k Hk. rewrite !Z.land_spec.
    change 255 with (Z.ones 8).
    destruct (Z.lt_ge_cases k 8).
    + by rewrite Z.mod_pow2_bits_low by lia.
    + by rewrite Z.ones_spec_high, !andb_false_r by lia.
  - rewrite <- (IH (Z.shiftr v 8)). f_equal.
    apply Z.bits_inj'. intros k Hk. rewrite Z.shiftr_spec by lia.
    destruct (Z.lt_ge_cases k (8 * Z.of_nat n)).
    + rewrite !Z.mod_pow2_bits_low by lia. by rewrite Z.shiftr_spec by lia.
    + by rewrite !Z.mod_pow2_bits_high by lia.
Qed.

Lemma slice_first {A} (a b : list A) n : length a = n → slice 0 n (a ++ b) = a.
Proof. intros <-. unfold slice. rewrite drop_0. by rewrite take_app_length. Qed.

Lemma slice_later {A} (a b : list A) k n :
  slice (length a + k) n (a ++ b) = slice k n b.
Proof. unfold slice. by rewrite drop_app_add. Qed.

Lemma frame_bytes_split (m : esp_now_message_t) :
  frame_bytes m
  = [wrap8 (msg_type m)] ++ le_bytes 4 (sequence_number m)
      ++ le_bytes 8 (timestamp_us m) ++ le_bytes 2 (payload_length m)
      ++ le_bytes 4 (crc32 m) ++ payload m.
Proof. reflexivity. Qed.

Lemma length_frame_bytes (m : esp_now_message_t) :
  Z.of_nat (length (frame_bytes m)) = 19 + Z.of_nat (length (payload m)).
Proof.
  rewrite frame_bytes_split. rewrite !length_app, !length_le_bytes. cbn [length]. lia.
Qed.

Lemma frame_fields (m : esp_now_message_t) :
  let data := frame_bytes m in
  slice 0 1 data = [wrap8 (msg_type m)]
  ∧ slice 1 4 data = le_bytes 4 (sequence_number m)
  ∧ slice 5 8 data = le_bytes 8 (timestamp_us m)
  ∧ slice 13 2 data = le_bytes 2 (payload_length m)
  ∧ slice 15 4 data = le_bytes 4 (crc32 m)
  ∧ slice 19 (length (payload m)) data = payload m.
Proof.
  intros data. unfold data. rewrite frame_bytes_split.
  set (a := [wrap8 (msg_type m)]). set (b := le_bytes 4 (sequence_number m)).
  set (c := le_bytes 8 (timestamp_us m)). set (d := le_bytes 2 (payload_length m)).
  set (e := le_bytes 4 (crc32 m)).
  assert (Ha : length a = 1%nat) by done.
  assert (Hb : length b = 4%nat) by apply length_le_bytes.
  assert (Hc : length c = 8%nat) by apply length_le_bytes.
  assert (Hd : length d = 2%nat) by apply length_le_bytes.
  assert (He : length e = 4%nat) by apply length_le_bytes.
  split_and!.
  - by apply slice_first.
  - change 1%nat with (length a + 0)%nat. rewrite slice_later. by apply slice_first.
  - replace 5%nat with (length a + (length b + 0))%nat by (rewrite Ha, Hb; lia).
    rewrite !slice_later. by apply slice_first.
  - replace 13%nat with (length a + (length b + (length c + 0)))%nat
      by (rewrite Ha, Hb, Hc; lia).
    rewrite !slice_later. by apply slice_first.
  - replace 15%nat with (length a + (length b + (length c + (length d + 0))))%nat
      by (rewrite Ha, Hb, Hc, Hd; lia).
    rewrite !slice_later. by apply slice_first.
  - replace 19%nat
      with (length a + (length b + (length c + (length d + (length e + 0)))))%nat
      by (rewrite Ha, Hb, Hc, Hd, He; lia).
    rewrite !slice_later. unfold slice. cbn. apply firstn_all.
Qed.

(** The bytes that [send_task] reads from a message through
    [(uint8_t* )&msg] are 253, and the message that [esp_now_recv_cb]
    reads from them through [(esp_now_message_t* )data] is the same
    message: every field comes back, the checksum between header and
    payload included. *)
Theorem frame_survives_the_casts (m : esp_now_message_t) :
  well_formed m →
  Z.of_nat (length (frame_bytes m)) = MESSAGE_SIZE
  ∧ frame_of_bytes (frame_bytes m) = m.
Proof.
  intros (Hty & Hseq & Hts & Hlen & Hcrc & Hpay).
  split; [rewrite length_frame_bytes, Hpay; done|].
  destruct (frame_fields m) as (F0 & F1 & F5 & F13 & F15 & F19).
  unfold frame_of_bytes. rewrite F0, F1, F5, F13, F15.
  replace (Z.to_nat PAYLOAD_CAPACITY) with (length (payload m)) by lia.
  rewrite F19. rewrite !le_value_le_bytes.
  destruct m as [ty seq ts len crc pay]. cbn in *. f_equal.
  - unfold wrap8. change 255 with (Z.ones 8). rewrite Z.land_ones by lia.
    rewrite Z.mod_mod by lia. rewrite Z.lor_0_r. by apply Z.mod_small.
  - by apply Z.mod_small.
  - by apply Z.mod_small.
  - by apply Z.mod_small.
  - by apply Z.mod_small.
Qed.

(** The bytes a checksum is taken over: the thirteen header bytes up to
    the payload length, the four bytes of the checksum field, and the
    first 230 bytes of the payload. *)
Lemma checksummed_bytes (m : esp_now_message_t) :
  take (Z.to_nat (MESSAGE_SIZE - 4)) (frame_bytes m)
  = take 15 (frame_bytes m) ++ le_bytes 4 (crc32 m) ++ take 230 (payload m)
  ∧ take 15 (frame_bytes (set_crc32 (checksum_of m) m)) = take 15 (frame_bytes m).
Proof.
  rewrite !frame_bytes_split.
  cbn [msg_type sequence_number timestamp_us payload_length crc32 payload set_crc32].
  set (a := [wrap8 (msg_type m)]). set (b := le_bytes 4 (sequence_number m)).
  set (c := le_bytes 8 (timestamp_us m)). set (d := le_bytes 2 (payload_length m)).
  assert (Hh : length (a ++ b ++ c ++ d) = 15%nat).
  { unfold a, b, c, d. by rewrite !length_app, !length_le_bytes. }
  assert (Hhead : ∀ e rest, length e = 4%nat →
            take 15 (a ++ b ++ c ++ d ++ e ++ rest) = a ++ b ++ c ++ d).
  { intros e rest He.
    replace (a ++ b ++ c ++ d ++ e ++ rest) with ((a ++ b ++ c ++ d) ++ e ++ rest)
      by (by rewrite <- !app_assoc).
    rewrite <- Hh at 1. by rewrite take_app_length. }
  rewrite !Hhead by apply length_le_bytes. split; [|done].
  set (e := le_bytes 4 (crc32 m)).
  assert (He : length e = 4%nat) by apply length_le_bytes.
  replace (a ++ b ++ c ++ d ++ e ++ payload m)
    with (((a ++ b ++ c ++ d) ++ e) ++ payload m) by (by rewrite <- !app_assoc).
  change (Z.to_nat (MESSAGE_SIZE - 4)) with (19 + 230)%nat.
  replace 19%nat with (length ((a ++ b ++ c ++ d) ++ e))
    by (rewrite length_app, Hh, He; done).
  rewrite take_app_add. by rewrite <- !app_assoc.
Qed.

(** A frame built by [send_message] and delivered unchanged to a
    device running the same code passes the checksum test of
    [esp_now_recv_cb] exactly when writing the checksum into the frame
    does not change the checksum.  Sender and receiver take it over
    the first 249 bytes of the frame; these hold all four bytes of the
    checksum field, at offsets 15 to 18, which for the sender still
    hold what was on the stack before and for the receiver hold the
    checksum written in; the rest of the 249 bytes is the same for
    both. *)
Theorem own_frame_passes_only_at_a_fixed_point (m : esp_now_message_t) :
  well_formed m →
  let sealed := set_crc32 (checksum_of m) m in
  (valid_frame (frame_bytes sealed)
   ↔ wrap32 (checksum_of sealed) = wrap32 (checksum_of m))
  ∧ (crc32 m = wrap32 (checksum_of m) → valid_frame (frame_bytes sealed))
  ∧ checksum_of m
    = esp_crc32_le 0 (take 15 (frame_bytes m) ++ le_bytes 4 (crc32 m)
                        ++ take 230 (payload m))
  ∧ checksum_of sealed
    = esp_crc32_le 0 (take 15 (frame_bytes m) ++ le_bytes 4 (checksum_of m)
                        ++ take 230 (payload m)).
Proof.
  intros Hwf sealed.
  assert (Hlen : Z.of_nat (length (frame_bytes sealed)) = MESSAGE_SIZE).
  { rewrite length_frame_bytes. destruct Hwf as (_ & _ & _ & _ & _ & Hpay).
    cbn. by rewrite Hpay. }
  assert (Hcrc : crc32 (frame_of_bytes (frame_bytes sealed)) = wrap32 (checksum_of m)).
  { destruct (frame_fields sealed) as (_ & _ & _ & _ & F15 & _).
    unfold frame_of_bytes. cbn [crc32]. rewrite F15, le_value_le_bytes. done. }
  assert (Hiff : valid_frame (frame_bytes sealed)
                 ↔ wrap32 (checksum_of sealed) = wrap32 (checksum_of m)).
  { unfold valid_frame. rewrite Hlen, Hcrc. unfold checksum_of at 1.
    split; [by intros [_ ?] | intros ?; split; [lia | done]]. }
  split; [exact Hiff|]. split.
  - intros Hfix. apply Hiff.
    assert (Hsame : frame_bytes sealed = frame_bytes m).
    { unfold sealed. rewrite !frame_bytes_split.
      cbn [msg_type sequence_number timestamp_us payload_length crc32 payload set_crc32].
      rewrite Hfix. unfold wrap32.
      by rewrite (le_bytes_mod 4 (checksum_of m)). }
    unfold checksum_of. by rewrite Hsame.
  - destruct (checksummed_bytes m) as [Hm Hhead].
    destruct (checksummed_bytes sealed) as [Hs _].
    split.
    + unfold checksum_of at 1. by rewrite Hm.
    + unfold checksum_of at 1. rewrite Hs. unfold sealed.
      cbn [crc32 payload set_crc32]. by rewrite Hhead.
Qed.
End layout.

(** ** Receiving *)

Section receiving.
Context `{EspIdf}.

Lemma esp_now_recv_cb_accepts src data (s : System) :
  valid_frame data →
  (esp_now_recv_cb src data s).2
  = (xQueueSend_receive_queue (Queued src (frame_of_bytes data))
       (update_peer_stats src true false
          (upd_mgr (upd_statistics (add_total_bytes_received (Z.of_nat (length data))))
             (upd_mgr (upd_statistics incr_total_packets_received) s))).2).2.
Proof.
  intros [Hlen Hcrc]. unfold esp_now_recv_cb.
  destruct (Z.ltb_spec (Z.of_nat (length data)) MESSAGE_SIZE); [lia|].
  rewrite Hcrc, Z.eqb_refl. reflexivity.
Qed.

Lemma xQueueSend_receive_queue_state item (s : System) :
  (xQueueSend_receive_queue item s).2
  = if QUEUE_LENGTH <=? Z.of_nat (length (receive_queue_ (mgr s)))
    then s else upd_mgr (upd_receive_queue (λ q, q ++ [item])) s.
Proof.
  unfold xQueueSend_receive_queue, bind, gets, modify, ret. cbn [fst snd compose].
  by destruct (QUEUE_LENGTH <=? _).
Qed.

Lemma update_peer_stats_inbound v mac r l :
  preserves (λ s, inbound_view s = v) (update_peer_stats mac r l).
Proof. unfold update_peer_stats, xSemaphoreTake, xSemaphoreGive, advance. frame. Qed.

(** A frame that passes the length and checksum tests of
    [esp_now_recv_cb] is counted as one packet and [len] bytes
    received and is put at the end of the inbound queue, or dropped
    without notice when the queue already holds its twenty items; no
    callback runs and nothing is sent. *)
Theorem valid_frame_is_counted_and_queued src data (s : System) :
  valid_frame data →
  let s' := (esp_now_recv_cb src data s).2 in
  let len := Z.of_nat (length data) in
  statistics_ (mgr s')
  = add_total_bytes_received len (incr_total_packets_received (statistics_ (mgr s)))
  ∧ receive_queue_ (mgr s')
    = (if QUEUE_LENGTH <=? Z.of_nat (length (receive_queue_ (mgr s)))
       then receive_queue_ (mgr s)
       else receive_queue_ (mgr s) ++ [Queued src (frame_of_bytes data)])
  ∧ send_queue_ (mgr s') = send_queue_ (mgr s)
  ∧ sequence_counter_ (mgr s') = sequence_counter_ (mgr s)
  ∧ trace s' = trace s.
Proof.
  intros Hv s' len. unfold s'. rewrite esp_now_recv_cb_accepts by done.
  set (s1 := upd_mgr _ (upd_mgr _ s)).
  set (s2 := (update_peer_stats src true false s1).2).
  assert (Hv2 : inbound_view s2 = inbound_view s1)
    by (by apply update_peer_stats_inbound).
  unfold inbound_view in Hv2. injection Hv2 as Hst Hrq Hsq Hseq Htr.
  rewrite xQueueSend_receive_queue_state. rewrite Hrq.
  replace (receive_queue_ (mgr s1)) with (receive_queue_ (mgr s)) by (by destruct s as [[]]).
  destruct (QUEUE_LENGTH <=? _).
  - rewrite Hst, Hrq, Hsq, Hseq, Htr. by destruct s as [[]].
  - clearbody s2. destruct s2 as [[]]. cbn in *. subst. by destruct s as [[]].
Qed.

Lemma bind_state {St A B} (m : ST St A) (k : A → ST St B) (s : St) :
  (bind m k s).2 = (k (m s).1 (m s).2).2.
Proof. reflexivity. Qed.

Lemma receive_task_step_cons others item rest (s : System) :
  receive_queue_ (mgr s) = item :: rest →
  receive_task_step others s
  = receive_task_handle others item (upd_mgr (upd_receive_queue tail) s).
Proof.
  intros Hq. unfold receive_task_step, bind at 1, gets. cbn [fst snd compose].
  by rewrite Hq.
Qed.

Lemma driver_accepts_head (s : System) :
  driver_accepts s →
  negb (is_ok (default ESP_OK (head (add_peer_rets s))))
  && negb (bool_decide (default ESP_OK (head (add_peer_rets s)) = ESP_ERR_ESPNOW_EXIST))
  = false.
Proof.
  unfold driver_accepts. intros Hd. destruct (add_peer_rets s) as [|e es]; [done|].
  apply Forall_cons in Hd as [[-> | ->] _]; done.
Qed.

(** The state of the table after [add_peer_internal] got the mutex and
    the driver took the peer: the address has a record. *)
Lemma add_peer_internal_registers mac (s : System) :
  peers_mutex_ (mgr s) = false →
  driver_accepts s →
  let s' := (add_peer_internal mac s).2 in
  is_Some (list_find (λ p, mac_addr p = mac) (peers_ (mgr s')))
  ∧ peers_mutex_ (mgr s') = false
  ∧ initialized_ (mgr s') = initialized_ (mgr s)
  ∧ local_mac_ (mgr s') = local_mac_ (mgr s)
  ∧ send_queue_ (mgr s') = send_queue_ (mgr s)
  ∧ receive_queue_ (mgr s') = receive_queue_ (mgr s)
  ∧ statistics_ (mgr s') = statistics_ (mgr s)
  ∧ peer_discovered_callback_ (mgr s') = peer_discovered_callback_ (mgr s)
  ∧ receive_callback_ (mgr s') = receive_callback_ (mgr s).
Proof.
  intros Hm Hd s'. unfold s'. rewrite add_peer_internal_free by done.
  pose proof (driver_accepts_head s Hd) as Hr.
  destruct (find_peer (peers_ (mgr s)) mac) as [i|] eqn:Hf.
  - cbn [snd]. split; [|by destruct s as [[]]].
    assert (Hs : is_Some (find_peer
              (alter (λ p, upd_is_active true (upd_last_seen_us (esp_timer s) p)) i
                 (peers_ (mgr s))) mac)).
    { rewrite find_peer_alter by done. rewrite Hf. by eexists. }
    unfold find_peer in Hs. apply fmap_is_Some in Hs. by destruct s as [[]].
  - cbv zeta. rewrite Hr. cbn [snd]. split; [|by destruct s as [[]]].
    pose proof (find_peer_app_new (peers_ (mgr s)) (PeerInfo mac 0 (esp_timer s) 0 0 0 true))
      as Hs.
    unfold find_peer in Hs. apply fmap_is_Some in Hs. by destruct s as [[]].
Qed.

(** One step of the inbound worker with a discovery request at the
    head of the queue, the mutex free, a driver that takes the peer,
    and room in the outbound queue of an initialised manager: the
    sender has a record afterwards, a discovery response that carries
    the six bytes of the local address is queued for the sender, and
    the peer-discovered callback, when one is set, is called with the
    sender's record. *)
Theorem discovery_request_is_answered others item rest (s : System) :
  receive_queue_ (mgr s) = item :: rest →
  msg_type (q_msg item) = ESP_NOW_MSG_TYPE_DISCOVERY_REQUEST →
  initialized_ (mgr s) = true →
  peers_mutex_ (mgr s) = false →
  driver_accepts s →
  Z.of_nat (length (send_queue_ (mgr s))) < QUEUE_LENGTH →
  let s' := (receive_task_step others s).2 in
  (is_peer_registered (q_mac_addr item) s').1 = true
  ∧ receive_queue_ (mgr s') = rest
  ∧ (∃ response,
       send_queue_ (mgr s')
       = send_queue_ (mgr s) ++ [Queued (q_mac_addr item) response]
       ∧ msg_type response = ESP_NOW_MSG_TYPE_DISCOVERY_RESPONSE
       ∧ payload_length response = 6
       ∧ take 6 (payload response) = mac_bytes (local_mac_ (mgr s)))
  ∧ (peer_discovered_callback_ (mgr s) = true →
     ∃ p, IoPeerDiscovered p ∈ trace s' ∧ mac_addr p = q_mac_addr item).
Proof.
  intros Hq Hty Hinit Hm Hd Hroom s'. unfold s'.
  rewrite (receive_task_step_cons others item rest s Hq).
  set (mac := q_mac_addr item).
  set (s1 := upd_mgr (upd_receive_queue tail) s).
  assert (Hrq1 : receive_queue_ (mgr s1) = tail (receive_queue_ (mgr s))) by reflexivity.
  assert (Hsq1 : send_queue_ (mgr s1) = send_queue_ (mgr s)) by reflexivity.
  assert (Hl1 : local_mac_ (mgr s1) = local_mac_ (mgr s)) by reflexivity.
  assert (Hi1 : initialized_ (mgr s1) = initialized_ (mgr s)) by reflexivity.
  assert (Hm1 : peers_mutex_ (mgr s1) = peers_mutex_ (mgr s)) by reflexivity.
  assert (Hcb1 : peer_discovered_callback_ (mgr s1) = peer_discovered_callback_ (mgr s))
    by reflexivity.
  assert (Hd1 : driver_accepts s1) by exact Hd.
  rewrite Hq in Hrq1. cbn [tail] in Hrq1.
  set (s2 := (add_peer_internal mac s1).2).
  destruct (add_peer_internal_registers mac s1) as
    (Hreg & Hm2 & Hi2 & Hl2 & Hsq2 & Hrq2 & Hst2 & Hcb2 & Hrc2);
    [by rewrite Hm1 | done |].
  fold s2 in Hreg, Hm2, Hi2, Hl2, Hsq2, Hrq2, Hst2, Hcb2, Hrc2.
  destruct (send_message_room others mac ESP_NOW_MSG_TYPE_DISCOVERY_RESPONSE
              (mac_bytes (local_mac_ (mgr s2))) s2)
    as (response & Hsend & Hrty & _ & _ & Hrlen & Hrpay).
  { by rewrite Hi2, Hi1. }
  { by vm_compute. }
  { by rewrite Hsq2, Hsq1. }
  set (s3 := upd_mgr (upd_send_queue (λ q, q ++ [Queued mac response]))
               (upd_mgr (upd_sequence_counter (wrap32 (sequence_counter_ (mgr s2) + 1))) s2))
    in Hsend.
  set (s4 := (notify_peer_discovered mac s3).2).
  assert (Hstep : (receive_task_handle others item s1).2
                  = ((cb <- gets (receive_callback_ ∘ mgr) ;;
                      when cb (emit (IoReceiveCallback mac (q_msg item)))) s4).2).
  { unfold receive_task_handle. fold mac. rewrite bind_state. cbv beta.
    match goal with
    | |- (_ ?x).2 = _ => assert (x = s4) as ->; [|done]
    end.
    rewrite Hty.
    change (ESP_NOW_MSG_TYPE_DISCOVERY_REQUEST =? ESP_NOW_MSG_TYPE_DISCOVERY_REQUEST)
      with true. cbv iota.
    rewrite bind_state. cbv beta. fold s2.
    rewrite bind_state. unfold gets. cbn [fst snd compose].
    rewrite bind_state. rewrite Hsend. cbn [fst snd]. reflexivity. }
  rewrite Hstep.
  assert (Hp3 : peers_ (mgr s3) = peers_ (mgr s2)) by reflexivity.
  assert (Hm3 : peers_mutex_ (mgr s3) = false) by exact Hm2.
  assert (Hrq3 : receive_queue_ (mgr s3) = receive_queue_ (mgr s2)) by reflexivity.
  assert (Hsq3 : send_queue_ (mgr s3) = send_queue_ (mgr s2) ++ [Queued mac response])
    by reflexivity.
  assert (Hcb3 : peer_discovered_callback_ (mgr s3) = peer_discovered_callback_ (mgr s2))
    by reflexivity.
  clearbody s3.
  assert (Hkeep : ∀ t : System,
            let t' := ((cb <- gets (receive_callback_ ∘ mgr) ;;
                        when cb (emit (IoReceiveCallback mac (q_msg item)))) t).2 in
            mgr t' = mgr t ∧ ∀ e, e ∈ trace t → e ∈ trace t').
  { intros t. unfold bind, gets, when, emit, modify, ret. cbn [fst snd compose].
    destruct (receive_callback_ (mgr t)); cbn [snd]; split; try done.
    intros e He. destruct t. cbn in *. apply elem_of_app. by left. }
  destruct (Hkeep s4) as [Hmgr Htrace].
  assert (Hn : mgr s4 = mgr s3
               ∧ (peer_discovered_callback_ (mgr s3) = true →
                  ∃ p, IoPeerDiscovered p ∈ trace s4 ∧ mac_addr p = mac)).
  { unfold s4, notify_peer_discovered, bind, gets, emit, modify, ret.
    cbn [fst snd compose].
    destruct (peer_discovered_callback_ (mgr s3)) eqn:Hcb; cbn [negb snd]; [|done].
    rewrite Hp3.
    destruct (list_find _ (peers_ (mgr s2))) as [[i p]|] eqn:Hfind;
      [|by destruct Hreg as [? [=]]].
    cbn [snd]. split; [by destruct s3|]. intros _. exists p. split.
    - destruct s3. cbn. apply elem_of_app. right. by apply list_elem_of_singleton.
    - by apply list_find_Some in Hfind as (_ & ? & _). }
  destruct Hn as [Hmgr4 Hcb4].
  rewrite is_peer_registered_free by (by rewrite Hmgr, Hmgr4).
  cbn [fst]. rewrite Hmgr, Hmgr4.
  split_and!.
  - apply bool_decide_eq_true. rewrite Hp3. unfold find_peer.
    by apply fmap_is_Some.
  - by rewrite Hrq3, Hrq2.
  - exists response. split_and!.
    + by rewrite Hsq3, Hsq2, Hsq1.
    + done.
    + done.
    + rewrite <- Hl1, <- Hl2. exact Hrpay.
  - intros Hcb. destruct Hcb4 as (p & Hin & Hp).
    + by rewrite Hcb3, Hcb2, Hcb1.
    + exists p. split; [by apply Htrace | done].
Qed.

Lemma receive_callback_state mac msg (t : System) :
  ((cb <- gets (receive_callback_ ∘ mgr) ;;
    when cb (emit (IoReceiveCallback mac msg))) t).2
  = if receive_callback_ (mgr t)
    then upd_trace (λ l, l ++ [IoReceiveCallback mac msg]) t else t.
Proof.
  unfold bind, gets, when, emit, modify, ret. cbn [fst snd compose].
  by destruct (receive_callback_ (mgr t)).
Qed.

Lemma notify_peer_discovered_mgr mac (t : System) :
  mgr (notify_peer_discovered mac t).2 = mgr t.
Proof.
  unfold notify_peer_discovered, bind, gets, emit, modify, ret.
  cbn [fst snd compose].
  destruct (peer_discovered_callback_ (mgr t)); cbn [negb snd]; [|done].
  destruct (list_find _ _) as [[i p]|]; [by destruct t | done].
Qed.

(** One step of the inbound worker with a discovery response at the
    head of the queue, the mutex free and a driver that takes the
    peer: the sender has a record afterwards and
    [discovery_responses_received] goes up by one; nothing is sent in
    return. *)
Theorem discovery_response_is_recorded others item rest (s : System) :
  receive_queue_ (mgr s) = item :: rest →
  msg_type (q_msg item) = ESP_NOW_MSG_TYPE_DISCOVERY_RESPONSE →
  peers_mutex_ (mgr s) = false →
  driver_accepts s →
  let s' := (receive_task_step others s).2 in
  (is_peer_registered (q_mac_addr item) s').1 = true
  ∧ receive_queue_ (mgr s') = rest
  ∧ statistics_ (mgr s') = incr_discovery_responses_received (statistics_ (mgr s))
  ∧ send_queue_ (mgr s') = send_queue_ (mgr s).
Proof.
  intros Hq Hty Hm Hd s'. unfold s'.
  rewrite (receive_task_step_cons others item rest s Hq).
  set (mac := q_mac_addr item).
  set (s1 := upd_mgr (upd_receive_queue tail) s).
  assert (Hrq1 : receive_queue_ (mgr s1) = tail (receive_queue_ (mgr s))) by reflexivity.
  assert (Hsq1 : send_queue_ (mgr s1) = send_queue_ (mgr s)) by reflexivity.
  assert (Hst1 : statistics_ (mgr s1) = statistics_ (mgr s)) by reflexivity.
  assert (Hm1 : peers_mutex_ (mgr s1) = peers_mutex_ (mgr s)) by reflexivity.
  assert (Hd1 : driver_accepts s1) by exact Hd.
  rewrite Hq in Hrq1. cbn [tail] in Hrq1.
  set (s2 := (add_peer_internal mac s1).2).
  destruct (add_peer_internal_registers mac s1) as
    (Hreg & Hm2 & Hi2 & Hl2 & Hsq2 & Hrq2 & Hst2 & Hcb2 & Hrc2);
    [by rewrite Hm1 | done |].
  fold s2 in Hreg, Hm2, Hi2, Hl2, Hsq2, Hrq2, Hst2, Hcb2, Hrc2.
  set (s3 := upd_mgr (upd_statistics incr_discovery_responses_received) s2).
  set (s4 := (notify_peer_discovered mac s3).2).
  assert (Hstep : (receive_task_handle others item s1).2
                  = ((cb <- gets (receive_callback_ ∘ mgr) ;;
                      when cb (emit (IoReceiveCallback mac (q_msg item)))) s4).2).
  { unfold receive_task_handle. fold mac. rewrite bind_state. cbv beta.
    match goal with
    | |- (_ ?x).2 = _ => assert (x = s4) as ->; [|done]
    end.
    rewrite Hty.
    change (ESP_NOW_MSG_TYPE_DISCOVERY_RESPONSE =? ESP_NOW_MSG_TYPE_DISCOVERY_REQUEST)
      with false.
    change (ESP_NOW_MSG_TYPE_DISCOVERY_RESPONSE =? ESP_NOW_MSG_TYPE_DISCOVERY_RESPONSE)
      with true. cbv iota.
    rewrite bind_state. cbv beta. fold s2.
    rewrite bind_state. unfold modify at 1. cbn [fst snd]. reflexivity. }
  rewrite Hstep, receive_callback_state.
  assert (Hmgr4 : mgr s4 = mgr s3) by apply notify_peer_discovered_mgr.
  assert (Hp3 : peers_ (mgr s3) = peers_ (mgr s2)) by reflexivity.
  assert (Hm3 : peers_mutex_ (mgr s3) = false) by exact Hm2.
  assert (Hrq3 : receive_queue_ (mgr s3) = receive_queue_ (mgr s2)) by reflexivity.
  assert (Hsq3 : send_queue_ (mgr s3) = send_queue_ (mgr s2)) by reflexivity.
  assert (Hst3 : statistics_ (mgr s3)
                 = incr_discovery_responses_received (statistics_ (mgr s2)))
    by reflexivity.
  clearbody s3 s4.
  assert (Hmgr : mgr (if receive_callback_ (mgr s4)
                      then upd_trace (λ l, l ++ [IoReceiveCallback mac (q_msg item)]) s4
                      else s4) = mgr s3).
  { destruct (receive_callback_ (mgr s4)); [|done]. by destruct s4. }
  rewrite is_peer_registered_free by (by rewrite Hmgr).
  cbn [fst]. rewrite Hmgr. split_and!.
  - apply bool_decide_eq_true. rewrite Hp3. unfold find_peer. by apply fmap_is_Some.
  - by rewrite Hrq3, Hrq2.
  - by rewrite Hst3, Hst2, Hst1.
  - by rewrite Hsq3, Hsq2, Hsq1.
Qed.

(** A queued frame that is neither a discovery frame nor a ping (a
    pong, a data frame, a test frame, an unknown type) only reaches
    the receive callback, when one is set: the inbound worker takes it
    from the queue and changes neither the peer table nor the
    statistics, and sends nothing.  In particular a pong is not
    matched with a ping here. *)
Theorem other_frames_only_reach_the_callback others item rest (s : System) :
  receive_queue_ (mgr s) = item :: rest →
  msg_type (q_msg item) ≠ ESP_NOW_MSG_TYPE_DISCOVERY_REQUEST →
  msg_type (q_msg item) ≠ ESP_NOW_MSG_TYPE_DISCOVERY_RESPONSE →
  msg_type (q_msg item) ≠ ESP_NOW_MSG_TYPE_PING →
  let s' := (receive_task_step others s).2 in
  receive_queue_ (mgr s') = rest
  ∧ peers_ (mgr s') = peers_ (mgr s)
  ∧ statistics_ (mgr s') = statistics_ (mgr s)
  ∧ send_queue_ (mgr s') = send_queue_ (mgr s)
  ∧ sequence_counter_ (mgr s') = sequence_counter_ (mgr s)
  ∧ trace s'
    = trace s ++ (if receive_callback_ (mgr s)
                  then [IoReceiveCallback (q_mac_addr item) (q_msg item)] else []).
Proof.
  intros Hq H1 H2 H3 s'. unfold s'.
  rewrite (receive_task_step_cons others item rest s Hq).
  set (s1 := upd_mgr (upd_receive_queue tail) s).
  assert (Hstep : (receive_task_handle others item s1).2
                  = ((cb <- gets (receive_callback_ ∘ mgr) ;;
                      when cb (emit (IoReceiveCallback (q_mac_addr item) (q_msg item))))
                       s1).2).
  { unfold receive_task_handle. rewrite bind_state. cbv beta.
    match goal with
    | |- (_ ?x).2 = _ => assert (x = s1) as ->; [|done]
    end.
    apply Z.eqb_neq in H1, H2, H3. by rewrite H1, H2, H3. }
  rewrite Hstep, receive_callback_state.
  replace (receive_callback_ (mgr s1)) with (receive_callback_ (mgr s)) by reflexivity.
  unfold s1.
  destruct s as [[ini act lm seq ps st rq sq mx rt stk dt rc sc pc] tm tr ag ar sr rw res].
  cbn in Hq |- *. subst.
  destruct rc; cbn; by rewrite ?app_nil_r.
Qed.
End receiving.

(** ** The send callback *)

Section callbacks.
Context `{EspIdf}.

Lemma update_peer_stats_free mac received lost (s : System) :
  peers_mutex_ (mgr s) = false →
  update_peer_stats mac received lost s
  = (tt,
     match find_peer (peers_ (mgr s)) mac with
     | Some i =>
         upd_mgr (upd_peers (alter (λ p,
           upd_last_seen_us (esp_timer s)
             (if received then upd_packets_received (wrap32 (packets_received p + 1)) p
              else if lost then upd_packets_lost (wrap32 (packets_lost p + 1)) p
              else upd_packets_sent (wrap32 (packets_sent p + 1)) p)) i)) s
     | None => s
     end).
Proof.
  intros Hm. destruct s as [m tm tr ag ar sr rw res]. cbn in Hm.
  unfold update_peer_stats, find_peer, xSemaphoreTake, xSemaphoreGive,
    get_timestamp_us, bind, gets, modify, ret.
  cbn. rewrite Hm. cbn.
  destruct (list_find _ (peers_ m)) as [[i p]|]; cbn.
  - f_equal. unfold upd_mgr. cbn. f_equal. destruct m; cbn in *. by subst.
  - f_equal. unfold upd_mgr. cbn. f_equal. by apply mutex_round_trip.
Qed.

Lemma esp_now_send_cb_state dst ok (s : System) :
  (esp_now_send_cb dst ok s).2
  = (update_peer_stats dst false (negb ok)
       (upd_mgr (upd_statistics (if ok then incr_total_packets_sent
                                 else incr_total_packets_lost))
          (if send_callback_ (mgr s)
           then upd_trace (λ t, t ++ [IoSendCallback dst ok]) s else s))).2.
Proof.
  unfold esp_now_send_cb, bind, gets, when, emit, modify, ret.
  cbn [fst snd compose].
  by destruct ok, (send_callback_ (mgr s)).
Qed.

Lemma send_callback_counts_once_aux dst ok (s : System) :
  peers_mutex_ (mgr s) = false →
  let s' := (esp_now_send_cb dst ok s).2 in
  statistics_ (mgr s')
  = (if ok then incr_total_packets_sent (statistics_ (mgr s))
     else incr_total_packets_lost (statistics_ (mgr s)))
  ∧ peers_ (mgr s')
    = match find_peer (peers_ (mgr s)) dst with
      | Some i => alter (count_send ok (esp_timer s)) i (peers_ (mgr s))
      | None => peers_ (mgr s)
      end
  ∧ trace s'
    = trace s ++ (if send_callback_ (mgr s) then [IoSendCallback dst ok] else [])
  ∧ peers_mutex_ (mgr s') = false
  ∧ esp_timer s' = esp_timer s.
Proof.
  intros Hm s'. unfold s'. rewrite esp_now_send_cb_state.
  set (s1 := upd_mgr _ _).
  assert (Hm1 : peers_mutex_ (mgr s1) = false)
    by (unfold s1; by destruct (send_callback_ (mgr s)); destruct s as [[]]).
  assert (Hp1 : peers_ (mgr s1) = peers_ (mgr s))
    by (unfold s1; by destruct (send_callback_ (mgr s)); destruct s as [[]]).
  assert (Ht1 : esp_timer s1 = esp_timer s)
    by (unfold s1; by destruct (send_callback_ (mgr s)); destruct s as [[]]).
  assert (Hst1 : statistics_ (mgr s1)
                 = if ok then incr_total_packets_sent (statistics_ (mgr s))
                   else incr_total_packets_lost (statistics_ (mgr s)))
    by (unfold s1; by destruct ok, (send_callback_ (mgr s)); destruct s as [[]]).
  assert (Htr1 : trace s1 = trace s ++ (if send_callback_ (mgr s)
                                        then [IoSendCallback dst ok] else [])).
  { unfold s1. destruct (send_callback_ (mgr s)); [by destruct s|].
    cbn. by rewrite app_nil_r. }
  clearbody s1.
  rewrite update_peer_stats_free by done. cbn [snd].
  rewrite Hp1, Ht1. rewrite <- Hst1, <- Htr1, <- Hp1.
  destruct (find_peer (peers_ (mgr s1)) dst) as [i|].
  - destruct s1 as [[]]. cbn in *. split_and!; try done.
    by destruct ok.
  - done.
Qed.

(** [esp_now_send_cb] with the mutex free: the user's send callback,
    when one is set, is called first; then exactly one of
    [total_packets_sent] and [total_packets_lost] goes up by one, and
    so does the matching counter in the record of the destination, if
    it has one, whose [last_seen_us] is set to the clock, for a failed
    send as for a delivered one. *)
Theorem send_callback_counts_once dst ok (s : System) :
  peers_mutex_ (mgr s) = false →
  let s' := (esp_now_send_cb dst ok s).2 in
  statistics_ (mgr s')
  = (if ok then incr_total_packets_sent (statistics_ (mgr s))
     else incr_total_packets_lost (statistics_ (mgr s)))
  ∧ peers_ (mgr s')
    = match find_peer (peers_ (mgr s)) dst with
      | Some i => alter (count_send ok (esp_timer s)) i (peers_ (mgr s))
      | None => peers_ (mgr s)
      end
  ∧ trace s'
    = trace s ++ (if send_callback_ (mgr s) then [IoSendCallback dst ok] else [])
  ∧ peers_mutex_ (mgr s') = false
  ∧ esp_timer s' = esp_timer s.
Proof. intros Hm. exact (send_callback_counts_once_aux dst ok s Hm). Qed.

(** One sweep with the mutex free over a table without duplicates. *)
Lemma sweep_result (s : System) :
  peers_mutex_ (mgr s) = false →
  unique_addresses s →
  peers_ (mgr (peer_cleanup_sweep s).2)
  = filter (λ p, stale (esp_timer s) p = false) (peers_ (mgr s)).
Proof.
  intros Hm Hu. unfold peer_cleanup_sweep. rewrite bind_state.
  rewrite get_peers_free by done. cbn [fst snd].
  rewrite bind_state. unfold gets at 1. cbn [fst snd].
  by destruct (sweep_loop (esp_timer s) (peers_ (mgr s)) [] s Hm eq_refl Hu) as [_ ?].
Qed.

(** The sweep never removes a peer right after a send callback for it:
    the callback has just set the record's [last_seen_us] to the
    clock, whether the send was delivered or not.  A peer that never
    answers therefore stays in the table for as long as frames are
    sent to it at least once a minute. *)
Theorem peer_that_is_sent_to_is_not_swept dst ok (s : System) :
  peers_mutex_ (mgr s) = false →
  unique_addresses s →
  dst ∈ mac_addr <$> peers_ (mgr s) →
  let s' := (peer_cleanup_sweep (esp_now_send_cb dst ok s).2).2 in
  dst ∈ mac_addr <$> peers_ (mgr s').
Proof.
  intros Hm Hu Hin s'. unfold s'.
  pose proof (esp_now_send_cb_unique dst ok s Hu) as Hu1.
  destruct (send_callback_counts_once_aux dst ok s Hm) as (_ & Hp1 & _ & Hm1 & Ht1).
  set (s1 := (esp_now_send_cb dst ok s).2) in *. clearbody s1.
  rewrite sweep_result by done. rewrite Ht1, Hp1.
  destruct (find_peer (peers_ (mgr s)) dst) as [i|] eqn:Hf;
    [|apply find_peer_None in Hf; by destruct Hf].
  unfold find_peer in Hf. apply fmap_Some in Hf as ([i' p] & Hf & ->).
  apply list_find_Some in Hf as (Hi & Hp & _). cbn [fst].
  apply list_elem_of_fmap. exists (count_send ok (esp_timer s) p). split.
  - rewrite <- Hp. by destruct ok, p.
  - apply list_elem_of_filter. split.
    + unfold stale, count_send. destruct ok; cbn; by rewrite Z.sub_diag.
    + apply list_elem_of_lookup. exists i'. by rewrite list_lookup_alter_eq, Hi.
Qed.
End callbacks.

(** ** Start-up, shut-down and discovery *)

Section lifecycle.
Context `{EspIdf}.







End lifecycle.

(** ** Shut-down and discovery *)

Section discovery.
Context `{EspIdf}.

(** [deinitialize] on an initialised manager returns [ESP_OK] and
    leaves it as before [initialize], except that the counters
    survive: discovery is stopped, both workers and both queues are
    gone, the peer table is empty, while the statistics, the sequence
    counter and the local address are kept.  Every later send is
    refused with [ESP_ERR_INVALID_STATE] and changes nothing, and a
    second [deinitialize] is a no-op. *)
Theorem deinitialize_forgets_peers_and_keeps_counters others (s : System) :
  initialized_ (mgr s) = true →
  let r := deinitialize s in
  r.1 = ESP_OK
  ∧ initialized_ (mgr r.2) = false
  ∧ discovery_active_ (mgr r.2) = false
  ∧ discovery_task_handle_ (mgr r.2) = (discovery_task_handle_ (mgr s)
                                         && negb (discovery_active_ (mgr s)))
  ∧ receive_task_handle_ (mgr r.2) = false
  ∧ send_task_handle_ (mgr r.2) = false
  ∧ peers_ (mgr r.2) = []
  ∧ receive_queue_ (mgr r.2) = [] ∧ send_queue_ (mgr r.2) = []
  ∧ statistics_ (mgr r.2) = statistics_ (mgr s)
  ∧ sequence_counter_ (mgr r.2) = sequence_counter_ (mgr s)
  ∧ local_mac_ (mgr r.2) = local_mac_ (mgr s)
  ∧ trace r.2 = trace s
  ∧ (∀ mac type data,
       send_message others mac type data r.2 = (ESP_ERR_INVALID_STATE, r.2))
  ∧ send_discovery_request others r.2 = (ESP_ERR_INVALID_STATE, r.2)
  ∧ (∀ d, start_discovery others d r.2 = (ESP_ERR_INVALID_STATE, r.2))
  ∧ deinitialize r.2 = (ESP_OK, r.2).
Proof.
  intros Hi r.
  assert (Hr : r = (ESP_OK,
            upd_mgr (upd_initialized false)
              (upd_mgr (upd_peers (λ _, []))
                 (upd_mgr (upd_peers_mutex false)
                    (upd_mgr (upd_send_queue (λ _, []))
                       (upd_mgr (upd_receive_queue (λ _, []))
                          (upd_mgr (upd_task_handles false false)
                             (stop_discovery s).2))))))).
  { unfold r, deinitialize, bind, gets, modify, ret. cbn [fst snd compose].
    by rewrite Hi. }
  rewrite Hr. cbn [fst snd]. clear r Hr.
  unfold stop_discovery, bind, gets, modify, ret. cbn [fst snd compose].
  destruct (discovery_active_ (mgr s)) eqn:Ha; cbn.
  all: rewrite ?andb_false_r, ?andb_true_r.
  all: split_and!; try done.
  all: try (intros; unfold send_message, send_discovery_request, start_discovery,
              deinitialize, bind, gets; cbn; done).
Qed.

(** The tasks and callbacks that run while a call waits do not touch
    the schedule. *)
Lemma events_keep_the_agenda ag es : preserves (λ s, agenda s = ag) (run_events es).
Proof.
  unfold run_events. frame. destruct x; cbn [run_event].
  all: unfold esp_now_recv_cb, esp_now_send_cb, receive_task_step,
         receive_task_handle, send_task_step, discovery_task_step,
         peer_cleanup_sweep, notify_peer_discovered, send_discovery_request,
         add_peer_internal, remove_peer, get_peers, update_peer_stats,
         send_message, xQueueSend_send_queue, xQueueSend_receive_queue,
         esp_now_send, esp_now_add_peer, esp_now_del_peer,
         xSemaphoreTake, xSemaphoreGive, get_timestamp_us, nobody,
         advance, emit.
  all: frame.
Qed.

(** A task that blocks gives the next entry of the schedule its turn. *)
Lemma yield_takes_one_entry (s : System) : agenda (yield s).2 = tail (agenda s).
Proof.
  unfold yield. rewrite run_gets.
  destruct (agenda s) as [|es rest] eqn:Ha; [exact Ha|].
  rewrite run_modify. by apply events_keep_the_agenda.
Qed.

Lemma vTaskDelay_state others ms (s : System) :
  (vTaskDelay others ms s).2 = (others (timed_out ms s)).2.
Proof. reflexivity. Qed.

(** [start_discovery] up to its wait. *)
Lemma start_discovery_starts d (s : System) :
  initialized_ (mgr s) = true →
  discovery_active_ (mgr s) = false →
  default ESP_OK (head (add_peer_rets s)) = ESP_OK
  ∨ default ESP_OK (head (add_peer_rets s)) = ESP_ERR_ESPNOW_EXIST →
  start_discovery yield d s
  = (ESP_OK,
     (when (0 <? d) (vTaskDelay yield d ;;; _ <- stop_discovery ;; ret tt)
        (discovery_started s)).2).
Proof.
  intros Hi Ha Hd. unfold start_discovery, esp_now_add_peer, emit.
  rewrite run_gets. cbn [compose]. rewrite Hi. cbn [negb].
  rewrite run_gets. cbn [compose]. rewrite Ha.
  rewrite run_assoc, run_modify, run_assoc, run_gets, run_assoc, run_modify,
    run_ret.
  assert (Hb : negb (is_ok (default ESP_OK (head (add_peer_rets s))))
               && negb (bool_decide (default ESP_OK (head (add_peer_rets s))
                                     = ESP_ERR_ESPNOW_EXIST)) = false)
    by (by destruct Hd as [-> | ->]).
  cbn [upd_trace add_peer_rets]. rewrite Hb.
  unfold bind, modify, ret, discovery_started. cbn [fst snd]. reflexivity.
Qed.

(** [start_discovery] with a positive duration. *)
Lemma start_discovery_blocks d (s : System) :
  initialized_ (mgr s) = true →
  discovery_active_ (mgr s) = false →
  default ESP_OK (head (add_peer_rets s)) = ESP_OK
  ∨ default ESP_OK (head (add_peer_rets s)) = ESP_ERR_ESPNOW_EXIST →
  0 < d →
  start_discovery yield d s
  = (ESP_OK,
     upd_mgr (upd_discovery_task_handle false)
       (upd_mgr (upd_discovery_active false)
          (yield (timed_out d (discovery_started s))).2)).
Proof.
  intros Hi Ha Hd Hpos. rewrite start_discovery_starts by done.
  assert (Hb : (0 <? d) = true) by (apply Z.ltb_lt; lia).
  rewrite Hb. cbn [when]. f_equal.
  set (s2 := (yield (timed_out d (discovery_started s))).2).
  assert (H2 : initialized_ (mgr s2) = true ∧ discovery_active_ (mgr s2) = true).
  { unfold s2. apply workers_keep_the_switches. by split. }
  destruct H2 as [_ Ha2].
  rewrite run_bind, vTaskDelay_state. fold s2. clearbody s2.
  unfold stop_discovery, bind, gets, modify, ret. cbn [fst snd compose].
  by rewrite Ha2.
Qed.


Lemma length_mac_bytes a : length (mac_bytes a) = 6%nat.
Proof. done. Qed.

(** One round of discovery on an initialised manager:
    [send_discovery_request] counts the request in
    [discovery_requests_sent] whether or not it could be queued.  With
    room in the outbound queue it returns [ESP_OK] and queues one
    discovery request for the broadcast address whose payload starts
    with the six bytes of the local address; with the queue full for
    the second it waits it returns [ESP_ERR_TIMEOUT], queues nothing
    and has counted the request all the same. *)
Theorem discovery_request_is_counted_even_if_not_queued (s : System) :
  initialized_ (mgr s) = true →
  let r := send_discovery_request nobody s in
  discovery_requests_sent (statistics_ (mgr r.2))
  = wrap32 (discovery_requests_sent (statistics_ (mgr s)) + 1)
  ∧ (Z.of_nat (length (send_queue_ (mgr s))) < QUEUE_LENGTH →
     r.1 = ESP_OK
     ∧ ∃ msg, send_queue_ (mgr r.2)
              = send_queue_ (mgr s) ++ [Queued ESP_NOW_BROADCAST_ADDR msg]
       ∧ msg_type msg = ESP_NOW_MSG_TYPE_DISCOVERY_REQUEST
       ∧ sequence_number msg = sequence_counter_ (mgr s)
       ∧ payload_length msg = 6
       ∧ take 6 (payload msg) = mac_bytes (local_mac_ (mgr s)))
  ∧ (QUEUE_LENGTH ≤ Z.of_nat (length (send_queue_ (mgr s))) →
     r.1 = ESP_ERR_TIMEOUT ∧ send_queue_ (mgr r.2) = send_queue_ (mgr s)).
Proof.
  intros Hi r.
  set (s1 := upd_mgr (upd_statistics incr_discovery_requests_sent) s).
  assert (Hr : r = send_message nobody ESP_NOW_BROADCAST_ADDR
                     ESP_NOW_MSG_TYPE_DISCOVERY_REQUEST
                     (mac_bytes (local_mac_ (mgr s))) s1).
  { unfold r, send_discovery_request.
    unfold bind at 1, gets at 1. cbn [fst snd compose]. rewrite Hi. cbn [negb].
    reflexivity. }
  rewrite Hr. clear r Hr.
  assert (Hi1 : initialized_ (mgr s1) = true) by exact Hi.
  assert (Hl : Z.of_nat (length (mac_bytes (local_mac_ (mgr s)))) ≤ PAYLOAD_CAPACITY)
    by (rewrite length_mac_bytes; by vm_compute).
  destruct (Z.lt_ge_cases (Z.of_nat (length (send_queue_ (mgr s)))) QUEUE_LENGTH)
    as [Hroom | Hfull].
  - destruct (send_message_room nobody ESP_NOW_BROADCAST_ADDR
                ESP_NOW_MSG_TYPE_DISCOVERY_REQUEST
                (mac_bytes (local_mac_ (mgr s))) s1 Hi1 Hl Hroom)
      as (msg & -> & Ht & Hseq & _ & Hlen & Hpay).
    cbn [fst snd]. split_and!; try done; [|lia].
    intros _. split; [done|]. exists msg. split_and!; done.
  - unfold send_message, bind, gets, modify, ret, get_timestamp_us.
    cbn [fst snd compose]. rewrite Hi1. cbn [negb].
    destruct (Z.ltb_spec PAYLOAD_CAPACITY
                (Z.of_nat (length (mac_bytes (local_mac_ (mgr s)))))); [lia|].
    rewrite xQueueSend_send_queue_full by exact Hfull.
    cbn [fst snd]. split_and!; try done. lia.
Qed.
End discovery.

(** ** The discovery scenario of [PerformanceTests] *)

Section rediscovery.
Context `{EspIdf}.

(** Counting a frame for an address that has no record changes nothing. *)
Lemma update_peer_stats_unheard a ar mac received lost :
  preserves (no_peer_heard a ar) (update_peer_stats mac received lost).
Proof.
  intros s Hs. pose proof Hs as (_ & _ & Hm & Hp & _).
  rewrite update_peer_stats_free by exact Hm. rewrite Hp. exact Hs.
Qed.

(** No task and no callback other than the receive callback gives the
    manager a peer or a frame to handle. *)
Lemma silent_event_unheard a ar (e : bg_event) :
  silent e → preserves (no_peer_heard a ar) (run_event e).
Proof.
  intros He. destruct e; cbn [run_event]; [done | | | | | |].
  - unfold esp_now_send_cb, emit. frame; apply update_peer_stats_unheard.
  - frame. intros s Hs. pose proof Hs as (_ & _ & _ & _ & Hq & _).
    unfold receive_task_step. rewrite run_gets. cbn [compose]. by rewrite Hq.
  - unfold send_task_step, esp_now_send, emit. frame.
  - unfold discovery_task_step, send_discovery_request, send_message,
      xQueueSend_send_queue, get_timestamp_us, nobody, advance. frame.
  - frame. intros s Hs. pose proof Hs as (_ & _ & Hm & Hp & _).
    unfold peer_cleanup_sweep. rewrite run_bind, get_peers_free by exact Hm.
    rewrite Hp. exact Hs.
  - unfold advance. frame.
Qed.

Lemma silent_events_unheard a ar (es : list bg_event) :
  Forall silent es → preserves (no_peer_heard a ar) (run_events es).
Proof.
  unfold run_events. induction 1 as [|e es He _ IH]; cbn [for_each].
  - apply preserves_ret.
  - apply preserves_bind; [by apply silent_event_unheard | intros _; exact IH].
Qed.

(** While the running task is blocked and no frame comes in, the next
    entry of the schedule has its turn and no peer appears. *)
Lemma yield_unheard a ar (s : System) :
  no_peer_heard a ar s →
  Forall (Forall silent) (agenda s) →
  no_peer_heard a ar (yield s).2
  ∧ agenda (yield s).2 = tail (agenda s)
  ∧ Forall (Forall silent) (agenda (yield s).2).
Proof.
  intros Hs Hag.
  assert (Htl : agenda (yield s).2 = tail (agenda s))
    by apply yield_takes_one_entry.
  split; [| split; [exact Htl|]].
  - unfold yield. rewrite run_gets.
    destruct (agenda s) as [|es rest] eqn:Ha; [exact Hs|].
    rewrite run_modify. apply silent_events_unheard; [by inversion Hag|].
    exact Hs.
  - rewrite Htl. destruct (agenda s); [done | by inversion Hag].
Qed.

Lemma tail_accepts (l : list esp_err_t) :
  Forall (λ e, e = ESP_OK ∨ e = ESP_ERR_ESPNOW_EXIST) l →
  Forall (λ e, e = ESP_OK ∨ e = ESP_ERR_ESPNOW_EXIST) (tail l).
Proof. intros Hl. destruct l; [done | by inversion Hl]. Qed.

Lemma head_accepts (l : list esp_err_t) :
  Forall (λ e, e = ESP_OK ∨ e = ESP_ERR_ESPNOW_EXIST) l →
  default ESP_OK (head l) = ESP_OK ∨ default ESP_OK (head l) = ESP_ERR_ESPNOW_EXIST.
Proof. intros Hl. destruct l; [by left | by inversion Hl]. Qed.

(** Removing every peer of a copy of the table empties the table. *)
Lemma remove_all (l : list esp_now_peer_info_t) (s : System) :
  peers_mutex_ (mgr s) = false →
  NoDup (mac_addr <$> peers_ (mgr s)) →
  (∀ a, a ∈ mac_addr <$> peers_ (mgr s) → a ∈ mac_addr <$> l) →
  ∃ tr, (for_each l (λ peer, _ <- remove_peer (mac_addr peer) ;; ret tt) s).2
        = upd_mgr (upd_peers (λ _, [])) (upd_trace (λ _, tr) s).
Proof.
  revert s. induction l as [|x l IH]; intros s Hm Hnd Hsub.
  - exists (trace s). cbn [for_each ret snd].
    assert (Hp : peers_ (mgr s) = []).
    { destruct (peers_ (mgr s)) as [|p ps] eqn:Hp; [done|].
      specialize (Hsub (mac_addr p)). rewrite fmap_cons in Hsub.
      ospecialize (Hsub _); [left|]. by apply elem_of_nil in Hsub. }
    destruct s as [m ? ? ? ? ? ? ?]. cbn in *. unfold upd_mgr, upd_trace. cbn.
    f_equal. destruct m; cbn in *. by subst.
  - cbn [for_each]. rewrite run_bind. rewrite run_bind.
    cbn [ret fst snd]. rewrite remove_peer_free by done.
    destruct (list_find _ (peers_ (mgr s))) as [[i p]|] eqn:Hf; cbn [snd].
    + apply list_find_Some in Hf as (Hi & Hp & Hfirst).
      edestruct (IH (upd_mgr (upd_peers (delete i))
                       (upd_trace (λ t, t ++ [IoDelPeer (mac_addr x)]) s)))
        as [tr Htr].
      * done.
      * cbn. rewrite list_fmap_delete. eapply sublist_NoDup; [exact Hnd|].
        apply sublist_delete.
      * cbn. intros a Ha.
        assert (Ha' : a ∈ mac_addr <$> peers_ (mgr s)).
        { eapply elem_of_sublist; [exact Ha|].
          rewrite list_fmap_delete. apply sublist_delete. }
        specialize (Hsub a Ha'). rewrite fmap_cons in Hsub.
        apply elem_of_cons in Hsub as [-> | Hin]; [|done].
        exfalso. rewrite list_fmap_delete in Ha.
        assert (Hix : (mac_addr <$> peers_ (mgr s)) !! i = Some (mac_addr x))
          by (by rewrite list_lookup_fmap, Hi; cbn; rewrite Hp).
        apply list_elem_of_lookup in Ha as [j Hj].
        destruct (decide (j < i)%nat) as [Hlt | Hge].
        -- rewrite list_lookup_delete_lt in Hj by done.
           pose proof (NoDup_lookup _ _ _ _ Hnd Hj Hix). lia.
        -- rewrite list_lookup_delete_ge in Hj by lia.
           pose proof (NoDup_lookup _ _ _ _ Hnd Hj Hix). lia.
      * exists tr. rewrite Htr. reflexivity.
    + edestruct (IH s) as [tr Htr]; [done | done | | by exists tr].
      intros a Ha. specialize (Hsub a Ha). rewrite fmap_cons in Hsub.
      apply elem_of_cons in Hsub as [-> | Hin]; [|done].
      exfalso. apply list_find_None in Hf. rewrite Forall_forall in Hf.
      apply list_elem_of_fmap in Ha as (q & Hq & Hqin). by apply (Hf q).
Qed.

(** [start_discovery] with a positive duration while no frame comes in. *)
Lemma start_discovery_unheard d ar (s : System) :
  no_peer_heard false ar s →
  Forall (λ e, e = ESP_OK ∨ e = ESP_ERR_ESPNOW_EXIST) ar →
  Forall (Forall silent) (agenda s) →
  0 < d →
  ∃ s', start_discovery yield d s = (ESP_OK, s')
        ∧ no_peer_heard false (tail ar) s'
        ∧ agenda s' = tail (agenda s)
        ∧ Forall (Forall silent) (agenda s').
Proof.
  intros Hs Har Hag Hd. pose proof Hs as (Hi & Ha & Hm & Hp & Hq & Hr).
  eexists. split.
  { apply start_discovery_blocks; [exact Hi | exact Ha | | exact Hd].
    rewrite Hr. by apply head_accepts. }
  assert (Hst : no_peer_heard true (tail ar) (timed_out d (discovery_started s))).
  { unfold no_peer_heard. cbn. rewrite Hr. by split_and!. }
  destruct (yield_unheard true (tail ar) (timed_out d (discovery_started s)) Hst Hag)
    as (H2 & Hag2 & Hsil2).
  set (s2 := (yield (timed_out d (discovery_started s))).2) in *. clearbody s2.
  destruct H2 as (Hi2 & Ha2 & Hm2 & Hp2 & Hq2 & Hr2).
  split; [by split_and! | split; [exact Hag2 | exact Hsil2]].
Qed.

(** The discovery scenario while no frame comes in. *)
Lemma basic_discovery_unheard timeout_ms (p : PerformanceTests.t) :
  radio_silence (PerformanceTests.sys p) →
  unique_addresses (PerformanceTests.sys p) →
  0 < timeout_ms →
  ∃ time p',
    PerformanceTests.test_basic_discovery timeout_ms p
    = ((ESP_OK,
        PerformanceTests.DiscoveryResult 0 time [] F32.zero F32.zero F32.zero false),
       p')
    ∧ radio_silence (PerformanceTests.sys p')
    ∧ peers_ (mgr (PerformanceTests.sys p')) = []
    ∧ agenda (PerformanceTests.sys p') = tail (tail (agenda (PerformanceTests.sys p)))
    ∧ PerformanceTests.test_active_ p' = false.
Proof.
  intros Hq Hu Hd. set (s := PerformanceTests.sys p).
  pose proof Hq as (Hi & Ha & Hm & Hrq & Hdrv & Hag). fold s in Hi, Ha, Hm, Hrq, Hdrv, Hag.
  destruct (remove_all (peers_ (mgr s)) s Hm Hu (λ a Ha, Ha)) as [tr Htr].
  set (s1 := upd_mgr (upd_peers (λ _, [])) (upd_trace (λ _, tr) s)) in Htr.
  assert (H1 : no_peer_heard false (add_peer_rets s) s1) by (by split_and!).
  destruct (start_discovery_unheard timeout_ms (add_peer_rets s) s1 H1 Hdrv Hag Hd)
    as (s3 & E3 & H3 & Hag3 & Hsil3).
  assert (H3t : no_peer_heard false (tail (add_peer_rets s)) (timed_out timeout_ms s3)).
  { destruct H3 as (? & ? & ? & ? & ? & ?). by split_and!. }
  destruct (yield_unheard false (tail (add_peer_rets s)) (timed_out timeout_ms s3)
              H3t Hsil3) as (H4 & Hag4 & Hsil4).
  set (s4 := (yield (timed_out timeout_ms s3)).2) in *.
  assert (E4 : vTaskDelay yield timeout_ms s3 = (tt, s4)).
  { apply injective_projections; cbn [fst snd].
    - by destruct (vTaskDelay yield timeout_ms s3).1.
    - exact (vTaskDelay_state yield timeout_ms s3). }
  change (agenda (timed_out timeout_ms s3)) with (agenda s3) in Hag4.
  rewrite Hag3 in Hag4. change (agenda s1) with (agenda s) in Hag4.
  clearbody s4. clear H3t.
  pose proof H4 as (Hi4 & Ha4 & Hm4 & Hp4 & Hq4 & Hr4).
  eexists _, _. split.
  - unfold PerformanceTests.test_basic_discovery, PerformanceTests.now,
      PerformanceTests.delay.
    rewrite run_modify, run_bind. cbn [PerformanceTests.lift fst snd gets].
    rewrite run_bind. cbn [PerformanceTests.lift fst snd PerformanceTests.sys
                             PerformanceTests.upd_sys PerformanceTests.upd_test_active].
    fold s. rewrite (get_peers_free s Hm). cbn [fst snd].
    rewrite run_bind. cbn [PerformanceTests.lift fst snd PerformanceTests.sys
                             PerformanceTests.upd_sys]. fold s.
    rewrite Htr.
    rewrite run_bind. cbn [PerformanceTests.lift fst snd PerformanceTests.sys
                             PerformanceTests.upd_sys].
    rewrite E3. cbn [fst snd].
    change (negb (is_ok ESP_OK)) with false. cbv iota.
    rewrite run_bind. cbn [PerformanceTests.lift fst snd PerformanceTests.sys
                             PerformanceTests.upd_sys].
    rewrite E4. cbn [fst snd].
    rewrite run_bind. cbn [PerformanceTests.lift fst snd PerformanceTests.sys
                             PerformanceTests.upd_sys gets].
    rewrite run_bind. cbn [PerformanceTests.lift fst snd PerformanceTests.sys
                             PerformanceTests.upd_sys].
    rewrite get_peers_free by exact Hm4. cbn [fst snd]. rewrite Hp4.
    cbn [length Z.of_nat]. change (0 <? wrap32 0) with false. cbv iota.
    rewrite run_modify. unfold ret. reflexivity.
  - cbn [PerformanceTests.sys PerformanceTests.upd_sys PerformanceTests.upd_test_active
           PerformanceTests.test_active_].
    split; [| by split_and!].
    unfold radio_silence. split_and!; try done.
    unfold driver_accepts. rewrite Hr4. by apply tail_accepts.
Qed.

(** [test_basic_discovery] starts by removing every peer the manager
    knows.  On a running manager to which no frame comes in during the
    scenario, whatever the tasks of the manager do in the meantime
    (the discovery task sends its request, the send task hands frames
    to the driver, the driver reports them), it therefore returns
    [ESP_OK] with 0 devices found and no success, whatever peers were
    known before, and leaves the peer table empty and discovery off.
    The scenario blocks twice, in [start_discovery] and in its own
    wait: two entries of the schedule have had their turn. *)
Theorem basic_discovery_forgets_the_known_peers timeout_ms (p : PerformanceTests.t) :
  radio_silence (PerformanceTests.sys p) →
  unique_addresses (PerformanceTests.sys p) →
  0 < timeout_ms →
  let r := PerformanceTests.test_basic_discovery timeout_ms p in
  r.1.1 = ESP_OK
  ∧ PerformanceTests.devices_found r.1.2 = 0
  ∧ PerformanceTests.individual_discovery_times r.1.2 = []
  ∧ PerformanceTests.all_devices_discovered r.1.2 = false
  ∧ peers_ (mgr (PerformanceTests.sys r.2)) = []
  ∧ discovery_active_ (mgr (PerformanceTests.sys r.2)) = false
  ∧ agenda (PerformanceTests.sys r.2) = tail (tail (agenda (PerformanceTests.sys p)))
  ∧ PerformanceTests.test_active_ r.2 = false.
Proof.
  intros Hq Hu Hd r.
  destruct (basic_discovery_unheard timeout_ms p Hq Hu Hd)
    as (time & p' & Hr & Hq' & Hp' & Hag' & Hact').
  unfold r. rewrite Hr. clear Hr r.
  cbn [fst snd PerformanceTests.devices_found
    PerformanceTests.all_devices_discovered
    PerformanceTests.individual_discovery_times].
  destruct Hq' as (_ & Ha' & _).
  split_and!; done.
Qed.

Lemma collect_run {A} (test : ST PerformanceTests.t (esp_err_t * A)) results p r p' :
  test p = ((ESP_OK, r), p') →
  PerformanceTests.collect test results p = (results ++ [r], p').
Proof. intros Ht. unfold PerformanceTests.collect. rewrite run_bind. by rewrite Ht. Qed.

Lemma discovery_suite_unheard (p : PerformanceTests.t) :
  radio_silence (PerformanceTests.sys p) →
  unique_addresses (PerformanceTests.sys p) →
  peers_ (mgr (PerformanceTests.sys (PerformanceTests.run_discovery_test_suite p).2)) = []
  ∧ radio_silence (PerformanceTests.sys (PerformanceTests.run_discovery_test_suite p).2)
  ∧ PerformanceTests.devices_found <$> (PerformanceTests.run_discovery_test_suite p).1.2
    = [0; 0; 0].
Proof.
  intros Hq Hu. unfold PerformanceTests.run_discovery_test_suite.
  destruct (basic_discovery_unheard 5000 p Hq Hu ltac:(lia))
    as (t1 & p1 & E1 & Hq1 & Hp1 & _).
  rewrite run_bind. rewrite (collect_run _ _ _ _ _ E1). cbn [fst snd].
  assert (Hu1 : unique_addresses (PerformanceTests.sys p1))
    by (unfold unique_addresses; rewrite Hp1; apply NoDup_nil_2).
  clear E1.
  destruct (basic_discovery_unheard 15000 p1 Hq1 Hu1 ltac:(lia))
    as (t2 & p2 & E2 & Hq2 & Hp2 & _).
  rewrite run_bind. rewrite (collect_run _ _ _ _ _ E2). cbn [fst snd].
  assert (Hu2 : unique_addresses (PerformanceTests.sys p2))
    by (unfold unique_addresses; rewrite Hp2; apply NoDup_nil_2).
  clear E2.
  destruct (basic_discovery_unheard 2000 p2 Hq2 Hu2 ltac:(lia))
    as (t3 & p3 & E3 & Hq3 & Hp3 & _).
  rewrite run_bind. rewrite (collect_run _ _ _ _ _ E3). cbn [fst snd ret].
  split_and!; done.
Qed.

Lemma lift_get_peers_free (p : PerformanceTests.t) :
  peers_mutex_ (mgr (PerformanceTests.sys p)) = false →
  PerformanceTests.lift get_peers p = (peers_ (mgr (PerformanceTests.sys p)), p).
Proof.
  intros Hm. unfold PerformanceTests.lift. rewrite get_peers_free by exact Hm.
  cbn [fst snd]. by destruct p.
Qed.

(** [run_full_performance_suite] does not use the peers known when it
    is called: its discovery scenarios forget them first.  On a
    running manager to which no frame comes in while the suite runs,
    whatever the tasks of the manager do in the meantime, the suite
    returns [ESP_ERR_NOT_FOUND] however many peers the table held,
    after three discovery scenarios that each found no device, and
    leaves the table empty and discovery off. *)
Theorem performance_suite_ignores_known_peers (p : PerformanceTests.t) :
  radio_silence (PerformanceTests.sys p) →
  unique_addresses (PerformanceTests.sys p) →
  (PerformanceTests.run_full_performance_suite p).1 = ESP_ERR_NOT_FOUND
  ∧ PerformanceTests.devices_found <$> (PerformanceTests.run_discovery_test_suite p).1.2
    = [0; 0; 0]
  ∧ (PerformanceTests.run_full_performance_suite p).2
    = (PerformanceTests.run_discovery_test_suite p).2
  ∧ peers_ (mgr (PerformanceTests.sys (PerformanceTests.run_full_performance_suite p).2))
    = []
  ∧ discovery_active_
      (mgr (PerformanceTests.sys (PerformanceTests.run_full_performance_suite p).2))
    = false.
Proof.
  intros Hq Hu. rewrite run_full_performance_suite_unfold.
  generalize (discovery_suite_unheard p Hq Hu) (discovery_suite_returns_ok p).
  generalize (PerformanceTests.run_discovery_test_suite p).
  intros d (Hp & Hsil & Hfound) Hok.
  rewrite (after_discovery_without_peers d.1 d.2 Hok Hp).
  rewrite lift_get_peers_free by apply Hsil.
  destruct Hsil as (_ & Ha & _). cbn [fst snd].
  split_and!; done.
Qed.
End rediscovery.

(** ** The scenarios of [TestFramework] and its result log *)

Section ledger.
Context `{EspIdf}.

Lemma while_loop_result {S A} (I : A → Prop) n (cond : ST S bool)
    (body : A → ST S A) acc (s : S) :
  I acc → (∀ a t, I a → I (body a t).1) → I (while_loop n cond body acc s).1.
Proof.
  intros Hacc Hb. revert acc s Hacc. induction n as [|n IH]; intros acc s Hacc.
  - exact Hacc.
  - cbn [while_loop]. rewrite run_bind. destruct (cond s).1; [|exact Hacc].
    rewrite run_bind. apply IH, Hb, Hacc.
Qed.

(** The end of every scenario: the result is filed and announced. *)
Lemma file_and_announce res (f : TestFramework.t) :
  TestFramework.results_mutex_ f = false →
  let r := (TestFramework.store_result res ;;;
            TestFramework.notify_completed res ;;; ret ESP_OK) f in
  r.1 = ESP_OK
  ∧ TestFramework.results_mutex_ r.2 = false
  ∧ TestFramework.test_results_ r.2 = TestFramework.test_results_ f ++ [res].
Proof.
  intros Hm r. unfold r. rewrite run_bind, store_result_free by done.
  cbn [fst snd]. unfold TestFramework.notify_completed.
  rewrite run_assoc, run_gets.
  destruct (TestFramework.test_completed_callback_ _); cbn; by split_and!.
Qed.

Lemma throughput_iteration_log v target payload acc :
  preserves (λ f, log_view f = v)
    (TestFramework.throughput_iteration target payload acc).
Proof. unfold TestFramework.throughput_iteration, TestFramework.delay. frame_fw. Qed.

Lemma range_step_log v target d step acc :
  preserves (λ f, log_view f = v) (TestFramework.range_step target d step acc).
Proof.
  unfold TestFramework.range_step, TestFramework.range_probe, TestFramework.delay.
  frame_fw.
Qed.

Lemma log_view_free (f f' : TestFramework.t) :
  log_view f' = log_view f → TestFramework.results_mutex_ f = false →
  TestFramework.results_mutex_ f' = false
  ∧ TestFramework.test_results_ f' = TestFramework.test_results_ f.
Proof. unfold log_view. intros [= -> ->] ->. done. Qed.

Lemma calculate_statistics_name r :
  test_name (TestFramework.calculate_statistics r) = test_name r.
Proof.
  unfold TestFramework.calculate_statistics. by destruct (latency_measurements r).
Qed.

Lemma run_latency_test_files name target ping_count :
  files_one_result name (TestFramework.run_latency_test name target ping_count).
Proof.
  intros f Hm. unfold TestFramework.run_latency_test.
  rewrite run_bind.
  cbn [fst snd TestFramework.get_timestamp_us TestFramework.lift get_timestamp_us gets].
  rewrite run_bind.
  set (L := for_loop _ _ _ _ _).
  assert (Hlog : log_view L.2 = log_view f).
  { unfold L. apply (preserves_for_loop (λ f', log_view f' = log_view f)).
    - intros i a. apply latency_iteration_log.
    - by destruct f. }
  assert (Hname : test_name L.1.1 = name).
  { unfold L.
    apply (for_loop_invariant (λ _ a _, test_name a.1 = name)
             (Z.to_nat ping_count) 0); [done|].
    intros j a t Ha. unfold TestFramework.latency_iteration.
    rewrite run_bind, run_bind. destruct (negb _); [exact Ha|].
    done. }
  clearbody L. destruct (log_view_free _ _ Hlog Hm) as [Hm' Hres].
  rewrite run_bind.
  cbn [fst snd TestFramework.get_timestamp_us TestFramework.lift get_timestamp_us gets].
  match goal with |- context [TestFramework.store_result ?r] => set (res := r) end.
  assert (Hn : test_name res = name).
  { unfold res. destruct (_ =? 0); [done|]. by rewrite calculate_statistics_name. }
  clearbody res.
  edestruct (file_and_announce res) as (Hr & Hmr & Htr); [|rewrite Hr, Hmr, Htr].
  { exact Hm'. }
  cbn [TestFramework.test_results_ TestFramework.upd_sys].
  split_and!; try done. exists res. by rewrite Hres.
Qed.

Lemma run_throughput_test_files name target duration_ms payload_size :
  files_one_result name
    (TestFramework.run_throughput_test name target duration_ms payload_size).
Proof.
  intros f Hm. unfold TestFramework.run_throughput_test.
  rewrite run_bind.
  cbn [fst snd TestFramework.get_timestamp_us TestFramework.lift get_timestamp_us gets].
  rewrite run_bind.
  set (L := while_loop _ _ _ _ _).
  assert (Hlog : log_view L.2 = log_view f).
  { unfold L. apply (preserves_while_loop (λ f', log_view f' = log_view f)).
    - unfold TestFramework.get_timestamp_us. frame_fw.
    - intros a. apply throughput_iteration_log.
    - by destruct f. }
  clearbody L. destruct (log_view_free _ _ Hlog Hm) as [Hm' Hres].
  rewrite run_bind.
  cbn [fst snd TestFramework.get_timestamp_us TestFramework.lift get_timestamp_us gets].
  match goal with |- context [TestFramework.store_result ?r] => set (res := r) end.
  assert (Hn : test_name res = name) by (unfold res; by destruct (0 <? _)).
  clearbody res.
  edestruct (file_and_announce res) as (Hr & Hmr & Htr); [|rewrite Hr, Hmr, Htr].
  { exact Hm'. }
  cbn [TestFramework.test_results_ TestFramework.upd_sys].
  split_and!; try done. exists res. by rewrite Hres.
Qed.

Lemma run_reliability_test_files name target packet_count interval_ms :
  files_one_result name
    (TestFramework.run_reliability_test name target packet_count interval_ms).
Proof.
  intros f Hm. unfold TestFramework.run_reliability_test.
  rewrite run_bind.
  cbn [fst snd TestFramework.get_timestamp_us TestFramework.lift get_timestamp_us gets].
  rewrite run_bind.
  set (L := for_loop _ _ _ _ _).
  assert (Hlog : log_view L.2 = log_view f).
  { unfold L. apply (preserves_for_loop (λ f', log_view f' = log_view f)).
    - intros i a. apply reliability_iteration_log.
    - by destruct f. }
  assert (Hname : test_name L.1.1 = name).
  { unfold L.
    apply (for_loop_invariant (λ _ a _, test_name a.1 = name)
             (Z.to_nat packet_count) 0); [done|].
    intros j a t Ha. unfold TestFramework.reliability_iteration.
    rewrite run_bind, run_bind, run_bind. exact Ha. }
  clearbody L. destruct (log_view_free _ _ Hlog Hm) as [Hm' Hres].
  rewrite run_bind.
  cbn [fst snd TestFramework.get_timestamp_us TestFramework.lift get_timestamp_us gets].
  match goal with |- context [TestFramework.store_result ?r] => set (res := r) end.
  assert (Hn : test_name res = name) by exact Hname.
  clearbody res.
  edestruct (file_and_announce res) as (Hr & Hmr & Htr); [|rewrite Hr, Hmr, Htr].
  { exact Hm'. }
  cbn [TestFramework.test_results_ TestFramework.upd_sys].
  split_and!; try done. exists res. by rewrite Hres.
Qed.

Lemma run_range_test_files name target step_duration_ms :
  files_one_result name (TestFramework.run_range_test name target step_duration_ms).
Proof.
  intros f Hm. unfold TestFramework.run_range_test. cbv zeta.
  generalize (Z.to_nat 10). intros n.
  rewrite run_bind.
  cbn [fst snd TestFramework.get_timestamp_us TestFramework.lift get_timestamp_us gets].
  rewrite run_bind.
  set (L := for_loop _ _ _ _ _).
  assert (Hlog : log_view L.2 = log_view f).
  { unfold L. apply (preserves_for_loop (λ f', log_view f' = log_view f)).
    - intros i a. apply range_step_log.
    - by destruct f. }
  clearbody L. destruct (log_view_free _ _ Hlog Hm) as [Hm' Hres].
  rewrite run_bind.
  cbn [fst snd TestFramework.get_timestamp_us TestFramework.lift get_timestamp_us gets].
  match goal with |- context [TestFramework.store_result ?r] => set (res := r) end.
  assert (Hn : test_name res = name) by done.
  clearbody res.
  edestruct (file_and_announce res) as (Hr & Hmr & Htr); [|rewrite Hr, Hmr, Htr].
  { exact Hm'. }
  cbn [TestFramework.test_results_ TestFramework.upd_sys].
  split_and!; try done. exists res. by rewrite Hres.
Qed.

(** After a scenario that files its result, a suite goes on. *)
Lemma and_then_files name m k (f : TestFramework.t) :
  files_one_result name m →
  TestFramework.results_mutex_ f = false →
  ∃ res f',
    TestFramework.and_then m k f = k f'
    ∧ TestFramework.results_mutex_ f' = false
    ∧ TestFramework.test_results_ f' = TestFramework.test_results_ f ++ [res]
    ∧ test_name res = name.
Proof.
  intros Hfiles Hm. destruct (Hfiles f Hm) as (Hr & Hm' & res & Hres & Hn).
  exists res, (m f).2. split_and!; try done.
  unfold TestFramework.and_then. rewrite run_bind, Hr. done.
Qed.

Local Ltac next_scenario Hfiles Hm r f' Hm' Hr' Hn' :=
  lazymatch goal with
  | |- context [TestFramework.and_then ?m ?k ?f] =>
      let E := fresh "E" in
      destruct (and_then_files _ m k f Hfiles Hm) as (r & f' & E & Hm' & Hr' & Hn');
      rewrite E; clear E
  end.

(** [run_all_performance_tests] with at least one peer in the table
    runs its five scenarios against the first peer, in order, and
    returns [ESP_OK]: a scenario reports failure only in the status of
    its result, never in its return value, so no scenario stops the
    suite.  With the result log unlocked, exactly five results are
    added to it, under the five names of the suite. *)
Theorem performance_tests_run_to_the_end (f : TestFramework.t) :
  TestFramework.results_mutex_ f = false →
  peers_mutex_ (mgr (TestFramework.sys f)) = false →
  peers_ (mgr (TestFramework.sys f)) ≠ [] →
  let r := TestFramework.run_all_performance_tests f in
  r.1 = ESP_OK
  ∧ ∃ results,
      TestFramework.test_results_ r.2 = TestFramework.test_results_ f ++ results
      ∧ test_name <$> results
        = ["Latency Test - 100 pings"; "Throughput Test - Small Payload";
           "Throughput Test - Large Payload"; "Reliability Test"; "Range Test"]%string.
Proof.
  intros Hm Hpm Hp r.
  destruct (peers_ (mgr (TestFramework.sys f))) as [|first rest] eqn:Hpeers; [done|].
  assert (Hg : TestFramework.lift get_peers f
               = (first :: rest, TestFramework.upd_sys (TestFramework.sys f) f)).
  { unfold TestFramework.lift. rewrite get_peers_free by exact Hpm.
    cbn [fst snd]. by rewrite Hpeers. }
  unfold r, TestFramework.run_all_performance_tests.
  rewrite run_bind, Hg. cbn [fst snd]. clear Hg.
  set (f0 := TestFramework.upd_sys (TestFramework.sys f) f).
  assert (Hm0 : TestFramework.results_mutex_ f0 = false) by exact Hm.
  assert (Hr0 : TestFramework.test_results_ f0 = TestFramework.test_results_ f) by done.
  clearbody f0.
  next_scenario (run_latency_test_files "Latency Test - 100 pings" (mac_addr first) 100)
    Hm0 r1 f1 Hm1 Hr1 Hn1.
  next_scenario (run_throughput_test_files "Throughput Test - Small Payload"
                   (mac_addr first) 30000 64) Hm1 r2 f2 Hm2 Hr2 Hn2.
  next_scenario (run_throughput_test_files "Throughput Test - Large Payload"
                   (mac_addr first) 30000 200) Hm2 r3 f3 Hm3 Hr3 Hn3.
  next_scenario (run_reliability_test_files "Reliability Test" (mac_addr first) 1000 10)
    Hm3 r4 f4 Hm4 Hr4 Hn4.
  next_scenario (run_range_test_files "Range Test" (mac_addr first) 5000)
    Hm4 r5 f5 Hm5 Hr5 Hn5.
  unfold ret. cbn [fst snd]. split; [done|].
  exists [r1; r2; r3; r4; r5]. split.
  - rewrite Hr5, Hr4, Hr3, Hr2, Hr1, Hr0. by rewrite <- !app_assoc.
  - cbn. by rewrite Hn1, Hn2, Hn3, Hn4, Hn5.
Qed.

Lemma send_message_oversized others mac type data (s : System) :
  PAYLOAD_CAPACITY < Z.of_nat (length data) →
  is_ok (send_message others mac type data s).1 = false.
Proof.
  intros Hl. unfold send_message. rewrite run_gets. cbn [compose].
  destruct (initialized_ (mgr s)); cbn [negb]; [|done].
  destruct (Z.ltb_spec PAYLOAD_CAPACITY (Z.of_nat (length data))); [done | lia].
Qed.

(** [run_throughput_test] with a payload size above the 234 bytes a
    frame can carry never gets a packet out: every send is refused, so
    the scenario, which still returns [ESP_OK], files a result with
    status FAILED, no iteration completed, a throughput of 0 and the
    message that no packet was sent. *)
Theorem oversized_throughput_payload_fails_the_test name target duration_ms
    payload_size (f : TestFramework.t) :
  PAYLOAD_CAPACITY < payload_size →
  TestFramework.results_mutex_ f = false →
  let r := TestFramework.run_throughput_test name target duration_ms payload_size f in
  r.1 = ESP_OK
  ∧ ∃ res,
      TestFramework.test_results_ r.2 = TestFramework.test_results_ f ++ [res]
      ∧ test_name res = name
      ∧ status res = TEST_STATUS_FAILED
      ∧ iterations_completed res = 0
      ∧ avg_throughput_bps res = 0
      ∧ throughput_measurements res = []
      ∧ error_message res = "No packets sent successfully"%string.
Proof.
  intros Hsize Hm r. unfold r, TestFramework.run_throughput_test.
  rewrite run_bind.
  cbn [fst snd TestFramework.get_timestamp_us TestFramework.lift get_timestamp_us gets].
  rewrite run_bind.
  set (L := while_loop _ _ _ _ _).
  assert (Hlog : log_view L.2 = log_view f).
  { unfold L. apply (preserves_while_loop (λ f', log_view f' = log_view f)).
    - unfold TestFramework.get_timestamp_us. frame_fw.
    - intros a. apply throughput_iteration_log.
    - by destruct f. }
  assert (Hacc : L.1 = (0, 0)).
  { unfold L. apply (while_loop_result (λ a, a = (0, 0))); [done|].
    intros a t ->. unfold TestFramework.throughput_iteration.
    rewrite run_bind, run_bind.
    unfold TestFramework.lift at 1. cbn [fst].
    rewrite send_message_oversized; [done|].
    rewrite length_replicate. lia. }
  clearbody L. destruct (log_view_free _ _ Hlog Hm) as [Hm' Hres].
  rewrite run_bind.
  cbn [fst snd TestFramework.get_timestamp_us TestFramework.lift get_timestamp_us gets].
  rewrite Hacc. cbn [fst snd]. change (0 <? 0) with false. cbv iota.
  match goal with |- context [TestFramework.store_result ?r] => set (res := r) end.
  edestruct (file_and_announce res) as (Hr & Hmr & Htr); [|rewrite Hr, Htr].
  { exact Hm'. }
  cbn [TestFramework.test_results_ TestFramework.upd_sys].
  split; [done|]. exists res. rewrite Hres. split_and!; done.
Qed.

(** What [get_peer_count] leaves alone, whether or not it gets the mutex. *)
Lemma get_peer_count_keeps (i a : bool) ar tr ps :
  preserves (λ s, initialized_ (mgr s) = i ∧ discovery_active_ (mgr s) = a
                  ∧ add_peer_rets s = ar ∧ trace s = tr ∧ peers_ (mgr s) = ps)
    get_peer_count.
Proof. unfold get_peer_count, xSemaphoreTake, xSemaphoreGive, advance. frame. Qed.

(** [start_discovery] when the driver does not take the broadcast
    address: the call returns the error of [esp_now_add_peer] and
    discovery is not switched on. *)
Lemma start_discovery_refused others d (s : System) :
  initialized_ (mgr s) = true →
  discovery_active_ (mgr s) = false →
  default ESP_OK (head (add_peer_rets s)) ≠ ESP_OK →
  default ESP_OK (head (add_peer_rets s)) ≠ ESP_ERR_ESPNOW_EXIST →
  start_discovery others d s
  = (default ESP_OK (head (add_peer_rets s)),
     upd_add_peer_rets (tail (add_peer_rets s))
       (upd_trace (λ t, t ++ [IoAddPeer ESP_NOW_BROADCAST_ADDR]) s)).
Proof.
  intros Hi Ha Hok Hex. unfold start_discovery, esp_now_add_peer, emit.
  rewrite run_gets. cbn [compose]. rewrite Hi. cbn [negb].
  rewrite run_gets. cbn [compose]. rewrite Ha.
  rewrite run_assoc, run_modify, run_assoc, run_gets, run_assoc, run_modify,
    run_ret.
  cbn [upd_trace add_peer_rets].
  assert (Hb : negb (is_ok (default ESP_OK (head (add_peer_rets s))))
               && negb (bool_decide (default ESP_OK (head (add_peer_rets s))
                                     = ESP_ERR_ESPNOW_EXIST)) = true).
  { unfold is_ok. by rewrite !bool_decide_eq_false_2. }
  rewrite Hb. reflexivity.
Qed.

Lemma and_then_go m k (f f' : TestFramework.t) :
  m f = (ESP_OK, f') → TestFramework.and_then m k f = k f'.
Proof. intros Hm. unfold TestFramework.and_then. by rewrite run_bind, Hm. Qed.

Lemma and_then_stop m k e (f f' : TestFramework.t) :
  m f = (e, f') → e ≠ ESP_OK → TestFramework.and_then m k f = (e, f').
Proof.
  intros Hm He. unfold TestFramework.and_then. rewrite run_bind, Hm.
  cbn [fst snd]. unfold is_ok. by rewrite bool_decide_eq_false_2.
Qed.

(** The discovery scenario when the driver refuses the broadcast
    address. *)
Lemma run_discovery_test_refused name timeout_ms e rest (f : TestFramework.t) :
  initialized_ (mgr (TestFramework.sys f)) = true →
  discovery_active_ (mgr (TestFramework.sys f)) = false →
  add_peer_rets (TestFramework.sys f) = e :: rest →
  e ≠ ESP_OK → e ≠ ESP_ERR_ESPNOW_EXIST →
  TestFramework.results_mutex_ f = false →
  ∃ res f',
    TestFramework.run_discovery_test name timeout_ms f = (e, f')
    ∧ TestFramework.test_results_ f' = TestFramework.test_results_ f ++ [res]
    ∧ TestFramework.callbacks f' = TestFramework.callbacks f
    ∧ trace (TestFramework.sys f')
      = trace (TestFramework.sys f) ++ [IoAddPeer ESP_NOW_BROADCAST_ADDR]
    ∧ add_peer_rets (TestFramework.sys f') = rest
    ∧ discovery_active_ (mgr (TestFramework.sys f')) = false
    ∧ peers_ (mgr (TestFramework.sys f')) = peers_ (mgr (TestFramework.sys f))
    ∧ test_name res = name
    ∧ status res = TEST_STATUS_FAILED
    ∧ iterations_completed res = 0
    ∧ error_message res = "Failed to start discovery"%string.
Proof.
  intros Hi Ha Har Hok Hex Hm. unfold TestFramework.run_discovery_test.
  rewrite run_bind.
  cbn [fst snd TestFramework.get_timestamp_us TestFramework.lift get_timestamp_us gets].
  rewrite run_bind.
  cbn [fst snd TestFramework.lift TestFramework.sys TestFramework.upd_sys].
  set (s1 := (get_peer_count (TestFramework.sys f)).2).
  assert (H1 : initialized_ (mgr s1) = true ∧ discovery_active_ (mgr s1) = false
               ∧ add_peer_rets s1 = e :: rest
               ∧ trace s1 = trace (TestFramework.sys f)
               ∧ peers_ (mgr s1) = peers_ (mgr (TestFramework.sys f))).
  { unfold s1. apply get_peer_count_keeps. by split_and!. }
  clearbody s1. destruct H1 as (Hi1 & Ha1 & Har1 & Ht1 & Hp1).
  rewrite run_bind.
  cbn [fst snd TestFramework.lift TestFramework.sys TestFramework.upd_sys].
  rewrite start_discovery_refused; [| exact Hi1 | exact Ha1 | by rewrite Har1 ..].
  rewrite Har1. cbn [fst snd head tail default from_option].
  change (id e) with e.
  assert (Hb : negb (is_ok e) = true)
    by (unfold is_ok; by rewrite bool_decide_eq_false_2).
  rewrite Hb.
  rewrite run_bind.
  cbn [fst snd TestFramework.get_timestamp_us TestFramework.lift get_timestamp_us gets
       TestFramework.sys TestFramework.upd_sys].
  rewrite run_bind, store_result_free by exact Hm.
  unfold ret. cbn [fst snd].
  eexists _, _. split; [reflexivity|].
  cbn. rewrite Ht1. by split_and!.
Qed.

(** [run_full_test_suite] on a running manager whose driver does not
    take the broadcast address stops at its first discovery scenario:
    [start_discovery] hands the address to the driver, gets an error
    other than [ESP_ERR_ESPNOW_EXIST] and returns it, and so does the
    suite.  The one result it files is that of "Basic Discovery", with
    status FAILED and the message that discovery could not be started.
    No completion callback is made for it, no other scenario runs,
    discovery stays off and the peer table is as before. *)
Theorem suite_stops_when_the_driver_refuses_discovery e rest (f : TestFramework.t) :
  initialized_ (mgr (TestFramework.sys f)) = true →
  discovery_active_ (mgr (TestFramework.sys f)) = false →
  Z.of_nat (length (send_queue_ (mgr (TestFramework.sys f)))) < QUEUE_LENGTH →
  add_peer_rets (TestFramework.sys f) = e :: rest →
  e ≠ ESP_OK → e ≠ ESP_ERR_ESPNOW_EXIST →
  TestFramework.results_mutex_ f = false →
  let r := TestFramework.run_full_test_suite f in
  r.1 = e
  ∧ (∃ res,
       TestFramework.test_results_ r.2 = TestFramework.test_results_ f ++ [res]
       ∧ test_name res = "Basic Discovery"%string
       ∧ status res = TEST_STATUS_FAILED
       ∧ iterations_completed res = 0
       ∧ error_message res = "Failed to start discovery"%string)
  ∧ TestFramework.callbacks r.2 = TestFramework.callbacks f
  ∧ trace (TestFramework.sys r.2)
    = trace (TestFramework.sys f) ++ [IoAddPeer ESP_NOW_BROADCAST_ADDR]
  ∧ add_peer_rets (TestFramework.sys r.2) = rest
  ∧ discovery_active_ (mgr (TestFramework.sys r.2)) = false
  ∧ peers_ (mgr (TestFramework.sys r.2)) = peers_ (mgr (TestFramework.sys f)).
Proof.
  intros Hi Ha Hroom Har Hok Hex Hm r.
  (* the session start: the coordinator queues its broadcast *)
  assert (Hs : ∃ f0,
    TestFramework.start_test_session f = (ESP_OK, f0)
    ∧ initialized_ (mgr (TestFramework.sys f0)) = true
    ∧ discovery_active_ (mgr (TestFramework.sys f0)) = false
    ∧ add_peer_rets (TestFramework.sys f0) = e :: rest
    ∧ TestFramework.results_mutex_ f0 = false
    ∧ TestFramework.test_results_ f0 = TestFramework.test_results_ f
    ∧ TestFramework.callbacks f0 = TestFramework.callbacks f
    ∧ trace (TestFramework.sys f0) = trace (TestFramework.sys f)
    ∧ peers_ (mgr (TestFramework.sys f0)) = peers_ (mgr (TestFramework.sys f))).
  { unfold TestFramework.start_test_session. rewrite run_gets.
    destruct (bool_decide _).
    - destruct (send_message_room yield ESP_NOW_BROADCAST_ADDR
                  ESP_NOW_MSG_TYPE_TEST_START [] (TestFramework.sys f) Hi
                  ltac:(done) Hroom) as (msg & E & _).
      unfold bind, ret, TestFramework.lift, send_broadcast. cbn [fst snd].
      rewrite E. cbn [fst snd]. eexists. split; [reflexivity|].
      cbn. by split_and!.
    - exists f. split; [reflexivity|]. by split_and!. }
  destruct Hs as (f0 & Hs & Hi0 & Ha0 & Har0 & Hm0 & Hres0 & Hcb0 & Htr0 & Hp0).
  (* the first discovery scenario *)
  destruct (run_discovery_test_refused "Basic Discovery" 5000 e rest f0
              Hi0 Ha0 Har0 Hok Hex Hm0)
    as (res & f' & Hd & Hres & Hcb & Htr & Har' & Ha' & Hp' & Hn & Hst & Hit & Herr).
  assert (Hr : r = (e, f')).
  { unfold r, TestFramework.run_full_test_suite.
    rewrite (and_then_go _ _ _ _ Hs).
    apply and_then_stop; [|done].
    unfold TestFramework.run_all_discovery_tests.
    by apply and_then_stop. }
  rewrite Hr. cbn [fst snd]. split; [done|].
  split; [exists res; rewrite Hres, Hres0; by split_and! |].
  rewrite Hcb, Htr, Hp', Hcb0, Htr0, Hp0. by split_and!.
Qed.
End ledger.

(** ** Further properties at sample inputs *)

#[local] Existing Instance rom.

(** *** The peer table *)

(** Peer b is added to a table that holds peer a. *)
Lemma added_peer_witness :
  let s := system_with [known_peer peer_a 0] [] [] in
  peers_mutex_ (mgr s) = false
  ∧ driver_accepts s
  ∧ (add_peer peer_b s).1 = ESP_OK
  ∧ (is_peer_registered peer_b (add_peer peer_b s).2).1 = true.
Proof.
  intros s.
  assert (Hd : driver_accepts s) by apply Forall_nil_2.
  destruct (added_peer_is_registered peer_b s eq_refl Hd) as (Hr & Hreg & _).
  split_and!; [reflexivity | exact Hd | exact Hr | exact Hreg].
Defined.

(** The driver has no memory left for peer b. *)
Lemma refused_peer_witness :
  peers_mutex_ (mgr driver_full) = false
  ∧ find_peer (peers_ (mgr driver_full)) peer_b = None
  ∧ add_peer_rets driver_full = [ESP_ERR_NO_MEM]
  ∧ (add_peer peer_b driver_full).1 = ESP_ERR_NO_MEM
  ∧ (is_peer_registered peer_b (add_peer peer_b driver_full).2).1 = false.
Proof.
  assert (Hf : find_peer (peers_ (mgr driver_full)) peer_b = None) by (by vm_compute).
  destruct (refused_peer_is_not_added peer_b ESP_ERR_NO_MEM [] driver_full
              eq_refl Hf eq_refl)
    as (Hr & _ & _ & Hreg & _); [by intros [=] | by intros [=] |].
  split_and!; [reflexivity | exact Hf | reflexivity | exact Hr | exact Hreg].
Defined.

(** Two more peers for a table that holds twenty-one already. *)
Lemma crowded_table_witness :
  let macs := [peer_a; peer_b] in
  peers_mutex_ (mgr crowded) = false
  ∧ driver_accepts crowded
  ∧ NoDup macs
  ∧ (∀ a, a ∈ macs → a ∉ mac_addr <$> peers_ (mgr crowded))
  ∧ (get_peer_count (add_peers macs crowded).2).1 = 23
  ∧ ESP_NOW_MAX_PEERS < (get_peer_count (add_peers macs crowded).2).1.
Proof.
  intros macs.
  assert (Hd : driver_accepts crowded) by apply Forall_nil_2.
  assert (Hn : NoDup macs).
  { apply NoDup_cons_2; [|apply NoDup_singleton].
    intros Hin. apply list_elem_of_singleton in Hin. discriminate Hin. }
  assert (Hnew : ∀ a, a ∈ macs → a ∉ mac_addr <$> peers_ (mgr crowded)).
  { apply Forall_forall. repeat constructor; apply (bool_decide_unpack _); by vm_compute. }
  destruct (every_new_peer_is_added macs crowded eq_refl Hd Hn Hnew) as [_ Hc].
  split_and!; [reflexivity | exact Hd | exact Hn | exact Hnew | | ].
  - rewrite Hc. by vm_compute.
  - rewrite Hc. by vm_compute.
Defined.

(** Peer a is removed from a table that holds only it. *)
Lemma removed_peer_witness :
  let s := system_with [known_peer peer_a 0] [] [] in
  peers_mutex_ (mgr s) = false
  ∧ unique_addresses s
  ∧ (is_peer_registered peer_a s).1 = true
  ∧ (is_peer_registered peer_a (remove_peer peer_a s).2).1 = false.
Proof.
  intros s.
  assert (Hu : unique_addresses s) by apply NoDup_singleton.
  destruct (removed_peer_is_gone peer_a s eq_refl Hu) as (_ & Hreg & _).
  split_and!; [reflexivity | exact Hu | by vm_compute | exact Hreg].
Defined.

(** A table with one peer, locked by another task, answers as if empty. *)
Lemma mutex_held_witness :
  peers_mutex_ (mgr mutex_held) = true
  ∧ peers_ (mgr mutex_held) = [known_peer peer_a 0]
  ∧ get_peer_count mutex_held = (0, timed_out 1000 mutex_held)
  ∧ is_peer_registered peer_a mutex_held = (false, timed_out 1000 mutex_held).
Proof.
  destruct (table_calls_give_up_when_the_mutex_is_held peer_a false false mutex_held eq_refl)
    as (_ & _ & Hreg & _ & Hc & _).
  split_and!; [reflexivity | reflexivity | exact Hc | exact Hreg].
Defined.

(** The sample session leaves the mutex free. *)
Lemma mutex_given_back_witness :
  mutex_free power_on
  ∧ mutex_free (run_calls sample_session power_on).2.
Proof.
  split; [reflexivity|].
  exact (proj1 (mutex_is_given_back sample_session power_on eq_refl)).
Defined.

(** *** Sending *)

(** Three bytes for peer a on an idle manager. *)
Lemma queued_frame_witness :
  let s := system_with [known_peer peer_a 0] [] [] in
  initialized_ (mgr s) = true
  ∧ Z.of_nat (length [1; 2; 3]) ≤ PAYLOAD_CAPACITY
  ∧ Z.of_nat (length (send_queue_ (mgr s))) < QUEUE_LENGTH
  ∧ (send_message nobody peer_a ESP_NOW_MSG_TYPE_DATA [1; 2; 3] s).1 = ESP_OK.
Proof.
  intros s.
  assert (Hl : Z.of_nat (length [1; 2; 3]) ≤ PAYLOAD_CAPACITY) by (by vm_compute).
  assert (Hq : Z.of_nat (length (send_queue_ (mgr s))) < QUEUE_LENGTH) by (by vm_compute).
  destruct (send_message_queues_one_frame nobody peer_a ESP_NOW_MSG_TYPE_DATA [1; 2; 3] s
              eq_refl Hl Hq) as [E _].
  split_and!; [reflexivity | exact Hl | exact Hq |].
  exact (f_equal fst E).
Defined.

(** The same send with twenty frames waiting. *)
Lemma full_queue_witness :
  let s := system_with [known_peer peer_a 0] full_queue [] in
  initialized_ (mgr s) = true
  ∧ Z.of_nat (length [1; 2; 3]) ≤ PAYLOAD_CAPACITY
  ∧ QUEUE_LENGTH ≤ Z.of_nat (length (send_queue_ (mgr s)))
  ∧ (send_message nobody peer_a ESP_NOW_MSG_TYPE_DATA [1; 2; 3] s).1 = ESP_ERR_TIMEOUT
  ∧ sequence_counter_
      (mgr (send_message nobody peer_a ESP_NOW_MSG_TYPE_DATA [1; 2; 3] s).2) = 1.
Proof.
  intros s.
  assert (Hl : Z.of_nat (length [1; 2; 3]) ≤ PAYLOAD_CAPACITY) by (by vm_compute).
  assert (Hq : QUEUE_LENGTH ≤ Z.of_nat (length (send_queue_ (mgr s)))) by (by vm_compute).
  destruct (send_message_times_out_on_a_full_queue peer_a ESP_NOW_MSG_TYPE_DATA [1; 2; 3] s
              eq_refl Hl Hq) as (Hr & _ & Hseq & _).
  split_and!; [reflexivity | exact Hl | exact Hq | exact Hr | exact Hseq].
Defined.

(** A ping for peer a. *)
Lemma ping_witness :
  let s := system_with [known_peer peer_a 0] [] [] in
  initialized_ (mgr s) = true
  ∧ Z.of_nat (length (send_queue_ (mgr s))) < QUEUE_LENGTH
  ∧ (send_ping nobody peer_a s).1 = ESP_OK.
Proof.
  intros s.
  assert (Hq : Z.of_nat (length (send_queue_ (mgr s))) < QUEUE_LENGTH) by (by vm_compute).
  split_and!; [reflexivity | exact Hq |].
  exact (proj1 (ping_carries_its_sequence_number nobody peer_a s eq_refl Hq)).
Defined.

(** Twenty turns of the outbound worker on a full queue. *)
Lemma drained_queue_witness :
  let s := system_with [] full_queue [] in
  send_queue_ (mgr (send_task_steps 20 s).2) = []
  ∧ trace (send_task_steps 20 s).2 = transmission <$> full_queue.
Proof.
  intros s.
  destruct (send_task_transmits_in_order s) as (Hq & Ht & _).
  split; [exact Hq | exact Ht].
Defined.

(** The driver refuses the only frame that waits. *)
Lemma refused_frame_witness :
  let s := upd_send_rets [ESP_FAIL] (system_with [] [Queued peer_a blank_frame] []) in
  send_queue_ (mgr s) = [Queued peer_a blank_frame]
  ∧ send_rets s = [ESP_FAIL]
  ∧ send_queue_ (mgr (send_task_step s).2) = []
  ∧ statistics_ (mgr (send_task_step s).2) = statistics_ (mgr s).
Proof.
  intros s.
  destruct (refused_frame_is_dropped_uncounted (Queued peer_a blank_frame) [] ESP_FAIL [] s
              eq_refl eq_refl) as (Hq & _ & Hst & _); [by intros [=]|].
  split_and!; [reflexivity | reflexivity | exact Hq | exact Hst].
Defined.

(** The frame of ping number 7 before it is sealed. *)
Lemma frame_round_trip_witness :
  let m := unsealed ESP_NOW_MSG_TYPE_PING 7 1000000 (le_bytes 4 7) blank_frame in
  well_formed m
  ∧ Z.of_nat (length (frame_bytes m)) = 253
  ∧ frame_of_bytes (frame_bytes m) = m.
Proof.
  intros m.
  assert (Hw : well_formed m) by (unfold well_formed; by vm_compute).
  destruct (frame_survives_the_casts m Hw) as [Hl Hr].
  split_and!; [exact Hw | exact Hl | exact Hr].
Defined.

(** That frame, sealed as [send_message] seals it, does not pass the
    receiver's check. *)
Lemma own_frame_witness :
  let m := unsealed ESP_NOW_MSG_TYPE_PING 7 1000000 (le_bytes 4 7) blank_frame in
  well_formed m
  ∧ ¬ valid_frame (frame_bytes (set_crc32 (checksum_of m) m)).
Proof.
  intros m.
  assert (Hw : well_formed m) by (unfold well_formed; by vm_compute).
  split; [exact Hw|]. intros Hv.
  apply (proj1 (proj1 (own_frame_passes_only_at_a_fixed_point m Hw))) in Hv.
  vm_compute in Hv. discriminate Hv.
Defined.

(** *** Receiving *)

(** The ping of peer c comes in. *)
Lemma valid_frame_witness :
  let s := system_with [] [] [] in
  valid_frame ping_from_c
  ∧ total_packets_received (statistics_ (mgr (esp_now_recv_cb peer_c ping_from_c s).2)) = 1
  ∧ trace (esp_now_recv_cb peer_c ping_from_c s).2 = [].
Proof.
  intros s.
  assert (Hv : valid_frame ping_from_c) by (split; by vm_compute).
  destruct (valid_frame_is_counted_and_queued peer_c ping_from_c s Hv)
    as (Hst & _ & _ & _ & Ht).
  split_and!; [exact Hv | | exact Ht].
  rewrite Hst. reflexivity.
Defined.

(** A discovery request of peer b waits in the inbound queue. *)
Lemma discovery_request_witness :
  let item := Queued peer_b (Message ESP_NOW_MSG_TYPE_DISCOVERY_REQUEST 0 0 6 0
                               (replicate 234 0)) in
  let s := upd_mgr (upd_receive_queue (λ _, [item])) (system_with [] [] []) in
  receive_queue_ (mgr s) = [item]
  ∧ initialized_ (mgr s) = true
  ∧ peers_mutex_ (mgr s) = false
  ∧ driver_accepts s
  ∧ Z.of_nat (length (send_queue_ (mgr s))) < QUEUE_LENGTH
  ∧ (is_peer_registered peer_b (receive_task_step nobody s).2).1 = true
  ∧ receive_queue_ (mgr (receive_task_step nobody s).2) = [].
Proof.
  intros item s.
  assert (Hd : driver_accepts s) by apply Forall_nil_2.
  assert (Hq : Z.of_nat (length (send_queue_ (mgr s))) < QUEUE_LENGTH) by (by vm_compute).
  destruct (discovery_request_is_answered nobody item [] s eq_refl eq_refl eq_refl eq_refl
              Hd Hq) as (Hreg & Hrq & _).
  split_and!; [reflexivity | reflexivity | reflexivity | exact Hd | exact Hq
              | exact Hreg | exact Hrq].
Defined.

(** A discovery response of peer b waits in the inbound queue. *)
Lemma discovery_response_witness :
  let item := Queued peer_b (Message ESP_NOW_MSG_TYPE_DISCOVERY_RESPONSE 0 0 6 0
                               (replicate 234 0)) in
  let s := upd_mgr (upd_receive_queue (λ _, [item])) (system_with [] [] []) in
  receive_queue_ (mgr s) = [item]
  ∧ peers_mutex_ (mgr s) = false
  ∧ driver_accepts s
  ∧ (is_peer_registered peer_b (receive_task_step nobody s).2).1 = true
  ∧ send_queue_ (mgr (receive_task_step nobody s).2) = [].
Proof.
  intros item s.
  assert (Hd : driver_accepts s) by apply Forall_nil_2.
  destruct (discovery_response_is_recorded nobody item [] s eq_refl eq_refl eq_refl Hd)
    as (Hreg & _ & _ & Hsq).
  split_and!; [reflexivity | reflexivity | exact Hd | exact Hreg | exact Hsq].
Defined.

(** A test-data frame of peer b waits in the inbound queue. *)
Lemma other_frame_witness :
  let item := Queued peer_b (Message ESP_NOW_MSG_TYPE_TEST_DATA 0 0 0 0
                               (replicate 234 0)) in
  let s := upd_mgr (upd_receive_queue (λ _, [item])) (system_with [] [] []) in
  receive_queue_ (mgr s) = [item]
  ∧ peers_ (mgr (receive_task_step nobody s).2) = []
  ∧ send_queue_ (mgr (receive_task_step nobody s).2) = [].
Proof.
  intros item s.
  destruct (other_frames_only_reach_the_callback nobody item [] s eq_refl)
    as (_ & Hp & _ & Hsq & _); [by intros [=] | by intros [=] | by intros [=] |].
  split_and!; [reflexivity | exact Hp | exact Hsq].
Defined.

(** *** The send callback and the sweep *)

(** A failed send to peer a is reported. *)
Lemma send_callback_witness :
  let s := system_with [known_peer peer_a 0] [] [] in
  peers_mutex_ (mgr s) = false
  ∧ total_packets_lost (statistics_ (mgr (esp_now_send_cb peer_a false s).2)) = 1
  ∧ total_packets_sent (statistics_ (mgr (esp_now_send_cb peer_a false s).2)) = 0.
Proof.
  intros s.
  destruct (send_callback_counts_once peer_a false s eq_refl) as (Hst & _).
  split_and!; [reflexivity | rewrite Hst; reflexivity | rewrite Hst; reflexivity].
Defined.

(** Peer a, silent for seventy seconds, stays in the table when a send
    to it has just failed. *)
Lemma refreshed_peer_witness :
  peers_mutex_ (mgr one_stale_peer) = false
  ∧ unique_addresses one_stale_peer
  ∧ peer_a ∈ mac_addr <$> peers_ (mgr one_stale_peer)
  ∧ (peer_a ∉ mac_addr <$> peers_ (mgr (peer_cleanup_sweep one_stale_peer).2))
  ∧ peer_a ∈ mac_addr
      <$> peers_ (mgr (peer_cleanup_sweep (esp_now_send_cb peer_a false one_stale_peer).2).2).
Proof.
  assert (Hu : unique_addresses one_stale_peer).
  { apply NoDup_cons_2; [|apply NoDup_singleton].
    intros Hin. apply list_elem_of_singleton in Hin. discriminate Hin. }
  assert (Hin : peer_a ∈ mac_addr <$> peers_ (mgr one_stale_peer)) by (by left).
  split_and!; [reflexivity | exact Hu | exact Hin | |].
  - apply (bool_decide_unpack _). by vm_compute.
  - exact (peer_that_is_sent_to_is_not_swept peer_a false one_stale_peer eq_refl Hu Hin).
Defined.

(** *** Start-up, shut-down and discovery *)


(** A running manager with a peer and a full outbound queue is shut down. *)
Lemma deinitialize_witness :
  let s := system_with [known_peer peer_a 0] full_queue [] in
  initialized_ (mgr s) = true
  ∧ (deinitialize s).1 = ESP_OK
  ∧ peers_ (mgr (deinitialize s).2) = []
  ∧ send_ping nobody peer_a (deinitialize s).2
    = (ESP_ERR_INVALID_STATE, (deinitialize s).2).
Proof.
  intros s.
  destruct (deinitialize_forgets_peers_and_keeps_counters nobody s eq_refl)
    as (Hr & Hi & _ & _ & _ & _ & Hp & _).
  split_and!; [reflexivity | exact Hr | exact Hp |].
  by apply send_ping_uninitialized.
Defined.


(** A discovery round while twenty frames wait. *)
Lemma discovery_round_witness :
  let s := system_with [] full_queue [] in
  initialized_ (mgr s) = true
  ∧ (send_discovery_request nobody s).1 = ESP_ERR_TIMEOUT
  ∧ discovery_requests_sent (statistics_ (mgr (send_discovery_request nobody s).2)) = 1.
Proof.
  intros s.
  destruct (discovery_request_is_counted_even_if_not_queued s eq_refl) as (Hc & _ & Hfull).
  split_and!; [reflexivity | | exact Hc].
  apply Hfull. by vm_compute.
Defined.

(** *** The scenarios *)

(** Discovery for two seconds on a manager that knows peer a; while the
    scenario waits, the discovery task sends its request, the send task
    hands it to the driver and the driver reports it. *)
Lemma forgotten_peer_witness :
  let p := performance_on
             (system_with [known_peer peer_a 0] []
                [[EvDiscoveryTask; EvSendTask; EvSendDone ESP_NOW_BROADCAST_ADDR true];
                 [EvTick 5; EvCleanupTask; EvReceiveTask]]) in
  radio_silence (PerformanceTests.sys p)
  ∧ unique_addresses (PerformanceTests.sys p)
  ∧ 0 < 2000
  ∧ PerformanceTests.devices_found (PerformanceTests.test_basic_discovery 2000 p).1.2 = 0
  ∧ peers_ (mgr (PerformanceTests.sys (PerformanceTests.test_basic_discovery 2000 p).2))
    = [].
Proof.
  intros p.
  assert (Hq : radio_silence (PerformanceTests.sys p)).
  { split_and!; try reflexivity; [apply Forall_nil_2 | repeat constructor]. }
  assert (Hu : unique_addresses (PerformanceTests.sys p)) by apply NoDup_singleton.
  assert (Ht : 0 < 2000) by (by vm_compute).
  destruct (basic_discovery_forgets_the_known_peers 2000 p Hq Hu Ht)
    as (_ & Hf & _ & _ & Hp & _).
  exact (conj Hq (conj Hu (conj Ht (conj Hf Hp)))).
Defined.

(** The performance suite on a manager that knows peer a, with the
    discovery task and the send task at work during the first wait. *)
Lemma known_peer_witness :
  let p := performance_on
             (system_with [known_peer peer_a 0] []
                [[EvDiscoveryTask; EvSendTask; EvSendDone ESP_NOW_BROADCAST_ADDR true]]) in
  radio_silence (PerformanceTests.sys p)
  ∧ unique_addresses (PerformanceTests.sys p)
  ∧ (PerformanceTests.run_full_performance_suite p).1 = ESP_ERR_NOT_FOUND.
Proof.
  intros p.
  assert (Hq : radio_silence (PerformanceTests.sys p)).
  { split_and!; try reflexivity; [apply Forall_nil_2 | repeat constructor]. }
  assert (Hu : unique_addresses (PerformanceTests.sys p)) by apply NoDup_singleton.
  split_and!; [exact Hq | exact Hu |].
  exact (proj1 (performance_suite_ignores_known_peers p Hq Hu)).
Defined.

(** The performance tests of the framework against peer a, which never
    answers. *)
Lemma five_results_witness :
  let f := framework_on (system_with [known_peer peer_a 0] [] []) in
  TestFramework.results_mutex_ f = false
  ∧ peers_mutex_ (mgr (TestFramework.sys f)) = false
  ∧ peers_ (mgr (TestFramework.sys f)) ≠ []
  ∧ (TestFramework.run_all_performance_tests f).1 = ESP_OK.
Proof.
  intros f.
  assert (Hp : peers_ (mgr (TestFramework.sys f)) ≠ []) by (by intros [=]).
  split_and!; [reflexivity | reflexivity | exact Hp |].
  exact (proj1 (performance_tests_run_to_the_end f eq_refl eq_refl Hp)).
Defined.

(** A throughput test with 235 bytes per packet. *)
Lemma oversized_throughput_witness :
  let f := framework_on (system_with [known_peer peer_a 0] [] []) in
  PAYLOAD_CAPACITY < 235
  ∧ TestFramework.results_mutex_ f = false
  ∧ (TestFramework.run_throughput_test "Throughput" peer_a 1000 235 f).1 = ESP_OK.
Proof.
  intros f.
  assert (Hs : PAYLOAD_CAPACITY < 235) by (by vm_compute).
  split_and!; [exact Hs | reflexivity |].
  exact (proj1 (oversized_throughput_payload_fails_the_test "Throughput" peer_a 1000 235 f
                  Hs eq_refl)).
Defined.

(** The full suite of the framework when the driver has no memory left
    for the broadcast address. *)
Lemma refused_discovery_witness :
  let f := framework_on (upd_add_peer_rets [ESP_ERR_NO_MEM] (system_with [] [] [])) in
  initialized_ (mgr (TestFramework.sys f)) = true
  ∧ discovery_active_ (mgr (TestFramework.sys f)) = false
  ∧ Z.of_nat (length (send_queue_ (mgr (TestFramework.sys f)))) < QUEUE_LENGTH
  ∧ add_peer_rets (TestFramework.sys f) = [ESP_ERR_NO_MEM]
  ∧ ESP_ERR_NO_MEM ≠ ESP_OK
  ∧ ESP_ERR_NO_MEM ≠ ESP_ERR_ESPNOW_EXIST
  ∧ TestFramework.results_mutex_ f = false
  ∧ (TestFramework.run_full_test_suite f).1 = ESP_ERR_NO_MEM.
Proof.
  intros f.
  assert (Hroom : Z.of_nat (length (send_queue_ (mgr (TestFramework.sys f))))
                  < QUEUE_LENGTH) by (by vm_compute).
  assert (Hok : ESP_ERR_NO_MEM ≠ ESP_OK) by discriminate.
  assert (Hex : ESP_ERR_NO_MEM ≠ ESP_ERR_ESPNOW_EXIST) by discriminate.
  split_and!; [reflexivity | reflexivity | exact Hroom | reflexivity | exact Hok
              | exact Hex | reflexivity |].
  exact (proj1 (suite_stops_when_the_driver_refuses_discovery ESP_ERR_NO_MEM [] f
                  eq_refl eq_refl Hroom eq_refl Hok Hex eq_refl)).
Defined.
